(** * HYBRIDTRACK: GS1 barcode decoding and catalog matching

    A shallow embedding of the barcode engine of the expiry tracker
    ([parseGS1], [convertToParenthesized], [parseExpiryDate],
    [calculateExpiryStatus], [matchProduct], [buildMasterIndex]) and the
    properties its specification states about it; then of the catalog
    import ([parseMasterFile], [parseCSVLine], [saveMasterData]), the
    rows of [exportCSV], the drug codes ([extractNDCFromGTIN],
    [formatNDC]) and the PIN lock, with properties read off the code.

    Conventions of the embedding:
    - a JavaScript string is a [string]; its characters are code units
      below 256;
    - a JavaScript value that a caller may pass is a [jsval];
    - a number produced by [parseInt] is a [jsnum]: an integer-valued
      double, NaN or an infinity;
    - a call that may throw returns an [Outcome];
    - [State.masterData] (a [Map]) is the list of its entries in iteration
      order, [State.masterIndex] is a record of two [gmap]s;
    - the clock and the local time zone are an explicit [Env]. *)

From Stdlib Require Import ZArith List Ascii String Bool Lia DecimalString.
From stdpp Require Import gmap strings.

Local Open Scope string_scope.
Local Open Scope Z_scope.

(** ** JavaScript strings *)

Module JS.

Definition is_digit (c : ascii) : bool :=
  match c with
  | "0" | "1" | "2" | "3" | "4" | "5" | "6" | "7" | "8" | "9" => true
  | _ => false
  end%char.

(** [WhiteSpace] and [LineTerminator] code units below 256: what
    [String.prototype.trim] removes and what [parseInt] skips. *)
Definition is_space (c : ascii) : bool :=
  match nat_of_ascii c with
  | 9%nat | 10%nat | 11%nat | 12%nat | 13%nat | 32%nat | 160%nat => true
  | _ => false
  end.

Definition GS : ascii := ascii_of_nat 29.

Fixpoint all_chars (p : ascii -> bool) (s : string) : bool :=
  match s with
  | EmptyString => true
  | String c s' => p c && all_chars p s'
  end.

Fixpoint str_filter (p : ascii -> bool) (s : string) : string :=
  match s with
  | EmptyString => EmptyString
  | String c s' => if p c then String c (str_filter p s') else str_filter p s'
  end.

Fixpoint str_map (f : ascii -> ascii) (s : string) : string :=
  match s with
  | EmptyString => EmptyString
  | String c s' => String (f c) (str_map f s')
  end.

Fixpoint take_while (p : ascii -> bool) (s : string) : string :=
  match s with
  | EmptyString => EmptyString
  | String c s' => if p c then String c (take_while p s') else EmptyString
  end.

Fixpoint drop_while (p : ascii -> bool) (s : string) : string :=
  match s with
  | EmptyString => EmptyString
  | String c s' => if p c then drop_while p s' else s
  end.

Fixpoint str_rev_onto (s acc : string) : string :=
  match s with
  | EmptyString => acc
  | String c s' => str_rev_onto s' (String c acc)
  end.

Definition str_rev (s : string) : string := str_rev_onto s EmptyString.

Fixpoint str_drop (n : nat) (s : string) : string :=
  match n, s with
  | O, _ => s
  | S _, EmptyString => EmptyString
  | S n', String _ s' => str_drop n' s'
  end.

Fixpoint str_take (n : nat) (s : string) : string :=
  match n, s with
  | O, _ => EmptyString
  | S _, EmptyString => EmptyString
  | S n', String c s' => String c (str_take n' s')
  end.

Fixpoint str_repeat (c : ascii) (n : nat) : string :=
  match n with
  | O => EmptyString
  | S n' => String c (str_repeat c n')
  end.

Definition nonempty (s : string) : bool :=
  match s with EmptyString => false | String _ _ => true end.

(** [s.includes(c)] for a one-character needle. *)
Fixpoint includes (c : ascii) (s : string) : bool :=
  match s with
  | EmptyString => false
  | String c' s' => Ascii.eqb c' c || includes c s'
  end.

(** [s.startsWith(p)]; [strip_prefix] also returns what follows. *)
Fixpoint strip_prefix (p s : string) : option string :=
  match p, s with
  | EmptyString, _ => Some s
  | String _ _, EmptyString => None
  | String a p', String b s' => if Ascii.eqb a b then strip_prefix p' s' else None
  end.

Definition startsWith (p s : string) : bool :=
  match strip_prefix p s with Some _ => true | None => false end.

(** [s.substring(a, a + n)] with [a] inside the string or at its end. *)
Definition substring (a n : nat) (s : string) : string :=
  str_take n (str_drop a s).

(** [s.padStart(n, c)] *)
Definition padStart (n : nat) (c : ascii) (s : string) : string :=
  str_repeat c (n - String.length s) ++ s.

(** [s.slice(-n)] *)
Definition slice_last (n : nat) (s : string) : string :=
  str_drop (String.length s - n) s.

(** [s.trim()] *)
Definition trim (s : string) : string :=
  str_rev (drop_while is_space (str_rev (drop_while is_space s))).

(** [s.replace(/\D/g, '')] *)
Definition digits_only (s : string) : string := str_filter is_digit s.

(** [s.replace(/^0+/, '')] *)
Definition strip_zeros (s : string) : string :=
  drop_while (fun c => Ascii.eqb c "0") s.

(** [s.replace(/\x1d/g, '|')] *)
Definition gs_to_pipe (s : string) : string :=
  str_map (fun c => if Ascii.eqb c GS then "|"%char else c) s.

(** [s.replace(/\|/g, '')] *)
Definition drop_pipes (s : string) : string :=
  str_filter (fun c => negb (Ascii.eqb c "|")) s.

(** A regular expression of the shape [prefix(class{lo,hi})], searched
    like [String.prototype.match] does for a pattern without flags: the
    leftmost start wins, the class is taken greedily, and the captured
    group is returned. Every pattern of [parseGS1] has this shape. *)
Definition capture (p : ascii -> bool) (lo : nat) (hi : option nat)
    (rest : string) : option string :=
  let run := take_while p rest in
  if (lo <=? String.length run)%nat
  then Some (match hi with Some h => str_take h run | None => run end)
  else None.

Definition match_here (prefix : string) (p : ascii -> bool) (lo : nat)
    (hi : option nat) (s : string) : option string :=
  match strip_prefix prefix s with
  | Some rest => capture p lo hi rest
  | None => None
  end.

Fixpoint regex_match (prefix : string) (p : ascii -> bool) (lo : nat)
    (hi : option nat) (s : string) : option string :=
  match match_here prefix p lo hi s with
  | Some g => Some g
  | None =>
      match s with
      | EmptyString => None
      | String _ s' => regex_match prefix p lo hi s'
      end
  end.

(** [/^\d{lo,hi}$/.test(s)] *)
Definition digits_between (lo hi : nat) (s : string) : bool :=
  all_chars is_digit s && (lo <=? String.length s)%nat
  && (String.length s <=? hi)%nat.

(** [/^\d{2}/.test(s)] *)
Definition two_digits_first (s : string) : bool :=
  match s with
  | String a (String b _) => is_digit a && is_digit b
  | _ => false
  end.

End JS.

(** ** JavaScript values, numbers and outcomes *)

(** The numbers [parseInt] can return: NaN, an integer-valued double, or
    an infinity. *)
Inductive jsnum : Type :=
  | NaN
  | Fin (z : Z)
  | Inf (negative : bool).

Inductive jsval : Type :=
  | VUndefined
  | VNull
  | VBool (b : bool)
  | VNum (n : jsnum)
  | VStr (s : string)
  | VObj.

(** [ToBoolean] *)
Definition num_truthy (n : jsnum) : bool :=
  match n with
  | NaN => false
  | Fin z => negb (z =? 0)
  | Inf _ => true
  end.

Definition truthy (v : jsval) : bool :=
  match v with
  | VUndefined | VNull => false
  | VBool b => b
  | VNum n => num_truthy n
  | VStr s => JS.nonempty s
  | VObj => true
  end.

Inductive JsError : Type := TypeError | RangeError.

(** What a call does: it returns, it throws, or its loop is still running
    when the fuel of the model is spent. *)
Inductive Outcome (A : Type) : Type :=
  | Ok (a : A)
  | Throw (e : JsError)
  | Timeout.
Arguments Ok {A} a.
Arguments Throw {A} e.
Arguments Timeout {A}.

Definition bind {A B} (m : Outcome A) (k : A -> Outcome B) : Outcome B :=
  match m with
  | Ok a => k a
  | Throw e => Throw e
  | Timeout => Timeout
  end.

Notation "'let*' x ':=' m 'in' k" := (bind m (fun x => k))
  (at level 10, x name, m at level 100, k at level 200).

(** *** [parseInt] without a radix argument *)

Definition digit_val (c : ascii) : option Z :=
  let n := Z.of_nat (nat_of_ascii c) in
  if JS.is_digit c then Some (n - 48)
  else if (97 <=? n) && (n <=? 122) then Some (n - 87)
  else if (65 <=? n) && (n <=? 90) then Some (n - 55)
  else None.

Definition radix_digit (R : Z) (c : ascii) : bool :=
  match digit_val c with
  | Some v => v <? R
  | None => false
  end.

Fixpoint digits_value (R : Z) (s : string) (acc : Z) : Z :=
  match s with
  | EmptyString => acc
  | String c s' =>
      digits_value R s'
        (acc * R + match digit_val c with Some v => v | None => 0 end)
  end.

(** The double nearest to a natural number [n] (ties to even), or
    [+Infinity] from [2^1024 - 2^970] on. Below [2^53] it is [n]. *)
Definition round_double (n : Z) : jsnum :=
  if n <? 2 ^ 53 then Fin n
  else
    let e := Z.log2 n - 52 in
    let q := n / 2 ^ e in
    let r := n mod 2 ^ e in
    let half := 2 ^ (e - 1) in
    let q' := if (half <? r) || ((r =? half) && Z.odd q) then q + 1 else q in
    let v := q' * 2 ^ e in
    if v <? 2 ^ 1024 then Fin v else Inf false.

Definition num_neg (n : jsnum) : jsnum :=
  match n with
  | NaN => NaN
  | Fin z => Fin (- z)
  | Inf b => Inf (negb b)
  end.

(** [parseInt(s)]: leading white space, a sign, a [0x] prefix, then the
    longest run of digits of the radix; no digit gives NaN. A run of more
    than 20 decimal digits is read exactly here (an engine may round it
    first; the magnitude is the same). *)
Definition parseInt (s : string) : jsnum :=
  let s1 := JS.drop_while JS.is_space s in
  let '(neg, s2) :=
    match s1 with
    | String "-" t => (true, t)
    | String "+" t => (false, t)
    | _ => (false, s1)
    end in
  let '(R, s3) :=
    match s2 with
    | String "0" (String "x" t) => (16, t)
    | String "0" (String "X" t) => (16, t)
    | _ => (10, s2)
    end in
  let ds := JS.take_while (radix_digit R) s3 in
  if JS.nonempty ds
  then (if neg then num_neg else id) (round_double (digits_value R ds 0))
  else NaN.

(** [String(n)] for an integer below [10^21] in magnitude. *)
Definition String_of_int (n : Z) : string :=
  DecimalString.NilZero.string_of_int (Z.to_int n).

(** ** Dates

    Time values are milliseconds since the epoch, as in ECMAScript. The
    civil calendar is the proleptic Gregorian one. *)

Definition msPerDay : Z := 86400000.

Definition is_leap (y : Z) : bool :=
  ((y mod 4 =? 0) && negb (y mod 100 =? 0)) || (y mod 400 =? 0).

Definition days_in_month (y m : Z) : Z :=
  if m =? 2 then (if is_leap y then 29 else 28)
  else if (m =? 4) || (m =? 6) || (m =? 9) || (m =? 11) then 30
  else 31.

(** Day number of the civil date [y-m-d], [1 <= m <= 12], counted from
    1970-01-01. *)
Definition days_from_civil (y m d : Z) : Z :=
  let y' := if m <=? 2 then y - 1 else y in
  let era := y' / 400 in
  let yoe := y' - era * 400 in
  let mp := (m + 9) mod 12 in
  let doy := (153 * mp + 2) / 5 + d - 1 in
  let doe := yoe * 365 + yoe / 4 - yoe / 100 + doy in
  era * 146097 + doe - 719468.

(** The civil date [(year, month, day)] of a day number. *)
Definition civil_from_days (n : Z) : Z * Z * Z :=
  let z := n + 719468 in
  let era := z / 146097 in
  let doe := z - era * 146097 in
  let yoe := (doe - doe / 1460 + doe / 36524 - doe / 146096) / 365 in
  let doy := doe - (365 * yoe + yoe / 4 - yoe / 100) in
  let mp := (5 * doy + 2) / 153 in
  let d := doy - (153 * mp + 2) / 5 + 1 in
  let m := if mp <? 10 then mp + 3 else mp - 9 in
  let y := yoe + era * 400 + (if m <=? 2 then 1 else 0) in
  (y, m, d).

(** [MakeDay(year, month, date)] with a zero-based, unnormalised month. *)
Definition MakeDay (year month date : Z) : Z :=
  days_from_civil (year + month / 12) (month mod 12 + 1) 1 + date - 1.

(** The clock and the local time zone of the run. [tzaOfUtc t] is the
    offset in force at the instant [t], [tzaOfLocal t] the offset used to
    read the local time [t] (ECMAScript's [LocalTZA] with [isUTC] true
    and false). The dates handled here lie in the years 1900 to 2107, far
    inside the range of [Date], so a time value built from integers is
    an integer and never NaN. *)
Record Env : Type := {
  now : Z;
  tzaOfUtc : Z -> Z;
  tzaOfLocal : Z -> Z
}.

(** A zone with one offset all year, and a clock reading. *)
Definition fixed_zone (clock offset : Z) : Env :=
  {| now := clock; tzaOfUtc := fun _ => offset; tzaOfLocal := fun _ => offset |}.

Definition LocalTime (env : Env) (t : Z) : Z := t + tzaOfUtc env t.
Definition UTC (env : Env) (t : Z) : Z := t - tzaOfLocal env t.

(** [new Date(year, month, day)]: local midnight of that civil date; a
    year from 0 to 99 means 1900 + year. *)
Definition Date_ymd (env : Env) (year month day : Z) : Z :=
  let yr := if (0 <=? year) && (year <=? 99) then 1900 + year else year in
  UTC env (MakeDay yr month day * msPerDay).

(** [date.getDate()] *)
Definition getDate (env : Env) (t : Z) : Z :=
  snd (civil_from_days (LocalTime env t / msPerDay)).

(** [date.setHours(0, 0, 0, 0)] *)
Definition setHours0 (env : Env) (t : Z) : Z :=
  UTC env (LocalTime env t / msPerDay * msPerDay).

Definition pad2 (n : Z) : string := JS.padStart 2 "0" (String_of_int n).

(** The date part of the ISO form of a day number: four digits for the
    years 0 to 9999, a sign and six digits otherwise. *)
Definition iso_of_day (n : Z) : string :=
  let '(y, m, d) := civil_from_days n in
  let ys :=
    if (0 <=? y) && (y <=? 9999) then JS.padStart 4 "0" (String_of_int y)
    else (if y <? 0 then "-" else "+")
           ++ JS.padStart 6 "0" (String_of_int (Z.abs y)) in
  ys ++ "-" ++ pad2 m ++ "-" ++ pad2 d.

(** [date.toISOString().split('T')[0]]: the UTC date of the instant. *)
Definition toISODate (t : Z) : string := iso_of_day (t / msPerDay).

(** [new Date(s)] for a date-only string [YYYY-MM-DD] of the ECMAScript
    date-time format: UTC midnight of that date. A day beyond the length
    of the month, up to 31, is carried over into the next month, as V8
    does (another engine may give the invalid date there; on the dates
    of the calendar, the only ones [parseGS1] passes, engines agree).
    [None] is the invalid date (time value NaN). What an engine makes of
    a string of another form is left to the engine by ECMAScript and is
    taken as invalid here. *)
Definition Date_parse (s : string) : option Z :=
  let ys := JS.substring 0 4 s in
  let ms := JS.substring 5 2 s in
  let ds := JS.substring 8 2 s in
  let y := digits_value 10 ys 0 in
  let m := digits_value 10 ms 0 in
  let d := digits_value 10 ds 0 in
  if (String.length s =? 10)%nat
     && JS.all_chars JS.is_digit (ys ++ ms ++ ds)
     && String.eqb (JS.substring 4 1 s) "-"
     && String.eqb (JS.substring 7 1 s) "-"
     && (1 <=? m) && (m <=? 12) && (1 <=? d) && (d <=? 31)
  then Some (days_from_civil y m d * msPerDay)
  else None.

(** ** The parser: [convertToParenthesized], [parseExpiryDate],
    [calculateExpiryStatus], [parseGS1] *)

(** [CONFIG.EXPIRY_SOON_DAYS] *)
Definition EXPIRY_SOON_DAYS : Z := 90.

Inductive ExpiryStatus : Type := missing | expired | soon | ok.

Record ParsedCode : Type := mkParsedCode {
  valid : bool;
  raw : jsval;
  gtin14 : string;
  gtin13 : string;
  expiry : option string;
  expiryDDMMYY : string;
  expiryFormatted : string;
  expiryStatus : ExpiryStatus;
  batch : string;
  serial : string;
  qty : jsnum;
  rms : string
}.

(** The table of [convertToParenthesized]; [-1] marks a variable-length
    field. No property inherited from [Object.prototype] has a name of
    one, two or three characters, so a lookup sees these keys only. *)
Definition aiLengths : list (string * Z) :=
  [ ("01", 14); ("02", 14);
    ("10", -1); ("21", -1); ("22", -1);
    ("11", 6); ("13", 6); ("15", 6); ("17", 6);
    ("30", -1); ("37", -1);
    ("00", 18); ("20", 2) ].

Definition ai_lookup (k : string) : option Z :=
  match find (fun p => String.eqb (fst p) k) aiLengths with
  | Some p => Some (snd p)
  | None => None
  end.

Definition ai_known (k : string) : bool :=
  match ai_lookup k with Some _ => true | None => false end.

Definition is_sep (c : ascii) : bool :=
  Ascii.eqb c "|" || Ascii.eqb c JS.GS.

(** The inner [while] of [convertToParenthesized]: reads a
    variable-length field from [pos], returns the position reached and
    the value read. *)
Fixpoint var_loop (fuel : nat) (code : string) (pos : nat) (value : string)
    : option (nat * string) :=
  match fuel with
  | O => None
  | S fuel' =>
      match String.get pos code with
      | None => Some (pos, value)
      | Some char =>
          if is_sep char then Some (S pos, value)
          else if (ai_known (JS.substring pos 2 code)
                   || ai_known (JS.substring pos 3 code))
                  && JS.nonempty value
          then Some (pos, value)
          else var_loop fuel' code (S pos) (value ++ String char EmptyString)
      end
  end.

(** The outer [while] of [convertToParenthesized]. *)
Fixpoint convert_loop (fuel : nat) (code : string) (pos : nat)
    (result : string) : option string :=
  match fuel with
  | O => None
  | S fuel' =>
      if (pos <? String.length code)%nat then
        let ai2 := JS.substring pos 2 code in
        let ai3 := JS.substring pos 3 code in
        let found :=
          match ai_lookup ai2 with
          | Some l => Some (ai2, l)
          | None =>
              match ai_lookup ai3 with
              | Some l => Some (ai3, l)
              | None => None
              end
          end in
        match found with
        | None => convert_loop fuel' code (S pos) result
        | Some (ai, len) =>
            let pos1 := (pos + String.length ai)%nat in
            if 0 <? len then
              convert_loop fuel' code (pos1 + Z.to_nat len)%nat
                (result ++ "(" ++ ai ++ ")"
                   ++ JS.substring pos1 (Z.to_nat len) code)
            else
              match var_loop (S (String.length code)) code pos1 EmptyString with
              | None => None
              | Some (pos2, value) =>
                  convert_loop fuel' code pos2
                    (result ++ "(" ++ ai ++ ")" ++ value)
              end
        end
      else Some result
  end.

Definition convertToParenthesized (code : string) : Outcome string :=
  match convert_loop (S (String.length code)) code 0 EmptyString with
  | None => Timeout
  | Some result => Ok (if JS.nonempty result then result else code)
  end.

Record ExpiryParts : Type := {
  iso : string;
  ddmmyy : string;
  formatted : string
}.

(** [parseExpiryDate]: an invalid date makes [toISOString] throw a
    [RangeError]. *)
Definition parseExpiryDate (env : Env) (yymmdd : string) : Outcome ExpiryParts :=
  let yy := JS.substring 0 2 yymmdd in
  match parseInt ("20" ++ yy),
        parseInt (JS.substring 2 2 yymmdd),
        parseInt (JS.substring 4 2 yymmdd) with
  | Fin year, Fin month, Fin day0 =>
      let day :=
        if day0 =? 0 then getDate env (Date_ymd env year month 0) else day0 in
      let date := Date_ymd env year (month - 1) day in
      Ok {| iso := toISODate date;
            ddmmyy := pad2 day ++ pad2 month ++ yy;
            formatted := pad2 day ++ "/" ++ pad2 month ++ "/"
                           ++ String_of_int year |}
  | _, _, _ => Throw RangeError
  end.

(** [Math.ceil(a / b)] for integers [a] and [b > 0]. With [b = msPerDay]
    and [|a| < 2^46] (instants within two thousand years of each other)
    the double quotient is off the exact one by at most [2^-33], less
    than the distance [1 / b] of a non-integer quotient to the nearest
    integer, so the ceiling of the double is the ceiling of the
    quotient. *)
Definition ceil_div (a b : Z) : Z := - ((- a) / b).

(** The time values [expiry] and [today] of [calculateExpiryStatus],
    after [setHours(0, 0, 0, 0)]; [None] is NaN. *)
Definition today_midnight (env : Env) : Z := setHours0 env (now env).

Definition expiry_midnight (env : Env) (isoDate : string) : option Z :=
  match Date_parse isoDate with
  | Some t => Some (setHours0 env t)
  | None => None
  end.

(** [calculateExpiryStatus]; [None] stands for [null] and [undefined].
    With an invalid date [diffDays] is NaN and both comparisons fail. *)
Definition calculateExpiryStatus (env : Env) (isoDate : option string)
    : ExpiryStatus :=
  match isoDate with
  | None => missing
  | Some s =>
      if negb (JS.nonempty s) then missing
      else
        let today := today_midnight env in
        match expiry_midnight env s with
        | None => ok
        | Some expiry =>
            let diffDays := ceil_div (expiry - today) msPerDay in
            if diffDays <? 0 then expired
            else if diffDays <=? EXPIRY_SOON_DAYS then soon
            else ok
        end
  end.

Definition default_result (raw : jsval) : ParsedCode :=
  {| valid := false; raw := raw; gtin14 := ""; gtin13 := "";
     expiry := None; expiryDDMMYY := ""; expiryFormatted := "";
     expiryStatus := missing; batch := ""; serial := "";
     qty := Fin 1; rms := "" |}.

Definition set_gtin (g14 g13 : string) (r : ParsedCode) : ParsedCode :=
  {| valid := true; raw := raw r; gtin14 := g14; gtin13 := g13;
     expiry := expiry r; expiryDDMMYY := expiryDDMMYY r;
     expiryFormatted := expiryFormatted r; expiryStatus := expiryStatus r;
     batch := batch r; serial := serial r; qty := qty r; rms := rms r |}.

Definition set_expiry (env : Env) (p : ExpiryParts) (r : ParsedCode)
    : ParsedCode :=
  {| valid := valid r; raw := raw r; gtin14 := gtin14 r; gtin13 := gtin13 r;
     expiry := Some (iso p); expiryDDMMYY := ddmmyy p;
     expiryFormatted := formatted p;
     expiryStatus := calculateExpiryStatus env (Some (iso p));
     batch := batch r; serial := serial r; qty := qty r; rms := rms r |}.

Definition set_batch (b : string) (r : ParsedCode) : ParsedCode :=
  {| valid := valid r; raw := raw r; gtin14 := gtin14 r; gtin13 := gtin13 r;
     expiry := expiry r; expiryDDMMYY := expiryDDMMYY r;
     expiryFormatted := expiryFormatted r; expiryStatus := expiryStatus r;
     batch := b; serial := serial r; qty := qty r; rms := rms r |}.

Definition set_serial (s : string) (r : ParsedCode) : ParsedCode :=
  {| valid := valid r; raw := raw r; gtin14 := gtin14 r; gtin13 := gtin13 r;
     expiry := expiry r; expiryDDMMYY := expiryDDMMYY r;
     expiryFormatted := expiryFormatted r; expiryStatus := expiryStatus r;
     batch := batch r; serial := s; qty := qty r; rms := rms r |}.

Definition set_qty (q : jsnum) (r : ParsedCode) : ParsedCode :=
  {| valid := valid r; raw := raw r; gtin14 := gtin14 r; gtin13 := gtin13 r;
     expiry := expiry r; expiryDDMMYY := expiryDDMMYY r;
     expiryFormatted := expiryFormatted r; expiryStatus := expiryStatus r;
     batch := batch r; serial := serial r; qty := q; rms := rms r |}.

(** Drops one leading zero: [s.startsWith('0') ? s.substring(1) : s]. *)
Definition drop_zero (s : string) : string :=
  if JS.startsWith "0" s then JS.str_drop 1 s else s.

(** The character class [[^\(|\x1d]] of the batch and serial patterns. *)
Definition field_char (c : ascii) : bool :=
  negb (Ascii.eqb c "(" || Ascii.eqb c "|" || Ascii.eqb c JS.GS).

(** The five patterns of [parseGS1]. *)
Definition match_gtin : string -> option string :=
  JS.regex_match "(01)" JS.is_digit 12 (Some 14%nat).
Definition match_expiry : string -> option string :=
  JS.regex_match "(17)" JS.is_digit 6 (Some 6%nat).
Definition match_batch : string -> option string :=
  JS.regex_match "(10)" field_char 1 None.
Definition match_serial : string -> option string :=
  JS.regex_match "(21)" field_char 1 None.
Definition match_qty : string -> option string :=
  JS.regex_match "(30)" JS.is_digit 1 None.

(** [parseInt(digits) || 1] *)
Definition qty_of (digits : string) : jsnum :=
  let n := parseInt digits in
  if num_truthy n then n else Fin 1.

(** The extraction half of [parseGS1], from [const patterns] on. *)
Definition extract (env : Env) (code : string) (result : ParsedCode)
    : Outcome ParsedCode :=
  let r1 :=
    match match_gtin code with
    | Some g =>
        let g14 := JS.padStart 14 "0" g in
        set_gtin g14 (drop_zero g14) result
    | None => result
    end in
  let* r2 :=
    match match_expiry code with
    | Some e => let* parsed := parseExpiryDate env e in
                Ok (set_expiry env parsed r1)
    | None => Ok r1
    end in
  let r3 :=
    match match_batch code with
    | Some b => set_batch (JS.trim (JS.drop_pipes b)) r2
    | None => r2
    end in
  let r4 :=
    match match_serial code with
    | Some s => set_serial (JS.trim (JS.drop_pipes s)) r3
    | None => r3
    end in
  Ok match match_qty code with
     | Some q => set_qty (qty_of q) r4
     | None => r4
     end.

(** [if (!code.includes('(') && /^\d{2}/.test(code))
      code = convertToParenthesized(code);] *)
Definition with_parentheses (code : string) : Outcome string :=
  if negb (JS.includes "(" code) && JS.two_digits_first code
  then convertToParenthesized code
  else Ok code.

(** [parseGS1], from the short-code test on: [code] and [result] are the
    two variables as the plain-numeric block leaves them. *)
Definition parse_rest (env : Env) (code : string) (result : ParsedCode)
    : Outcome ParsedCode :=
  if JS.digits_between 5 7 code then Ok (set_gtin code code result)
  else
    let* code1 := with_parentheses code in
    extract env code1 result.

Definition parseGS1 (env : Env) (raw : jsval) : Outcome ParsedCode :=
  let result := default_result raw in
  match raw with
  | VStr s =>
      if negb (JS.nonempty s) then Ok result
      else
        let code := JS.gs_to_pipe (JS.trim s) in
        if JS.digits_between 5 21 code && negb (JS.includes "(" code) then
          let result1 :=
            set_gtin (JS.padStart 14 "0" code)
              (if (String.length code <=? 13)%nat then code
               else JS.substring 0 13 code) result in
          if JS.startsWith "01" code && (16 <=? String.length code)%nat then
            let* code1 := convertToParenthesized code in
            parse_rest env code1 result1
          else Ok result1
        else parse_rest env code result
  | _ => Ok result
  end.

(** ** The catalog index and the matcher: [buildMasterIndex],
    [matchProduct] *)

Module Entry.

(** An element of a last-8 bucket: [{ barcode: digits, name }]. *)
Record t : Type := mk { barcode : string; name : string }.

End Entry.

(** [State.masterIndex] *)
Record MasterIndex : Type := {
  exact : gmap string string;
  last8 : gmap string (list Entry.t)
}.

Inductive MatchType : Type := EXACT | LAST8 | AMBIG | NONE.

(** What [matchProduct] returns: [{ name, type }]. *)
Record MatchResult : Type := { name : string; type : MatchType }.

(** [(arg || '').replace(/\D/g, '')]: a truthy value that is not a string
    has no [replace] method. *)
Definition arg_digits (arg : jsval) : Outcome string :=
  if truthy arg then
    match arg with
    | VStr s => Ok (JS.digits_only s)
    | _ => Throw TypeError
    end
  else Ok (JS.digits_only "").

(** [k && idx.exact.has(k)], then [idx.exact.get(k)]. *)
Definition exact_nonempty (idx : MasterIndex) (k : string) : option string :=
  if JS.nonempty k then exact idx !! k else None.

(** Step 4, the last-8 table. *)
Definition last8_step (idx : MasterIndex) (digits14 : string)
    : option MatchResult :=
  if (8 <=? String.length digits14)%nat then
    match last8 idx !! JS.slice_last 8 digits14 with
    | Some matches =>
        match matches with
        | [] => None
        | [m] => Some {| name := Entry.name m; type := LAST8 |}
        | m :: _ :: _ => Some {| name := Entry.name m; type := AMBIG |}
        end
    | None => None
    end
  else None.

(** The [for] loop of step 5: [n] iterations from the width [pad]. *)
Fixpoint pad_loop (idx : MasterIndex) (digits14 : string) (n pad : nat)
    : option MatchResult :=
  match n with
  | O => None
  | S n' =>
      match exact idx !! JS.padStart pad "0" digits14 with
      | Some nm => Some {| name := nm; type := EXACT |}
      | None => pad_loop idx digits14 n' (S pad)
      end
  end.

(** Step 5: [pad] runs from [digits14.length] to 14. *)
Definition pad_step (idx : MasterIndex) (digits14 : string)
    : option MatchResult :=
  let len := String.length digits14 in
  if (5 <=? len)%nat && (len <=? 11)%nat
  then pad_loop idx digits14 (15 - len) len
  else None.

(** [matchProduct] once both arguments are digit strings. *)
Definition match_digits (idx : MasterIndex) (digits14 digits13 : string)
    : MatchResult :=
  match exact_nonempty idx digits14 with
  | Some nm => {| name := nm; type := EXACT |}
  | None =>
  match exact_nonempty idx digits13 with
  | Some nm => {| name := nm; type := EXACT |}
  | None =>
  match exact idx !! JS.padStart 14 "0" digits14 with
  | Some nm => {| name := nm; type := EXACT |}
  | None =>
  match exact_nonempty idx (JS.strip_zeros digits14) with
  | Some nm => {| name := nm; type := EXACT |}
  | None =>
  match last8_step idx digits14 with
  | Some r => r
  | None =>
  match pad_step idx digits14 with
  | Some r => r
  | None => {| name := ""; type := NONE |}
  end end end end end end.

Definition matchProduct (idx : MasterIndex) (gtin14 gtin13 : jsval)
    : Outcome MatchResult :=
  let* digits14 := arg_digits gtin14 in
  let* digits13 := arg_digits gtin13 in
  Ok (match_digits idx digits14 digits13).

(** [State.masterData]: the entries [(barcode, name)] of the [Map] in
    iteration order, which is the order of first insertion of each key;
    keys and names are strings, as the catalog loaders store them.
    [masterData_set] is [Map.prototype.set]: a known key keeps its place
    and takes the new value, a new key goes last. *)
Fixpoint masterData_set (barcode nm : string) (m : list (string * string))
    : list (string * string) :=
  match m with
  | [] => [(barcode, nm)]
  | (k, v) :: m' =>
      if String.eqb k barcode then (k, nm) :: m'
      else (k, v) :: masterData_set barcode nm m'
  end.

(** [if (!last8.has(key)) last8.set(key, []); last8.get(key).push(e)] *)
Definition last8_push (key : string) (e : Entry.t)
    (m : gmap string (list Entry.t)) : gmap string (list Entry.t) :=
  <[key := (default [] (m !! key) ++ [e])%list]> m.

(** [[8, 12, 13, 14].includes(n)] *)
Definition gtin_length (n : nat) : bool :=
  (n =? 8)%nat || (n =? 12)%nat || (n =? 13)%nat || (n =? 14)%nat.

(** The key under which an entry with these digits goes into the last-8
    table, if it goes there. *)
Definition last8_key (digits : string) : option string :=
  let len := String.length digits in
  if gtin_length len then Some (JS.slice_last 8 (JS.padStart 14 "0" digits))
  else if (8 <=? len)%nat then Some (JS.slice_last 8 digits)
  else None.

(** The callback of [State.masterData.forEach]. *)
Definition index_entry (acc : MasterIndex) (kv : string * string)
    : MasterIndex :=
  let '(barcode, nm) := kv in
  let digits := JS.digits_only barcode in
  if negb (JS.nonempty digits) then acc
  else
    let exact1 := <[barcode := nm]> (<[digits := nm]> (exact acc)) in
    let len := String.length digits in
    let '(exact2, last8') :=
      if gtin_length len then
        let g14 := JS.padStart 14 "0" digits in
        let g13 := drop_zero g14 in
        let g12 := drop_zero g13 in
        (<[g12 := nm]> (<[g13 := nm]> (<[g14 := nm]> exact1)),
         last8_push (JS.slice_last 8 g14) (Entry.mk digits nm) (last8 acc))
      else if (8 <=? len)%nat then
        (exact1,
         last8_push (JS.slice_last 8 digits) (Entry.mk digits nm) (last8 acc))
      else (exact1, last8 acc) in
    let stripped := JS.strip_zeros digits in
    let exact3 :=
      if JS.nonempty stripped && negb (String.eqb stripped digits)
      then <[stripped := nm]> exact2
      else exact2 in
    {| exact := exact3; last8 := last8' |}.

Definition empty_index : MasterIndex := {| exact := ∅; last8 := ∅ |}.

(** [buildMasterIndex]: the index it stores in [State.masterIndex]. *)
Definition buildMasterIndex (masterData : list (string * string))
    : MasterIndex :=
  fold_left index_entry masterData empty_index.

(** ** The matcher as the specification words it

    Five numbered strategies tried in a fixed order, each a lookup in a
    table of the index that hits or misses; the first hit wins, and
    without a hit the answer is [{name: "", type: NONE}]. The
    definitions follow the sentences of the specification and read the
    two tables themselves. *)






(** What steps 5 and 6 answer when the steps before them miss. *)
Definition fall_through (idx : MasterIndex) (digits14 : string) : MatchResult :=
  match pad_step idx digits14 with
  | Some r => r
  | None => {| name := ""; type := NONE |}
  end.

(** The status the specification gives a number of days to the expiry
    date. *)
Definition status_of_days (diffDays : Z) : ExpiryStatus :=
  if diffDays <? 0 then expired
  else if diffDays <=? 90 then soon
  else ok.

(** The quantity the specification gives a text: 1 when no digits follow
    ["(30)"] in it, else the number [parseInt] reads from the digits (the
    value as a double), zero counting as 1. *)
Definition quantity_of_text (text : string) : jsnum :=
  match match_qty text with
  | None => Fin 1
  | Some q =>
      if digits_value 10 q 0 =? 0 then Fin 1
      else round_double (digits_value 10 q 0)
  end.

(** The entries of the catalog that go into the bucket [k], in catalog
    order. *)
Definition bucket_of (masterData : list (string * string)) (k : string)
    : list Entry.t :=
  omap (fun kv : string * string =>
          let digits := JS.digits_only (fst kv) in
          if decide (last8_key digits = Some k)
          then Some (Entry.mk digits (snd kv))
          else None)
       masterData.

(** The catalog of the specification's example. *)
Definition paracetamol_catalog : list (string * string) :=
  masterData_set "5012345678900" "Paracetamol 500mg" [].

(** An argument [matchProduct] accepts: a string, or a falsy value such
    as [null] and [undefined]. *)
Definition string_or_falsy (v : jsval) : Prop :=
  (exists s, v = VStr s) \/ truthy v = false.

(** ** Predicates and tables of the proofs *)

(** What a bucket holds after more entries [l] went into it. *)
Definition bucket_extend (o : option (list Entry.t)) (l : list Entry.t)
    : option (list Entry.t) :=
  match l with
  | [] => o
  | _ :: _ => Some (default [] o ++ l)%list
  end.

(** A text without white space and group separators reaches the tests of
    [parseGS1] unchanged. *)
Definition plain_char (c : ascii) : bool :=
  negb (JS.is_space c) && negb (Ascii.eqb c JS.GS).

(** No application identifier at any position of the text. *)
Definition no_ai (code : string) : Prop :=
  forall pos, ai_lookup (JS.substring pos 2 code) = None
              /\ ai_lookup (JS.substring pos 3 code) = None.

(** The identifier fields are set together: all when [valid], none
    otherwise. *)
Definition wf_ident (r : ParsedCode) : Prop :=
  if valid r then gtin14 r <> "" /\ gtin13 r <> ""
  else gtin14 r = "" /\ gtin13 r = "".

(** A quantity from 1 on: a double from 1 on, or [+Infinity]. *)
Definition qty_ok (q : jsnum) : Prop :=
  (exists z, q = Fin z /\ 1 <= z) \/ q = Inf false.

(** An expiry field comes from [parseExpiryDate] on six digits. *)
Definition expiry_origin (env : Env) (r : ParsedCode) : Prop :=
  forall i, expiry r = Some i ->
    exists e p,
      JS.all_chars JS.is_digit e = true /\ String.length e = 6%nat
      /\ parseExpiryDate env e = Ok p /\ i = iso p.

Definition good (env : Env) (r : ParsedCode) : Prop :=
  wf_ident r
  /\ qty_ok (qty r)
  /\ expiryStatus r = calculateExpiryStatus env (expiry r)
  /\ expiry_origin env r.

(** The digit run of the counterexample to C9: a one and 309 zeros. *)
Definition huge_quantity : string := "1" ++ JS.str_repeat "0" 309.

(** The zone keeps a local midnight on its civil day: taking it to UTC
    and back to local time does not leave the day. *)
Definition tz_ok (env : Env) : Prop :=
  forall day : Z,
    LocalTime env (UTC env (day * msPerDay)) / msPerDay = day.

(** [check] holds on the [n] integers from [d] on. *)
Fixpoint check_from (check : Z -> bool) (n : nat) (d : Z) : bool :=
  match n with
  | O => true
  | S n' => check d && check_from check n' (d + 1)
  end.

(** The civil date of a day number is a date of the calendar in the
    years 1999 to 2107, and has that day number. *)
Definition civil_roundtrip (d : Z) : bool :=
  let '(y, m, dd) := civil_from_days d in
  (1999 <=? y) && (y <=? 2107) && (1 <=? m) && (m <=? 12)
  && (1 <=? dd) && (dd <=? days_in_month y m)
  && (days_from_civil y m dd =? d).

(** A number prints, zero-padded, as [width] digits that read back as
    the number. *)
Definition digits_print (width : nat) (n : Z) : bool :=
  let s := JS.padStart width "0" (String_of_int n) in
  (String.length s =? width)%nat && JS.all_chars JS.is_digit s
  && (digits_value 10 s 0 =? n).

(** [parseGS1] with its short-code block (the test [/^\d{5,7}$/] and
    what it guards) deleted. *)
Definition parseGS1_without_short_code (env : Env) (raw : jsval)
    : Outcome ParsedCode :=
  let result := default_result raw in
  match raw with
  | VStr s =>
      if negb (JS.nonempty s) then Ok result
      else
        let code := JS.gs_to_pipe (JS.trim s) in
        if JS.digits_between 5 21 code && negb (JS.includes "(" code) then
          let result1 :=
            set_gtin (JS.padStart 14 "0" code)
              (if (String.length code <=? 13)%nat then code
               else JS.substring 0 13 code) result in
          if JS.startsWith "01" code && (16 <=? String.length code)%nat then
            let* code1 := convertToParenthesized code in
            let* code2 := with_parentheses code1 in
            extract env code2 result1
          else Ok result1
        else
          let* code1 := with_parentheses code in
          extract env code1 result
  | _ => Ok result
  end.

(** ** The keys of the exact table *)

(** The keys under which the callback of [buildMasterIndex] files the
    name of an entry in [exact]: its digits, the identifier as stored,
    the GTIN-14, GTIN-13 and GTIN-12 forms when the digits number 8, 12,
    13 or 14, and the digits without leading zeros when that differs and
    is not empty. An identifier without a digit files under no key. *)
Definition exact_keys (barcode : string) : list string :=
  let digits := JS.digits_only barcode in
  if negb (JS.nonempty digits) then []
  else
    ([digits; barcode]
     ++ (if gtin_length (String.length digits) then
           [JS.padStart 14 "0" digits;
            drop_zero (JS.padStart 14 "0" digits);
            drop_zero (drop_zero (JS.padStart 14 "0" digits))]
         else [])
     ++ (if JS.nonempty (JS.strip_zeros digits)
            && negb (String.eqb (JS.strip_zeros digits) digits)
         then [JS.strip_zeros digits]
         else []))%list.

(** The name of the last entry of the catalog that files under [k]. *)
Definition last_writer (masterData : list (string * string)) (k : string)
    : option string :=
  fold_left
    (fun o (kv : string * string) =>
       if decide (k ∈ exact_keys (fst kv)) then Some (snd kv) else o)
    masterData None.

(** The keys [matchProduct] looks up in [exact] for a pair of digit
    strings. *)
Definition lookup_key (digits14 digits13 k : string) : Prop :=
  (k = digits14 /\ k <> "")
  \/ (k = digits13 /\ k <> "")
  \/ k = JS.strip_zeros digits14
  \/ exists pad : nat, k = JS.padStart pad "0" digits14.

(** The catalog identifier [barcode] has at least eight digits and its
    last eight are the last eight of [digits14]. *)
Definition same_last8 (barcode digits14 : string) : Prop :=
  (8 <= String.length (JS.digits_only barcode))%nat
  /\ JS.slice_last 8 (JS.digits_only barcode) = JS.slice_last 8 digits14.

(** ** What [parseGS1] keeps out of the text fields *)

(** Neither white space at its ends nor one of the characters ['('],
    ['|'], GS anywhere. *)
Definition clean_field (f : string) : Prop :=
  JS.all_chars field_char f = true /\ JS.trim f = f.

(** ** Catalog files: [parseCSVLine], [parseMasterFile],
    [saveMasterData], and the rows of [exportCSV] *)

Module JStr.

(** The double quote, the single quote, and the control characters of a
    text file. *)
Definition DQ : ascii := ascii_of_nat 34.
Definition SQ : ascii := ascii_of_nat 39.
Definition TAB : ascii := ascii_of_nat 9.
Definition LF : ascii := ascii_of_nat 10.
Definition CR : ascii := ascii_of_nat 13.

(** [s + c] *)
Definition snoc (s : string) (c : ascii) : string := s ++ String c "".

(** [s.includes(needle)] *)
Fixpoint includes_str (needle s : string) : bool :=
  JS.startsWith needle s
  || match s with
     | EmptyString => false
     | String _ s' => includes_str needle s'
     end.

(** [s.split(c)] for a separator of one character; [current] is the
    piece being read. *)
Fixpoint split_go (c : ascii) (s current : string) : list string :=
  match s with
  | EmptyString => [current]
  | String a s' =>
      if Ascii.eqb a c then current :: split_go c s' ""
      else split_go c s' (snoc current a)
  end.

Definition split (c : ascii) (s : string) : list string := split_go c s "".

(** [s.split(/\r?\n/)] *)
Fixpoint split_lines_go (s current : string) : list string :=
  match s with
  | EmptyString => [current]
  | String a s' =>
      if Ascii.eqb a LF then current :: split_lines_go s' ""
      else if Ascii.eqb a CR then
        match s' with
        | String b s'' =>
            if Ascii.eqb b LF then current :: split_lines_go s'' ""
            else split_lines_go s' (snoc current a)
        | EmptyString => split_lines_go s' (snoc current a)
        end
      else split_lines_go s' (snoc current a)
  end.

Definition split_lines (s : string) : list string := split_lines_go s "".

(** [l.join(sep)] *)
Fixpoint join (sep : string) (l : list string) : string :=
  match l with
  | [] => ""
  | [x] => x
  | x :: l' => x ++ sep ++ join sep l'
  end.

(** [s.toLowerCase()] on code units below 256: the letters A to Z and
    the capital letters of Latin-1 (all of U+00C0 to U+00DE but the
    multiplication sign) move up by 32. There the method maps each
    character by itself; beyond Latin-1 it depends on the context (a
    capital sigma at the end of a word), which the model does not
    reach. It serves the header row of a catalog file only. *)
Definition to_lower_char (c : ascii) : ascii :=
  let n := nat_of_ascii c in
  if ((65 <=? n) && (n <=? 90))%nat
     || ((192 <=? n) && (n <=? 222) && negb (n =? 215))%nat
  then ascii_of_nat (n + 32)
  else c.

Definition toLowerCase (s : string) : string := JS.str_map to_lower_char s.

(** [s.replace(/Q/g, '')], where Q is the double quote. *)
Definition delete_quotes (s : string) : string :=
  JS.str_filter (fun c => negb (Ascii.eqb c DQ)) s.

(** [s.replace(/[SQ]/g, '')], where S and Q are the single and the
    double quote. *)
Definition delete_both_quotes (s : string) : string :=
  JS.str_filter (fun c => negb (Ascii.eqb c SQ || Ascii.eqb c DQ)) s.

(** [s.replace(/^Q|Q$/g, '')]: a double quote at the start goes, and so
    does one at the end unless it is that same character. *)
Definition strip_edge_quotes (s : string) : string :=
  let s1 :=
    match s with
    | String c t => if Ascii.eqb c DQ then t else s
    | EmptyString => s
    end in
  match JS.str_rev s1 with
  | String c t => if Ascii.eqb c DQ then JS.str_rev t else s1
  | EmptyString => s1
  end.

(** The doubling of quotes of [exportCSV]: [s.replace(/Q/g, 'QQ')]. *)
Fixpoint double_quotes (s : string) : string :=
  match s with
  | EmptyString => EmptyString
  | String c s' =>
      if Ascii.eqb c DQ then String DQ (String DQ (double_quotes s'))
      else String c (double_quotes s')
  end.

(** [l.findIndex(p)]; [None] is -1. *)
Fixpoint findIndex {A : Type} (p : A -> bool) (l : list A) : option nat :=
  match l with
  | [] => None
  | x :: l' =>
      if p x then Some O
      else match findIndex p l' with
           | Some i => Some (S i)
           | None => None
           end
  end.

End JStr.

(** What a field of [parseCSVLine] is made of the characters read:
    [current.trim().replace(/^Q|Q$/g, '')]. *)
Definition csv_field (current : string) : string :=
  JStr.strip_edge_quotes (JS.trim current).

(** The loop of [parseCSVLine] over the rest of the line. *)
Fixpoint csv_loop (delimiter : ascii) (line current : string)
    (inQuotes : bool) : list string :=
  match line with
  | EmptyString => [csv_field current]
  | String char rest =>
      if Ascii.eqb char JStr.DQ then
        csv_loop delimiter rest current (negb inQuotes)
      else if Ascii.eqb char delimiter && negb inQuotes then
        csv_field current :: csv_loop delimiter rest "" inQuotes
      else csv_loop delimiter rest (JStr.snoc current char) inQuotes
  end.

(** [parseCSVLine(line, delimiter)], for a delimiter of one character as
    [parseMasterFile] passes it. *)
Definition parseCSVLine (line : string) (delimiter : ascii) : list string :=
  csv_loop delimiter line "" false.

(** A call that may [throw new Error(message)]. *)
Inductive Completion (A : Type) : Type :=
  | Returns (a : A)
  | Throws (message : string).
Arguments Returns {A} a.
Arguments Throws {A} message.

Module Product.

(** An element of the list [parseMasterFile] returns: [{ gtin, name }]. *)
Record t : Type := mk { gtin : string; name : string }.

End Product.

Definition barcode_words : list string :=
  ["barcode"; "gtin"; "ean"; "upc"; "code"; "sku"; "item"].

Definition name_words : list string :=
  ["name"; "product"; "description"; "item"; "title"; "desc"].

(** [h.trim().toLowerCase().replace(/[SQ]/g, '')] *)
Definition header_of (h : string) : string :=
  JStr.delete_both_quotes (JStr.toLowerCase (JS.trim h)).

(** [words.some(p => h.includes(p))] *)
Definition header_has (words : list string) (h : string) : bool :=
  existsb (fun p => JStr.includes_str p h) words.

Definition detect_delimiter (firstLine : string) : ascii :=
  if JS.includes JStr.TAB firstLine then JStr.TAB
  else if JS.includes ";" firstLine then ";"%char
  else ","%char.

(** The body of the loop over the rows: the product of a row, if the
    row gives one. *)
Definition product_of_row (delimiter : ascii) (barcodeCol nameCol : nat)
    (line : string) : option Product.t :=
  let cols := parseCSVLine line delimiter in
  if (length cols <=? Nat.max barcodeCol nameCol)%nat then None
  else
    let barcode := JS.digits_only (nth barcodeCol cols "") in
    let name := JS.trim (nth nameCol cols "") in
    if (8 <=? String.length barcode)%nat && JS.nonempty name
    then Some (Product.mk barcode name)
    else None.

(** [parseMasterFile(content, filename)]; the file name is not used. *)
Definition parseMasterFile (content filename : string)
    : Completion (list Product.t) :=
  let lines :=
    List.filter (fun l => JS.nonempty (JS.trim l))
      (JStr.split_lines content) in
  match lines with
  | [] => Throws "File is empty"
  | firstLine :: rows =>
      let delimiter := detect_delimiter firstLine in
      let headers := map header_of (JStr.split delimiter firstLine) in
      let barcodeCol := JStr.findIndex (header_has barcode_words) headers in
      let nameCol := JStr.findIndex (header_has name_words) headers in
      match barcodeCol, nameCol with
      | None, _ =>
          Throws "No barcode column found. Expected: Barcode, GTIN, EAN, UPC, or Code"
      | Some _, None =>
          Throws "No product name column found. Expected: Name, Product, or Description"
      | Some b, Some n =>
          match omap (product_of_row delimiter b n) rows with
          | [] => Throws "No valid products found in file"
          | products => Returns products
          end
      end
  end.

(** What [saveMasterData(products, append)] makes of [State.masterData]
    before it rebuilds the index. *)
Definition saveMasterData (products : list Product.t) (append : bool)
    (masterData : list (string * string)) : list (string * string) :=
  fold_left
    (fun m p => masterData_set (Product.gtin p) (Product.name p) m)
    products
    (if append then masterData else []).

(** A cell and a row of [exportCSV], for cells that are strings: the
    cell with its double quotes doubled, between two double quotes; the
    cells of a row joined by commas. *)
Definition csv_cell (cell : string) : string :=
  String JStr.DQ (JStr.double_quotes cell ++ String JStr.DQ "").

Definition csv_row (cells : list string) : string :=
  JStr.join "," (map csv_cell cells).

(** ** Drug codes: [extractNDCFromGTIN], [formatNDC] *)

(** [extractNDCFromGTIN(gtin14)] on a string; [None] is [null]. *)
Definition extractNDCFromGTIN (gtin14 : string) : option string :=
  if negb (JS.nonempty gtin14) || (String.length gtin14 <? 14)%nat then None
  else Some (JS.substring 2 11 gtin14).

(** [formatNDC(ndc11)] on a string. *)
Definition formatNDC (ndc11 : string) : string :=
  if negb (JS.nonempty ndc11) || (String.length ndc11 <? 10)%nat then ndc11
  else if (String.length ndc11 =? 11)%nat then
    JS.substring 0 5 ndc11 ++ "-" ++ JS.substring 5 4 ndc11 ++ "-"
      ++ JS.substring 9 2 ndc11
  else if (String.length ndc11 =? 10)%nat then
    JS.substring 0 5 ndc11 ++ "-" ++ JS.substring 5 3 ndc11 ++ "-"
      ++ JS.substring 8 2 ndc11
  else ndc11.

(** A text without its dashes. *)
Definition without_dashes (s : string) : string :=
  JS.str_filter (fun c => negb (Ascii.eqb c "-")) s.

(** ** The PIN lock: [isPinRequired], [requestPinThen], [closePinModal],
    [handlePinKey], [verifyPin], [handleHiddenInputChange] *)

(** [CONFIG.PIN], [CONFIG.PIN_TIMEOUT_MINUTES] *)
Definition PIN : string := "9633".
Definition PIN_TIMEOUT_MINUTES : Z := 5.

(** The three fields of [State] that the lock uses. A callback is a
    value of [A]; [None] is [null]. *)
Record PinState (A : Type) : Type := mkPinState {
  pinInput : string;
  lastPinTime : Z;
  pinCallback : option A
}.
Arguments mkPinState {A} _ _ _.
Arguments pinInput {A} _.
Arguments lastPinTime {A} _.
Arguments pinCallback {A} _.

(** [isPinRequired()], with [now] the reading of [Date.now()]. The
    elapsed time is [(now - lastPinTime) / 1000 / 60] in doubles; the two
    divisions are monotone and exact at 300000, so the quotient is at
    least 5 exactly when the difference is at least 300000. *)
Definition isPinRequired {A : Type} (now : Z) (st : PinState A) : bool :=
  PIN_TIMEOUT_MINUTES * 60 * 1000 <=? now - lastPinTime st.

(** The callbacks a call runs, in order. *)
Definition run_callback {A : Type} (callback : option A) : list A :=
  match callback with
  | Some cb => [cb]
  | None => []
  end.

(** [requestPinThen(callback)] *)
Definition requestPinThen {A : Type} (now : Z) (callback : option A)
    (st : PinState A) : PinState A * list A :=
  if negb (isPinRequired now st) then (st, run_callback callback)
  else (mkPinState "" (lastPinTime st) callback, []).

(** [closePinModal()] *)
Definition closePinModal {A : Type} (st : PinState A) : PinState A :=
  mkPinState "" (lastPinTime st) None.

(** [verifyPin()] *)
Definition verifyPin {A : Type} (now : Z) (st : PinState A)
    : PinState A * list A :=
  if (String.length (pinInput st) =? 0)%nat then (st, [])
  else if String.eqb (pinInput st) PIN then
    (closePinModal (mkPinState (pinInput st) now (pinCallback st)),
     run_callback (pinCallback st))
  else (mkPinState "" (lastPinTime st) (pinCallback st), []).

(** [handlePinKey(key)]. The timer it sets when the fourth character is
    in calls [verifyPin] later: that call is an event of its own. *)
Definition handlePinKey {A : Type} (now : Z) (key : string)
    (st : PinState A) : PinState A * list A :=
  if String.eqb key "cancel" then (closePinModal st, [])
  else if String.eqb key "delete" then
    (mkPinState
       (JS.str_take (String.length (pinInput st) - 1) (pinInput st))
       (lastPinTime st) (pinCallback st), [])
  else if String.eqb key "enter" then verifyPin now st
  else if (String.length (pinInput st) <? 4)%nat then
    (mkPinState (pinInput st ++ key) (lastPinTime st) (pinCallback st), [])
  else (st, []).

(** [handleHiddenInputChange(value)] *)
Definition handleHiddenInputChange {A : Type} (value : string)
    (st : PinState A) : PinState A :=
  mkPinState (JS.str_take 4 (JS.digits_only value)) (lastPinTime st)
    (pinCallback st).

(** What happens to the lock: the calls of its functions, each with the
    reading of the clock it would take. [Timer] is the call of
    [verifyPin] that a timer of [handlePinKey] or
    [handleHiddenInputChange] makes. *)
Inductive PinEvent (A : Type) : Type :=
  | Request (now : Z) (callback : option A)
  | Key (now : Z) (key : string)
  | Timer (now : Z)
  | HiddenInput (value : string)
  | Close.
Arguments Request {A} now callback.
Arguments Key {A} now key.
Arguments Timer {A} now.
Arguments HiddenInput {A} value.
Arguments Close {A}.

Definition pin_step {A : Type} (st : PinState A) (ev : PinEvent A)
    : PinState A * list A :=
  match ev with
  | Request now callback => requestPinThen now callback st
  | Key now key => handlePinKey now key st
  | Timer now => verifyPin now st
  | HiddenInput value => (handleHiddenInputChange value st, [])
  | Close => (closePinModal st, [])
  end.

(** The reading of the clock of an event that takes one. *)
Definition event_time {A : Type} (ev : PinEvent A) : Z :=
  match ev with
  | Request now _ | Key now _ | Timer now => now
  | HiddenInput _ | Close => 0
  end.

(** The callbacks a sequence of events runs, each with the reading of
    the clock at its event. *)
Fixpoint pin_run {A : Type} (st : PinState A) (evs : list (PinEvent A))
    : list (A * Z) :=
  match evs with
  | [] => []
  | ev :: evs' =>
      let '(st', ran) := pin_step st ev in
      (map (fun cb => (cb, event_time ev)) ran ++ pin_run st' evs')%list
  end.

(** The event is a call of [verifyPin] that finds the PIN in
    [pinInput]. *)
Definition pin_accepts {A : Type} (st : PinState A) (ev : PinEvent A)
    : bool :=
  match ev with
  | Timer _ => String.eqb (pinInput st) PIN
  | Key _ key => String.eqb key "enter" && String.eqb (pinInput st) PIN
  | _ => false
  end.

(** The readings of the clock at which [verifyPin] found the PIN in
    [pinInput]. *)
Fixpoint pin_accepted {A : Type} (st : PinState A) (evs : list (PinEvent A))
    : list Z :=
  match evs with
  | [] => []
  | ev :: evs' =>
      ((if pin_accepts st ev then [event_time ev] else [])
       ++ pin_accepted (fst (pin_step st ev)) evs')%list
  end.

(** No [requestPinThen] among the events. *)
Definition no_request {A : Type} (evs : list (PinEvent A)) : Prop :=
  forall now callback, ~ In (Request now callback) evs.

(** ** The shape of a decoded identifier *)

(** Digits only, between [lo] and [hi] of them. *)
Definition digits_of_length (lo hi : nat) (s : string) : Prop :=
  JS.all_chars JS.is_digit s = true /\ (lo <= String.length s <= hi)%nat.

Definition ident_shape (r : ParsedCode) : Prop :=
  valid r = true ->
  digits_of_length 14 21 (gtin14 r) /\ digits_of_length 5 14 (gtin13 r).

(** ** Scans without parentheses *)

(** No application identifier begins at any position of the text. *)
Fixpoint no_ai_inside (s : string) : bool :=
  match s with
  | EmptyString => true
  | String _ s' =>
      negb (ai_known (JS.substring 0 2 s) || ai_known (JS.substring 0 3 s))
      && no_ai_inside s'
  end.

(** A text that the inner loop of [convertToParenthesized] reads to its
    end as one value, and that the batch pattern of [parseGS1] captures
    whole: no parenthesis and no separator in it, and no application
    identifier beginning after its first character. *)
Definition plain_value (b : string) : bool :=
  JS.all_chars field_char b
  && match b with
     | EmptyString => true
     | String _ b' => no_ai_inside b'
     end.

(** ** The matcher without its padding loop, the decoder on another
    spelling of the same text *)

(** [matchProduct] on digit strings with step 5, the padding loop,
    deleted. *)
Definition match_digits_without_padding (idx : MasterIndex)
    (digits14 digits13 : string) : MatchResult :=
  match exact_nonempty idx digits14 with
  | Some nm => {| name := nm; type := EXACT |}
  | None =>
  match exact_nonempty idx digits13 with
  | Some nm => {| name := nm; type := EXACT |}
  | None =>
  match exact idx !! JS.padStart 14 "0" digits14 with
  | Some nm => {| name := nm; type := EXACT |}
  | None =>
  match exact_nonempty idx (JS.strip_zeros digits14) with
  | Some nm => {| name := nm; type := EXACT |}
  | None =>
  match last8_step idx digits14 with
  | Some r => r
  | None => {| name := ""; type := NONE |}
  end end end end end.

(** The outcome of a call, with [f] applied to what it returns. *)
Definition map_outcome {A B : Type} (f : A -> B) (m : Outcome A)
    : Outcome B :=
  match m with
  | Ok a => Ok (f a)
  | Throw e => Throw e
  | Timeout => Timeout
  end.

(** The record [r] with another [raw] field. *)
Definition with_raw (v : jsval) (r : ParsedCode) : ParsedCode :=
  {| valid := valid r; raw := v; gtin14 := gtin14 r; gtin13 := gtin13 r;
     expiry := expiry r; expiryDDMMYY := expiryDDMMYY r;
     expiryFormatted := expiryFormatted r; expiryStatus := expiryStatus r;
     batch := batch r; serial := serial r; qty := qty r; rms := rms r |}.

(** * Properties of the matcher *)

Section Matcher.

Variable idx : MasterIndex.

Lemma arg_digits_ok (v : jsval) :
  string_or_falsy v -> exists d, arg_digits v = Ok d.
Proof.
  intros [[s ->] | Hf]; unfold arg_digits.
  - destruct (truthy (VStr s)); eauto.
  - rewrite Hf. eauto.
Qed.

Lemma matchProduct_digits (g14 g13 : jsval) (d14 d13 : string) :
  arg_digits g14 = Ok d14 -> arg_digits g13 = Ok d13 ->
  matchProduct idx g14 g13 = Ok (match_digits idx d14 d13).
Proof. intros H14 H13. unfold matchProduct. rewrite H14, H13. reflexivity. Qed.

Lemma last8_step_type (d14 : string) (r : MatchResult) :
  last8_step idx d14 = Some r -> type r = LAST8 \/ type r = AMBIG.
Proof.
  unfold last8_step.
  destruct (8 <=? String.length d14)%nat; [|discriminate].
  destruct (last8 idx !! JS.slice_last 8 d14) as [[|m [|m' ms]]|];
    intros [= <-]; cbn; auto.
Qed.

Lemma pad_loop_type (d14 : string) (n pad : nat) (r : MatchResult) :
  pad_loop idx d14 n pad = Some r -> type r = EXACT.
Proof.
  revert pad. induction n as [|n IH]; intros pad; cbn; [discriminate|].
  destruct (exact idx !! JS.padStart pad "0" d14).
  - now intros [= <-].
  - apply IH.
Qed.

Lemma pad_step_type (d14 : string) (r : MatchResult) :
  pad_step idx d14 = Some r -> type r = EXACT.
Proof.
  unfold pad_step.
  destruct ((5 <=? String.length d14)%nat && (String.length d14 <=? 11)%nat);
    [apply pad_loop_type | discriminate].
Qed.

End Matcher.

(** * Properties of the index *)

Lemma bucket_extend_app (o : option (list Entry.t)) (l1 l2 : list Entry.t) :
  bucket_extend (bucket_extend o l1) l2 = bucket_extend o (l1 ++ l2)%list.
Proof.
  destruct l1 as [|a l1]; [reflexivity|].
  destruct l2 as [|b l2]; cbn.
  - now rewrite app_nil_r.
  - now rewrite <- app_assoc.
Qed.

Lemma last8_key_empty (digits : string) :
  JS.nonempty digits = false -> last8_key digits = None.
Proof. destruct digits; [reflexivity | discriminate]. Qed.

Lemma index_entry_last8 (acc : MasterIndex) (b nm : string) :
  last8 (index_entry acc (b, nm)) =
  match last8_key (JS.digits_only b) with
  | Some key => last8_push key (Entry.mk (JS.digits_only b) nm) (last8 acc)
  | None => last8 acc
  end.
Proof.
  unfold index_entry.
  destruct (JS.nonempty (JS.digits_only b)) eqn:Hne; cbn [negb].
  - unfold last8_key.
    destruct (gtin_length (String.length (JS.digits_only b))); [reflexivity|].
    destruct (8 <=? String.length (JS.digits_only b))%nat; reflexivity.
  - now rewrite last8_key_empty.
Qed.

Lemma last8_push_lookup (key k : string) (e : Entry.t)
    (m : gmap string (list Entry.t)) :
  last8_push key e m !! k =
  if decide (key = k) then Some (default [] (m !! k) ++ [e])%list else m !! k.
Proof.
  unfold last8_push. destruct (decide (key = k)) as [->|Hne].
  - apply lookup_insert_eq.
  - now apply lookup_insert_ne.
Qed.

Lemma index_entry_bucket (acc : MasterIndex) (kv : string * string)
    (k : string) :
  last8 (index_entry acc kv) !! k
  = bucket_extend (last8 acc !! k) (bucket_of [kv] k).
Proof.
  destruct kv as [b nm]. rewrite index_entry_last8.
  unfold bucket_of; cbn [omap list_omap fst snd].
  destruct (last8_key (JS.digits_only b)) as [key|] eqn:Hk.
  - rewrite last8_push_lookup.
    destruct (decide (key = k)) as [->|Hne].
    + rewrite decide_True by reflexivity. reflexivity.
    + rewrite decide_False by congruence. reflexivity.
  - rewrite decide_False by discriminate. reflexivity.
Qed.

Lemma bucket_of_cons (kv : string * string) (md : list (string * string))
    (k : string) :
  bucket_of (kv :: md) k = (bucket_of [kv] k ++ bucket_of md k)%list.
Proof.
  unfold bucket_of; cbn [omap list_omap].
  destruct (decide (last8_key (JS.digits_only (fst kv)) = Some k));
    reflexivity.
Qed.

Lemma bucket_of_app (md1 md2 : list (string * string)) (k : string) :
  bucket_of (md1 ++ md2) k = (bucket_of md1 k ++ bucket_of md2 k)%list.
Proof.
  induction md1 as [|kv md1 IH]; [reflexivity|].
  rewrite <- app_comm_cons.
  rewrite (bucket_of_cons kv (md1 ++ md2)), (bucket_of_cons kv md1), IH.
  now rewrite app_assoc.
Qed.

Lemma fold_index_bucket (md : list (string * string)) (acc : MasterIndex)
    (k : string) :
  last8 (fold_left index_entry md acc) !! k
  = bucket_extend (last8 acc !! k) (bucket_of md k).
Proof.
  revert acc. induction md as [|kv md IH]; intros acc; [reflexivity|].
  cbn [fold_left]. rewrite IH, index_entry_bucket, bucket_extend_app.
  now rewrite <- bucket_of_cons.
Qed.

(** The bucket of a key in the built index lists, in catalog order, the
    catalog entries that carry the key; a key no entry carries has no
    bucket. *)
Lemma buildMasterIndex_bucket (md : list (string * string)) (k : string) :
  last8 (buildMasterIndex md) !! k = bucket_extend None (bucket_of md k).
Proof.
  unfold buildMasterIndex. rewrite fold_index_bucket.
  unfold empty_index; cbn [last8]. now rewrite lookup_empty.
Qed.

Lemma bucket_of_none (md : list (string * string)) (k : string) :
  (forall kv, In kv md -> last8_key (JS.digits_only (fst kv)) <> Some k) ->
  bucket_of md k = [].
Proof.
  induction md as [|kv md IH]; intros H; [reflexivity|].
  rewrite bucket_of_cons, IH by (intros; apply H; now right).
  unfold bucket_of; cbn [omap list_omap].
  rewrite decide_False by (apply H; now left). reflexivity.
Qed.

(** * The claims about the matcher *)

(** C2: for a queried [gtin14] whose digits number at least 8 and miss
    every exact lookup, the bucket of its last 8 digits decides: no
    bucket or an empty one falls through to the later steps, a bucket of
    one entry gives [LAST8] with that entry's name, a longer bucket gives
    [AMBIG] with the name of its first entry; and in an index built from
    a catalog the first entry of the bucket is the first catalog entry,
    in insertion order, that carries the key. *)
Theorem last8_bucket_rule
    (idx : MasterIndex) (gtin14 gtin13 : jsval) (d14 d13 : string)
    (H14 : arg_digits gtin14 = Ok d14) (H13 : arg_digits gtin13 = Ok d13)
    (Hlen : (8 <= String.length d14)%nat)
    (Hmiss : exact_nonempty idx d14 = None
             /\ exact_nonempty idx d13 = None
             /\ exact idx !! JS.padStart 14 "0" d14 = None
             /\ exact_nonempty idx (JS.strip_zeros d14) = None) :
  match last8 idx !! JS.slice_last 8 d14 with
  | None | Some [] =>
      matchProduct idx gtin14 gtin13 = Ok (fall_through idx d14)
  | Some [m] =>
      matchProduct idx gtin14 gtin13
      = Ok {| name := Entry.name m; type := LAST8 |}
  | Some (m :: _ :: _) =>
      matchProduct idx gtin14 gtin13
      = Ok {| name := Entry.name m; type := AMBIG |}
  end
  /\ (forall md pre b nm post,
        idx = buildMasterIndex md ->
        md = (pre ++ (b, nm) :: post)%list ->
        (forall kv, In kv pre ->
           last8_key (JS.digits_only (fst kv)) <> Some (JS.slice_last 8 d14)) ->
        last8_key (JS.digits_only b) = Some (JS.slice_last 8 d14) ->
        last8 idx !! JS.slice_last 8 d14
        = Some (Entry.mk (JS.digits_only b) nm
                  :: bucket_of post (JS.slice_last 8 d14))
        /\ matchProduct idx gtin14 gtin13
           = Ok {| name := nm;
                   type := match bucket_of post (JS.slice_last 8 d14) with
                           | [] => LAST8
                           | _ :: _ => AMBIG
                           end |}).
Proof.
  destruct Hmiss as (M1 & M2 & M3 & M4).
  assert (Hm : match_digits idx d14 d13 =
               match last8_step idx d14 with
               | Some r => r
               | None => fall_through idx d14
               end).
  { unfold match_digits, fall_through. now rewrite M1, M2, M3, M4. }
  assert (Hs : last8_step idx d14 =
               match last8 idx !! JS.slice_last 8 d14 with
               | Some [m] => Some {| name := Entry.name m; type := LAST8 |}
               | Some (m :: _ :: _) =>
                   Some {| name := Entry.name m; type := AMBIG |}
               | _ => None
               end).
  { unfold last8_step.
    destruct (Nat.leb_spec 8 (String.length d14)) as [_|Hlt]; [|lia].
    destruct (last8 idx !! JS.slice_last 8 d14) as [[|m [|m' ms]]|];
      reflexivity. }
  rewrite (matchProduct_digits idx _ _ _ _ H14 H13), Hm, Hs.
  split.
  - destruct (last8 idx !! JS.slice_last 8 d14) as [[|m [|m' ms]]|];
      reflexivity.
  - intros md pre b nm post -> -> Hpre Hb.
    assert (Hk : last8 (buildMasterIndex (pre ++ (b, nm) :: post))
                   !! JS.slice_last 8 d14
                 = Some (Entry.mk (JS.digits_only b) nm
                           :: bucket_of post (JS.slice_last 8 d14))).
    { rewrite buildMasterIndex_bucket, bucket_of_app.
      rewrite (bucket_of_cons (b, nm) post).
      rewrite (bucket_of_none pre) by exact Hpre.
      unfold bucket_of at 1; cbn [omap list_omap fst snd].
      rewrite decide_True by exact Hb. reflexivity. }
    rewrite Hk. split; [reflexivity|].
    destruct (bucket_of post (JS.slice_last 8 d14)); reflexivity.
Qed.

Lemma last8_bucket_rule_witness :
  matchProduct
    (buildMasterIndex [("11111112345678", "A"); ("22222212345678", "B")])
    (VStr "33333312345678") (VStr "3333312345678")
  = Ok {| name := "A"; type := AMBIG |}.
Proof.
  refine (proj2
    (proj2
       (last8_bucket_rule
          (buildMasterIndex [("11111112345678", "A"); ("22222212345678", "B")])
          (VStr "33333312345678") (VStr "3333312345678")
          "33333312345678" "3333312345678" eq_refl eq_refl _ _)
       [("11111112345678", "A"); ("22222212345678", "B")]
       [] "11111112345678" "A" [("22222212345678", "B")]
       eq_refl eq_refl _ _)).
  - vm_compute. lia.
  - vm_compute. repeat split; reflexivity.
  - intros kv [].
  - vm_compute. reflexivity.
Defined.

(** * Lemmas on strings *)

Section Strings.

Lemma is_digit_cases (c : ascii) :
  JS.is_digit c = true ->
  In c ["0"; "1"; "2"; "3"; "4"; "5"; "6"; "7"; "8"; "9"]%char.
Proof.
  destruct c as [[|] [|] [|] [|] [|] [|] [|] [|]]; cbn;
    intros H; try discriminate H; auto 12.
Qed.

Ltac digit_cases c H :=
  apply is_digit_cases in H;
  cbn [In] in H;
  repeat (destruct H as [H|H]; [subst c|]); [..|destruct H].

Lemma digit_not_space (c : ascii) :
  JS.is_digit c = true -> JS.is_space c = false.
Proof. intros H. digit_cases c H; reflexivity. Qed.

Lemma digit_not_GS (c : ascii) :
  JS.is_digit c = true -> Ascii.eqb c JS.GS = false.
Proof. intros H. digit_cases c H; reflexivity. Qed.

Lemma digit_not_paren (c : ascii) :
  JS.is_digit c = true -> Ascii.eqb c "(" = false.
Proof. intros H. digit_cases c H; reflexivity. Qed.

Lemma digit_radix10 (c : ascii) :
  JS.is_digit c = true -> radix_digit 10 c = true.
Proof. intros H. digit_cases c H; reflexivity. Qed.

Lemma app_cons (c : ascii) (s t : string) :
  String c s ++ t = String c (s ++ t).
Proof. reflexivity. Qed.

Lemma app_nil_l (t : string) : "" ++ t = t.
Proof. reflexivity. Qed.

Lemma app_nil_r (s : string) : s ++ "" = s.
Proof. induction s as [|c s IH]; [reflexivity|]. now rewrite app_cons, IH. Qed.

Lemma app_assoc (s t u : string) : (s ++ t) ++ u = s ++ (t ++ u).
Proof.
  induction s as [|c s IH]; [reflexivity|]. now rewrite !app_cons, IH.
Qed.

Lemma all_chars_app (p : ascii -> bool) (s t : string) :
  JS.all_chars p (s ++ t) = JS.all_chars p s && JS.all_chars p t.
Proof.
  induction s as [|c s IH]; [reflexivity|].
  rewrite app_cons; cbn [JS.all_chars]. now rewrite IH, andb_assoc.
Qed.

Lemma all_chars_impl (p q : ascii -> bool) (s : string) :
  (forall c, p c = true -> q c = true) ->
  JS.all_chars p s = true -> JS.all_chars q s = true.
Proof.
  intros Hpq. induction s as [|c s IH]; cbn; [reflexivity|].
  intros [Hc Hs]%andb_prop. now rewrite (Hpq c Hc), IH.
Qed.

Lemma all_chars_repeat (p : ascii -> bool) (c : ascii) (n : nat) :
  p c = true -> JS.all_chars p (JS.str_repeat c n) = true.
Proof. intros Hc. induction n as [|n IH]; cbn; [reflexivity|]. now rewrite Hc. Qed.

Lemma length_repeat (c : ascii) (n : nat) :
  String.length (JS.str_repeat c n) = n.
Proof. induction n as [|n IH]; cbn; congruence. Qed.

Lemma length_app (s t : string) :
  String.length (s ++ t) = (String.length s + String.length t)%nat.
Proof.
  induction s as [|c s IH]; [reflexivity|].
  rewrite app_cons; cbn [String.length Nat.add]. congruence.
Qed.

Lemma length_padStart (n : nat) (c : ascii) (s : string) :
  String.length (JS.padStart n c s) = Nat.max n (String.length s).
Proof. unfold JS.padStart. rewrite length_app, length_repeat. lia. Qed.

Lemma padStart_id (n : nat) (c : ascii) (s : string) :
  (n <= String.length s)%nat -> JS.padStart n c s = s.
Proof.
  intros H. unfold JS.padStart.
  replace (n - String.length s)%nat with 0%nat by lia. reflexivity.
Qed.

Lemma padStart_digits (n : nat) (s : string) :
  JS.all_chars JS.is_digit s = true ->
  JS.all_chars JS.is_digit (JS.padStart n "0" s) = true.
Proof.
  intros H. unfold JS.padStart.
  now rewrite all_chars_app, all_chars_repeat, H.
Qed.

Lemma nonempty_length (s : string) :
  JS.nonempty s = true <-> (0 < String.length s)%nat.
Proof. destruct s; cbn; split; intros; try discriminate; try lia; auto. Qed.

Lemma nonempty_neq (s : string) : JS.nonempty s = true <-> s <> "".
Proof.
  destruct s; cbn; split; intros H; try discriminate; try congruence;
    try reflexivity.
Qed.

Lemma str_take_all (n : nat) (s : string) :
  (String.length s <= n)%nat -> JS.str_take n s = s.
Proof.
  revert n. induction s as [|c s IH]; intros [|n]; cbn; intros H;
    try reflexivity; try lia.
  now rewrite IH by lia.
Qed.

Lemma length_str_take (n : nat) (s : string) :
  String.length (JS.str_take n s) = Nat.min n (String.length s).
Proof.
  revert n. induction s as [|c s IH]; intros [|n]; cbn; try reflexivity.
  now rewrite IH.
Qed.

Lemma all_chars_str_take (p : ascii -> bool) (n : nat) (s : string) :
  JS.all_chars p s = true -> JS.all_chars p (JS.str_take n s) = true.
Proof.
  revert n. induction s as [|c s IH]; intros [|n]; cbn; try reflexivity.
  intros [Hc Hs]%andb_prop. now rewrite Hc, IH.
Qed.

Lemma length_str_drop (n : nat) (s : string) :
  String.length (JS.str_drop n s) = (String.length s - n)%nat.
Proof.
  revert n. induction s as [|c s IH]; intros [|n]; cbn; try reflexivity.
  now rewrite IH.
Qed.

Lemma take_while_all (p : ascii -> bool) (s : string) :
  JS.all_chars p s = true -> JS.take_while p s = s.
Proof.
  induction s as [|c s IH]; cbn; [reflexivity|].
  intros [Hc Hs]%andb_prop. now rewrite Hc, IH.
Qed.

Lemma take_while_sat (p : ascii -> bool) (s : string) :
  JS.all_chars p (JS.take_while p s) = true.
Proof.
  induction s as [|c s IH]; cbn; [reflexivity|].
  destruct (p c) eqn:Hc; cbn; [now rewrite Hc|reflexivity].
Qed.

Lemma drop_while_none (p : ascii -> bool) (s : string) :
  JS.all_chars (fun c => negb (p c)) s = true -> JS.drop_while p s = s.
Proof.
  destruct s as [|c s]; cbn; [reflexivity|].
  intros [Hc _]%andb_prop. apply negb_true_iff in Hc. now rewrite Hc.
Qed.

Lemma str_rev_onto_app (s acc : string) :
  JS.str_rev_onto s acc = JS.str_rev s ++ acc.
Proof.
  unfold JS.str_rev. revert acc.
  induction s as [|c s IH]; intros acc; cbn [JS.str_rev_onto]; [reflexivity|].
  rewrite IH, (IH (String c "")), app_assoc. reflexivity.
Qed.

Lemma str_rev_cons (c : ascii) (s : string) :
  JS.str_rev (String c s) = JS.str_rev s ++ String c "".
Proof. unfold JS.str_rev at 1; cbn [JS.str_rev_onto]. apply str_rev_onto_app. Qed.

Lemma str_rev_app (s t : string) :
  JS.str_rev (s ++ t) = JS.str_rev t ++ JS.str_rev s.
Proof.
  induction s as [|c s IH].
  - now rewrite app_nil_l, app_nil_r.
  - now rewrite app_cons, !str_rev_cons, IH, app_assoc.
Qed.

Lemma str_rev_involutive (s : string) : JS.str_rev (JS.str_rev s) = s.
Proof.
  induction s as [|c s IH]; [reflexivity|].
  now rewrite str_rev_cons, str_rev_app, IH.
Qed.

Lemma all_chars_rev (p : ascii -> bool) (s : string) :
  JS.all_chars p (JS.str_rev s) = JS.all_chars p s.
Proof.
  induction s as [|c s IH]; [reflexivity|].
  rewrite str_rev_cons, all_chars_app, IH; cbn [JS.all_chars].
  rewrite andb_true_r. apply andb_comm.
Qed.

(** Trimming leaves a text without white space as it is. *)
Lemma trim_no_space (s : string) :
  JS.all_chars (fun c => negb (JS.is_space c)) s = true -> JS.trim s = s.
Proof.
  intros H. unfold JS.trim.
  rewrite (drop_while_none _ s H).
  rewrite drop_while_none by now rewrite all_chars_rev.
  apply str_rev_involutive.
Qed.

Lemma gs_to_pipe_no_gs (s : string) :
  JS.all_chars (fun c => negb (Ascii.eqb c JS.GS)) s = true ->
  JS.gs_to_pipe s = s.
Proof.
  unfold JS.gs_to_pipe.
  induction s as [|c s IH]; cbn [JS.str_map JS.all_chars]; [reflexivity|].
  intros [Hc Hs]%andb_prop. apply negb_true_iff in Hc.
  now rewrite Hc, IH.
Qed.

Lemma normalize_plain (s : string) :
  JS.all_chars plain_char s = true -> JS.gs_to_pipe (JS.trim s) = s.
Proof.
  intros H. rewrite trim_no_space, gs_to_pipe_no_gs; [reflexivity| |].
  - revert H. apply all_chars_impl. intros c [_ H]%andb_prop. exact H.
  - revert H. apply all_chars_impl. intros c [H _]%andb_prop. exact H.
Qed.

Lemma digit_plain (c : ascii) : JS.is_digit c = true -> plain_char c = true.
Proof.
  intros H. unfold plain_char.
  now rewrite (digit_not_space c H), (digit_not_GS c H).
Qed.

Lemma digits_plain (s : string) :
  JS.all_chars JS.is_digit s = true -> JS.all_chars plain_char s = true.
Proof. apply all_chars_impl, digit_plain. Qed.

Lemma includes_none (c : ascii) (s : string) :
  JS.all_chars (fun c' => negb (Ascii.eqb c' c)) s = true ->
  JS.includes c s = false.
Proof.
  induction s as [|c' s IH]; cbn [JS.includes JS.all_chars]; [reflexivity|].
  intros [Hc Hs]%andb_prop. apply negb_true_iff in Hc.
  now rewrite Hc, IH.
Qed.

Lemma digits_no_paren (s : string) :
  JS.all_chars JS.is_digit s = true -> JS.includes "(" s = false.
Proof.
  intros H. apply includes_none. revert H. apply all_chars_impl.
  intros c Hc. now rewrite (digit_not_paren c Hc).
Qed.

End Strings.

(** * Lemmas on the patterns and on [parseInt] *)

Section Patterns.

Variables (prefix : string) (p : ascii -> bool) (lo : nat) (hi : option nat).

Lemma regex_match_unfold (s : string) :
  JS.regex_match prefix p lo hi s =
  match JS.match_here prefix p lo hi s with
  | Some g => Some g
  | None =>
      match s with
      | EmptyString => None
      | String _ s' => JS.regex_match prefix p lo hi s'
      end
  end.
Proof. destruct s; reflexivity. Qed.

Lemma capture_sound (rest g : string) :
  JS.capture p lo hi rest = Some g ->
  JS.all_chars p g = true
  /\ (Nat.min lo (match hi with Some h => h | None => lo end)
      <= String.length g)%nat
  /\ (forall h, hi = Some h -> String.length g <= h)%nat.
Proof.
  unfold JS.capture.
  destruct (Nat.leb_spec lo (String.length (JS.take_while p rest)))
    as [Hlo|]; [|discriminate].
  intros [= <-]. destruct hi as [h|].
  - split; [apply all_chars_str_take, take_while_sat|].
    rewrite length_str_take. split; [lia|]. intros h' [= <-]. lia.
  - split; [apply take_while_sat|]. split; [lia|]. discriminate.
Qed.

Lemma regex_match_sound (s g : string) :
  JS.regex_match prefix p lo hi s = Some g ->
  JS.all_chars p g = true
  /\ (Nat.min lo (match hi with Some h => h | None => lo end)
      <= String.length g)%nat
  /\ (forall h, hi = Some h -> String.length g <= h)%nat.
Proof.
  induction s as [|c s IH]; rewrite regex_match_unfold;
    unfold JS.match_here;
    (destruct (JS.strip_prefix prefix _) as [rest|];
     [destruct (JS.capture p lo hi rest) as [g'|] eqn:Hc|]);
    try discriminate; try (intros [= <-]; eapply capture_sound; eassumption);
    try exact IH.
Qed.

Lemma regex_match_head (s rest g : string) :
  JS.strip_prefix prefix s = Some rest ->
  JS.capture p lo hi rest = Some g ->
  JS.regex_match prefix p lo hi s = Some g.
Proof.
  intros Hs Hc. rewrite regex_match_unfold. unfold JS.match_here.
  now rewrite Hs, Hc.
Qed.

End Patterns.

(** A pattern does not match a text that lacks its first character. *)
Lemma regex_match_absent (p : ascii -> bool) (lo : nat) (hi : option nat)
    (a : ascii) (prefix' s : string) :
  JS.includes a s = false ->
  JS.regex_match (String a prefix') p lo hi s = None.
Proof.
  induction s as [|c s IH]; [reflexivity|].
  cbn [JS.includes]. intros [Hc Hs]%orb_false_elim.
  rewrite regex_match_unfold. unfold JS.match_here.
  cbn [JS.strip_prefix]. rewrite Ascii.eqb_sym, Hc. now apply IH.
Qed.

Section ParseInt.

Lemma digits_value_acc (s : string) (acc : Z) :
  digits_value 10 s acc
  = acc * 10 ^ Z.of_nat (String.length s) + digits_value 10 s 0.
Proof.
  revert acc. induction s as [|c s IH]; intros acc.
  - cbn. lia.
  - cbn [digits_value String.length].
    rewrite IH, (IH (0 * 10 + _)), Nat2Z.inj_succ, Z.pow_succ_r by lia.
    lia.
Qed.

Lemma digit_val_range (c : ascii) :
  JS.is_digit c = true -> exists v, digit_val c = Some v /\ 0 <= v <= 9.
Proof.
  intros H. apply is_digit_cases in H. cbn [In] in H.
  repeat (destruct H as [H|H];
          [subst c; eexists; split; [vm_compute; reflexivity|lia]|]).
  destruct H.
Qed.

Lemma digits_value_range (s : string) :
  JS.all_chars JS.is_digit s = true ->
  0 <= digits_value 10 s 0 < 10 ^ Z.of_nat (String.length s).
Proof.
  induction s as [|c s IH]; [cbn; lia|].
  cbn [JS.all_chars]. intros [Hc Hs]%andb_prop.
  cbn [digits_value String.length].
  destruct (digit_val_range c Hc) as (v & -> & Hv).
  rewrite digits_value_acc, Nat2Z.inj_succ, Z.pow_succ_r by lia.
  specialize (IH Hs). nia.
Qed.

(** On a non-empty string of decimal digits [parseInt] reads the whole
    string. *)
Lemma parseInt_digits (s : string) :
  JS.all_chars JS.is_digit s = true -> JS.nonempty s = true ->
  parseInt s = round_double (digits_value 10 s 0).
Proof.
  intros Hd Hne.
  assert (Htw : JS.take_while (radix_digit 10) s = s).
  { apply take_while_all. revert Hd. apply all_chars_impl, digit_radix10. }
  destruct s as [|c s]; [discriminate|].
  cbn [JS.all_chars] in Hd. apply andb_prop in Hd as [Hc Hs].
  unfold parseInt. cbn [JS.drop_while]. rewrite (digit_not_space c Hc).
  assert (Hsign : forall (A : Type) (x y z : A),
             match String c s with
             | String "-" t => x | String "+" t => y | _ => z
             end = z).
  { intros A x y z. apply is_digit_cases in Hc. cbn [In] in Hc.
    repeat (destruct Hc as [Hc|Hc]; [subst c; reflexivity|]). destruct Hc. }
  assert (Hneg : (let '(neg, s2) :=
                    match String c s with
                    | String "-" t => (true, t)
                    | String "+" t => (false, t)
                    | _ => (false, String c s)
                    end in
                  let '(R, s3) :=
                    match s2 with
                    | String "0" (String "x" t) => (16, t)
                    | String "0" (String "X" t) => (16, t)
                    | _ => (10, s2)
                    end in
                  (neg, R, s3)) = (false, 10, String c s)).
  { apply is_digit_cases in Hc. cbn [In] in Hc.
    repeat (destruct Hc as [Hc|Hc];
            [subst c; try reflexivity|]); [|destruct Hc].
    destruct s as [|c2 s]; [reflexivity|].
    cbn [JS.all_chars] in Hs. apply andb_prop in Hs as [Hc2 _].
    apply is_digit_cases in Hc2. cbn [In] in Hc2.
    repeat (destruct Hc2 as [Hc2|Hc2]; [subst c2; reflexivity|]).
    destruct Hc2. }
  revert Hneg.
  destruct (match String c s with
            | String "-" t => (true, t)
            | String "+" t => (false, t)
            | _ => (false, String c s)
            end) as [neg s2].
  destruct (match s2 with
            | String "0" (String "x" t) => (16, t)
            | String "0" (String "X" t) => (16, t)
            | _ => (10, s2)
            end) as [R s3].
  intros [= -> -> ->]. rewrite Htw. reflexivity.
Qed.

Lemma round_double_small (n : Z) : n < 2 ^ 53 -> round_double n = Fin n.
Proof.
  intros H. unfold round_double.
  destruct (Z.ltb_spec n (2 ^ 53)); [reflexivity|lia].
Qed.

(** From 1 on, the nearest double is a double from 1 on or [+Infinity]. *)
Lemma round_double_ge_1 (n : Z) :
  1 <= n ->
  (exists z, round_double n = Fin z /\ 1 <= z) \/ round_double n = Inf false.
Proof.
  intros Hn. unfold round_double.
  destruct (Z.ltb_spec n (2 ^ 53)) as [|Hbig]; [left; eauto|].
  set (e := Z.log2 n - 52).
  assert (He : 0 <= e).
  { unfold e. assert (53 <= Z.log2 n); [|lia].
    apply Z.log2_le_pow2; lia. }
  assert (Hq : 1 <= n / 2 ^ e).
  { apply Z.div_le_lower_bound; [apply Z.pow_pos_nonneg; lia|].
    rewrite Z.mul_1_r. transitivity (2 ^ Z.log2 n).
    - apply Z.pow_le_mono_r; unfold e; lia.
    - apply Z.log2_spec. lia. }
  assert (Hp : 0 < 2 ^ e) by (apply Z.pow_pos_nonneg; lia).
  match goal with
  | |- context [if ?b then n / 2 ^ e + 1 else n / 2 ^ e] =>
      set (q' := if b then n / 2 ^ e + 1 else n / 2 ^ e)
  end.
  assert (Hq' : 1 <= q') by (unfold q'; destruct (_ || _); lia).
  destruct (Z.ltb_spec (q' * 2 ^ e) (2 ^ 1024)); [left|now right].
  eexists; split; [reflexivity|nia].
Qed.

End ParseInt.

(** * [convertToParenthesized] terminates *)

Section Convert.

Lemma get_some_lt (s : string) (n : nat) (c : ascii) :
  String.get n s = Some c -> (n < String.length s)%nat.
Proof.
  revert n. induction s as [|a s IH]; intros [|n]; cbn; try discriminate.
  - lia.
  - intros H. apply IH in H. lia.
Qed.

Lemma ai_lookup_in (k : string) (l : Z) :
  ai_lookup k = Some l -> In (k, l) aiLengths.
Proof.
  unfold ai_lookup.
  destruct (find _ aiLengths) as [[k' l']|] eqn:Hf; [|discriminate].
  intros [= <-]. apply find_some in Hf as [Hin Heq].
  cbn [fst] in Heq. apply String.eqb_eq in Heq. now subst k'.
Qed.

Lemma ai_lookup_length (k : string) (l : Z) :
  ai_lookup k = Some l -> String.length k = 2%nat.
Proof.
  intros H. apply ai_lookup_in in H. unfold aiLengths in H. cbn [In] in H.
  repeat (destruct H as [H|H]; [injection H as <- <-; reflexivity|]).
  destruct H.
Qed.

Lemma var_loop_some (fuel : nat) (code : string) (pos : nat) (value : string) :
  (String.length code - pos < fuel)%nat ->
  exists pos' v,
    var_loop fuel code pos value = Some (pos', v) /\ (pos <= pos')%nat.
Proof.
  revert pos value. induction fuel as [|fuel IH]; intros pos value Hf.
  - lia.
  - cbn [var_loop]. destruct (String.get pos code) as [char|] eqn:Hg.
    + destruct (is_sep char); [eauto|].
      destruct (_ && _); [eauto|].
      apply get_some_lt in Hg.
      destruct (IH (S pos) (value ++ String char "")) as (pos' & v & E & Hle);
        [lia|].
      exists pos', v. split; [exact E|lia].
    + eauto.
Qed.

Lemma convert_loop_some (fuel : nat) (code : string) (pos : nat)
    (result : string) :
  (String.length code - pos < fuel)%nat ->
  exists r, convert_loop fuel code pos result = Some r.
Proof.
  revert pos result. induction fuel as [|fuel IH]; intros pos result Hf.
  - lia.
  - cbn [convert_loop].
    destruct (Nat.ltb_spec pos (String.length code)) as [Hlt|]; [|eauto].
    destruct (ai_lookup (JS.substring pos 2 code)) as [l|] eqn:E2.
    + pose proof (ai_lookup_length _ _ E2) as Hl. rewrite Hl.
      destruct (0 <? l).
      * apply IH. lia.
      * destruct (var_loop_some (S (String.length code)) code (pos + 2) "")
          as (pos2 & v & -> & Hle); [lia|].
        apply IH. lia.
    + destruct (ai_lookup (JS.substring pos 3 code)) as [l|] eqn:E3.
      * pose proof (ai_lookup_length _ _ E3) as Hl. rewrite Hl.
        destruct (0 <? l).
        -- apply IH. lia.
        -- destruct (var_loop_some (S (String.length code)) code (pos + 2) "")
             as (pos2 & v & -> & Hle); [lia|].
           apply IH. lia.
      * apply IH. lia.
Qed.

(** The conversion always returns. *)
Lemma convertToParenthesized_total (code : string) :
  exists r, convertToParenthesized code = Ok r.
Proof.
  unfold convertToParenthesized.
  destruct (convert_loop_some (S (String.length code)) code 0 "") as [r ->];
    [lia|].
  eauto.
Qed.

Lemma convert_loop_no_ai (fuel : nat) (code : string) (pos : nat)
    (result r : string) :
  no_ai code ->
  convert_loop fuel code pos result = Some r -> r = result.
Proof.
  intros Hno. revert pos. induction fuel as [|fuel IH]; intros pos.
  - discriminate.
  - cbn [convert_loop].
    destruct (pos <? String.length code)%nat; [|now intros [= <-]].
    destruct (Hno pos) as [-> ->]. apply IH.
Qed.

(** When the scan recognises nothing the text comes back as it was. *)
Lemma convertToParenthesized_no_ai (code : string) :
  no_ai code -> convertToParenthesized code = Ok code.
Proof.
  intros Hno. unfold convertToParenthesized.
  destruct (convert_loop_some (S (String.length code)) code 0 "") as [r E];
    [lia|].
  rewrite E. apply convert_loop_no_ai in E; [|exact Hno]. now subst r.
Qed.

End Convert.

(** * The decoder returns, and what it returns *)

Section Decoder.

Variable env : Env.

Lemma parseInt_short (s : string) :
  JS.all_chars JS.is_digit s = true -> JS.nonempty s = true ->
  (String.length s <= 15)%nat ->
  parseInt s = Fin (digits_value 10 s 0).
Proof.
  intros Hd Hne Hlen. rewrite parseInt_digits by assumption.
  apply round_double_small.
  pose proof (digits_value_range s Hd) as [_ Hlt].
  assert (10 ^ Z.of_nat (String.length s) <= 10 ^ 15)
    by (apply Z.pow_le_mono_r; lia).
  assert (10 ^ 15 < 2 ^ 53) by (vm_compute; reflexivity).
  lia.
Qed.

(** On the six digits that the expiry pattern captures the date is valid
    and [parseExpiryDate] returns. *)
Lemma parseExpiryDate_total (e : string) :
  JS.all_chars JS.is_digit e = true -> String.length e = 6%nat ->
  exists p, parseExpiryDate env e = Ok p.
Proof.
  intros Hd Hlen.
  destruct e as [|a [|b [|c [|d [|f [|g [|h e]]]]]]]; try discriminate.
  cbn [JS.all_chars] in Hd.
  repeat (apply andb_prop in Hd as [? Hd]).
  unfold parseExpiryDate.
  change (JS.substring 0 2 (String a (String b (String c (String d
            (String f (String g ""))))))) with (String a (String b "")).
  change (JS.substring 2 2 (String a (String b (String c (String d
            (String f (String g ""))))))) with (String c (String d "")).
  change (JS.substring 4 2 (String a (String b (String c (String d
            (String f (String g ""))))))) with (String f (String g "")).
  change ("20" ++ String a (String b ""))
    with (String "2" (String "0" (String a (String b "")))).
  rewrite !parseInt_short;
    cbn [JS.all_chars JS.nonempty String.length JS.is_digit];
    repeat match goal with H : JS.is_digit _ = true |- _ => rewrite H end;
    try reflexivity; try lia.
  eauto.
Qed.

Lemma good_default (v : jsval) : good env (default_result v).
Proof.
  split; [split; reflexivity|]. split; [|split; [reflexivity|]].
  - left. exists 1. split; [reflexivity|lia].
  - intros i. discriminate.
Qed.

Lemma good_set_gtin (g14 g13 : string) (r : ParsedCode) :
  g14 <> "" -> g13 <> "" -> good env r -> good env (set_gtin g14 g13 r).
Proof.
  intros H14 H13 (_ & Hq & He & Ho).
  split; [split; assumption|]. split; [exact Hq|]. split; assumption.
Qed.

Lemma length_drop_zero (s : string) :
  (String.length s - 1 <= String.length (drop_zero s))%nat.
Proof.
  unfold drop_zero. destruct (JS.startsWith "0" s); [|lia].
  rewrite length_str_drop. lia.
Qed.

Lemma length_neq_empty (s : string) : (0 < String.length s)%nat -> s <> "".
Proof. destruct s; cbn; [lia|discriminate]. Qed.

Lemma qty_of_ok (q : string) :
  JS.all_chars JS.is_digit q = true -> JS.nonempty q = true ->
  qty_ok (qty_of q)
  /\ qty_of q = (if digits_value 10 q 0 =? 0 then Fin 1
                 else round_double (digits_value 10 q 0)).
Proof.
  intros Hd Hne. unfold qty_of. rewrite parseInt_digits by assumption.
  pose proof (digits_value_range q Hd) as [Hge _].
  destruct (Z.eqb_spec (digits_value 10 q 0) 0) as [->|Hnz].
  - split; [left; exists 1; split; [reflexivity|lia] | reflexivity].
  - destruct (round_double_ge_1 (digits_value 10 q 0)) as [(z & E & Hz)|E];
      [lia| |]; rewrite E; cbn [num_truthy].
    + destruct (Z.eqb_spec z 0); [lia|]. cbn [negb].
      split; [left; eauto | reflexivity].
    + split; [now right | reflexivity].
Qed.

(** What [extract] returns, field by field. *)
Lemma extract_fields (code : string) (result : ParsedCode) :
  exists r,
    extract env code result = Ok r
    /\ raw r = raw result /\ rms r = rms result
    /\ match match_gtin code with
       | Some g =>
           valid r = true
           /\ gtin14 r = JS.padStart 14 "0" g
           /\ gtin13 r = drop_zero (JS.padStart 14 "0" g)
       | None =>
           valid r = valid result
           /\ gtin14 r = gtin14 result /\ gtin13 r = gtin13 result
       end
    /\ match match_expiry code with
       | Some e =>
           exists p,
             parseExpiryDate env e = Ok p
             /\ expiry r = Some (iso p)
             /\ expiryDDMMYY r = ddmmyy p
             /\ expiryFormatted r = formatted p
             /\ expiryStatus r = calculateExpiryStatus env (Some (iso p))
       | None =>
           expiry r = expiry result
           /\ expiryDDMMYY r = expiryDDMMYY result
           /\ expiryFormatted r = expiryFormatted result
           /\ expiryStatus r = expiryStatus result
       end
    /\ batch r = match match_batch code with
                 | Some b => JS.trim (JS.drop_pipes b)
                 | None => batch result
                 end
    /\ serial r = match match_serial code with
                  | Some s => JS.trim (JS.drop_pipes s)
                  | None => serial result
                  end
    /\ qty r = match match_qty code with
               | Some q => qty_of q
               | None => qty result
               end.
Proof.
  unfold extract.
  destruct (match_expiry code) as [e|] eqn:He.
  - destruct (regex_match_sound _ _ _ _ _ _ He) as (Hd & Hlo & Hhi).
    destruct (parseExpiryDate_total e Hd) as [p Hp].
    { specialize (Hhi 6%nat eq_refl). cbn in Hlo. lia. }
    rewrite Hp. cbn [bind].
    destruct (match_gtin code), (match_batch code), (match_serial code),
      (match_qty code); eexists; (split; [reflexivity|]); cbn;
      repeat split; eauto 10.
  - cbn [bind].
    destruct (match_gtin code), (match_batch code), (match_serial code),
      (match_qty code); eexists; (split; [reflexivity|]); cbn;
      repeat split; eauto 10.
Qed.

Lemma extract_good (code : string) (result : ParsedCode) :
  good env result ->
  exists r, extract env code result = Ok r /\ good env r.
Proof.
  intros (Hw & Hq & Hs & Ho).
  destruct (extract_fields code result)
    as (r & E & _ & _ & Hg & He & _ & _ & Hqty).
  exists r. split; [exact E|]. split; [|split; [|split]].
  - unfold wf_ident in *.
    destruct (match_gtin code) as [g|] eqn:Eg.
    + destruct Hg as (-> & -> & ->).
      pose proof (length_padStart 14 "0" g).
      pose proof (length_drop_zero (JS.padStart 14 "0" g)).
      split; apply length_neq_empty; lia.
    + destruct Hg as (-> & -> & ->). exact Hw.
  - rewrite Hqty. destruct (match_qty code) as [q|] eqn:Eq; [|exact Hq].
    destruct (regex_match_sound _ _ _ _ _ _ Eq) as (Hd & Hlo & _).
    apply qty_of_ok; [exact Hd|]. apply nonempty_length. cbn in Hlo. lia.
  - destruct (match_expiry code) as [e|].
    + destruct He as (p & _ & -> & _ & _ & ->). reflexivity.
    + destruct He as (-> & _ & _ & ->). exact Hs.
  - destruct (match_expiry code) as [e|] eqn:Ee.
    + destruct He as (p & Hp & Hx & _). intros i Hi.
      destruct (regex_match_sound _ _ _ _ _ _ Ee) as (Hd & Hlo & Hhi).
      specialize (Hhi 6%nat eq_refl). cbn in Hlo.
      exists e, p. repeat split; [exact Hd|lia|exact Hp|congruence].
    + destruct He as (Hx & _). intros i Hi. apply Ho. congruence.
Qed.

Lemma digits_between_length (lo hi : nat) (s : string) :
  JS.digits_between lo hi s = true ->
  JS.all_chars JS.is_digit s = true
  /\ (lo <= String.length s <= hi)%nat.
Proof.
  unfold JS.digits_between.
  intros [[Hd Hlo]%andb_prop Hhi]%andb_prop.
  apply Nat.leb_le in Hlo, Hhi. auto.
Qed.

Lemma with_parentheses_total (code : string) :
  exists c1, with_parentheses code = Ok c1.
Proof.
  unfold with_parentheses.
  destruct (negb (JS.includes "(" code) && JS.two_digits_first code);
    [apply convertToParenthesized_total|eauto].
Qed.

Lemma parse_rest_good (code : string) (result : ParsedCode) :
  good env result ->
  exists r, parse_rest env code result = Ok r /\ good env r.
Proof.
  intros Hg. unfold parse_rest.
  destruct (JS.digits_between 5 7 code) eqn:Hs.
  - apply digits_between_length in Hs as [_ Hlen].
    eexists; split; [reflexivity|].
    apply good_set_gtin; [| |exact Hg]; apply length_neq_empty; lia.
  - destruct (with_parentheses_total code) as [c1 ->].
    cbn [bind]. now apply extract_good.
Qed.

(** [parseGS1] returns on every value, and the record it returns has its
    identifier fields set together with [valid], a quantity from 1 on,
    and the status of its expiry field. *)
Lemma parseGS1_good (v : jsval) :
  exists r, parseGS1 env v = Ok r /\ good env r.
Proof.
  unfold parseGS1.
  destruct v as [| | | |s|];
    try (eexists; split; [reflexivity|apply good_default]).
  destruct (JS.nonempty s);
    [|eexists; split; [reflexivity|apply good_default]].
  cbn [negb].
  set (code := JS.gs_to_pipe (JS.trim s)).
  destruct (JS.digits_between 5 21 code) eqn:Hd; cbn [andb].
  - apply digits_between_length in Hd as [_ Hlen].
    assert (Hg1 : good env
              (set_gtin (JS.padStart 14 "0" code)
                 (if (String.length code <=? 13)%nat then code
                  else JS.substring 0 13 code)
                 (default_result (VStr s)))).
    { apply good_set_gtin; [| |apply good_default]; apply length_neq_empty.
      - rewrite length_padStart. lia.
      - destruct (Nat.leb_spec (String.length code) 13); [lia|].
        unfold JS.substring. cbn [JS.str_drop].
        rewrite length_str_take. lia. }
    destruct (negb (JS.includes "(" code)); cbn [andb].
    + destruct (JS.startsWith "01" code && (16 <=? String.length code)%nat).
      * destruct (convertToParenthesized_total code) as [c1 ->].
        cbn [bind]. now apply parse_rest_good.
      * eauto.
    + apply parse_rest_good, good_default.
  - apply parse_rest_good, good_default.
Qed.

End Decoder.

(** * The claims about the decoder *)

(** C3: for every input text the record [parseGS1] returns has [valid]
    true exactly when an identifier field ([gtin14] or [gtin13]) was
    filled, and [gtin14] is not empty whenever [valid] is true. *)
Theorem parseGS1_valid_iff_identifier (env : Env) (rawText : string) :
  exists r,
    parseGS1 env (VStr rawText) = Ok r
    /\ (valid r = true <-> gtin14 r <> "" \/ gtin13 r <> "")
    /\ (valid r = true -> gtin14 r <> "").
Proof.
  destruct (parseGS1_good env (VStr rawText)) as (r & E & Hw & _).
  exists r. split; [exact E|]. unfold wf_ident in Hw.
  destruct (valid r).
  - destruct Hw as [H14 H13]. split; [split; auto|auto].
  - destruct Hw as [H14 H13]. split; [split|]; try discriminate.
    intros [H|H]; congruence.
Qed.

Lemma extract_nothing (env : Env) (code : string) (result : ParsedCode) :
  match_gtin code = None -> match_expiry code = None ->
  match_batch code = None -> match_serial code = None ->
  match_qty code = None ->
  extract env code result = Ok result.
Proof.
  intros H1 H2 H3 H4 H5. unfold extract.
  rewrite H1, H2, H3, H4, H5. reflexivity.
Qed.

Lemma digits_between_weaken (lo hi lo' hi' : nat) (s : string) :
  (lo' <= lo)%nat -> (hi <= hi')%nat ->
  JS.digits_between lo hi s = true -> JS.digits_between lo' hi' s = true.
Proof.
  intros Hlo Hhi H. apply digits_between_length in H as (Hd & Hl1 & Hl2).
  unfold JS.digits_between. rewrite Hd. cbn [andb].
  apply andb_true_intro. split; apply Nat.leb_le; lia.
Qed.

(** C6: [parseGS1] returns on every value, never throwing and never
    looping; a value that is not a string, or is the empty string, gives
    the default record, and so does a text in which no recogniser finds
    anything (not a 5 to 21 digit code, and none of the five patterns
    matches); [convertToParenthesized] returns on every text, and gives
    the text back unchanged when it recognises no application identifier
    in it. *)
Theorem parseGS1_never_raises :
  (forall env v, exists r, parseGS1 env v = Ok r)
  /\ (forall env v,
        (forall s, v = VStr s -> s = "") ->
        parseGS1 env v = Ok (default_result v))
  /\ (forall env s code1,
        JS.digits_between 5 21 (JS.gs_to_pipe (JS.trim s)) = false ->
        with_parentheses (JS.gs_to_pipe (JS.trim s)) = Ok code1 ->
        match_gtin code1 = None -> match_expiry code1 = None ->
        match_batch code1 = None -> match_serial code1 = None ->
        match_qty code1 = None ->
        parseGS1 env (VStr s) = Ok (default_result (VStr s)))
  /\ (forall code, exists r, convertToParenthesized code = Ok r)
  /\ (forall code, no_ai code -> convertToParenthesized code = Ok code).
Proof.
  split; [|split; [|split; [|split]]].
  - intros env v. destruct (parseGS1_good env v) as (r & E & _). eauto.
  - intros env v Hv. destruct v as [| | | |s|]; try reflexivity.
    now rewrite (Hv s eq_refl).
  - intros env s code1 Hd Hc H1 H2 H3 H4 H5. unfold parseGS1.
    destruct (JS.nonempty s); [|reflexivity]. cbn [negb].
    rewrite Hd. cbn [andb]. unfold parse_rest.
    destruct (JS.digits_between 5 7 (JS.gs_to_pipe (JS.trim s))) eqn:H57.
    + apply (digits_between_weaken 5 7 5 21) in H57; [congruence|lia|lia].
    + rewrite Hc. cbn [bind]. now apply extract_nothing.
  - apply convertToParenthesized_total.
  - apply convertToParenthesized_no_ai.
Qed.

Lemma parseGS1_never_raises_witness :
  parseGS1 (fixed_zone 0 0) (VStr "no code here")
    = Ok (default_result (VStr "no code here"))
  /\ convertToParenthesized "xyz" = Ok "xyz".
Proof.
  split.
  - refine (proj1 (proj2 (proj2 parseGS1_never_raises))
              (fixed_zone 0 0) "no code here" "no code here" _ _ _ _ _ _ _);
      vm_compute; reflexivity.
  - refine (proj2 (proj2 (proj2 (proj2 parseGS1_never_raises))) "xyz" _).
    intros pos.
    do 4 (destruct pos as [|pos]; [split; reflexivity|]).
    split; reflexivity.
Defined.

(** C7 (the code departs from the claim): a text of 5 to 7 digits is
    taken by the 5 to 21 digit test that comes first, so [gtin14] is the
    text padded with zeros to 14 digits, not the text itself; [gtin13] is
    the text, [valid] is true and nothing else is decoded. The short-code
    branch that would store the text in [gtin14] is never reached. *)
Theorem parseGS1_short_code_padded (env : Env) (s : string)
    (Hs : JS.digits_between 5 7 s = true) :
  parseGS1 env (VStr s)
  = Ok (set_gtin (JS.padStart 14 "0" s) s (default_result (VStr s)))
  /\ JS.padStart 14 "0" s <> s.
Proof.
  pose proof (digits_between_weaken 5 7 5 21 s ltac:(lia) ltac:(lia) Hs)
    as H21.
  apply digits_between_length in Hs as (Hd & Hlo & Hhi).
  split.
  - unfold parseGS1.
    replace (JS.nonempty s) with true
      by (symmetry; apply nonempty_length; lia).
    cbn [negb].
    rewrite (normalize_plain s (digits_plain s Hd)), H21.
    rewrite (digits_no_paren s Hd). cbn [negb andb].
    destruct (Nat.leb_spec (String.length s) 13) as [_|]; [|lia].
    destruct (Nat.leb_spec 16 (String.length s)) as [|_]; [lia|].
    now rewrite andb_false_r.
  - intros Heq. pose proof (length_padStart 14 "0" s) as Hl.
    rewrite Heq in Hl. lia.
Qed.

Lemma parseGS1_short_code_padded_witness :
  parseGS1 (fixed_zone 0 0) (VStr "12345")
  = Ok (set_gtin "00000000012345" "12345" (default_result (VStr "12345"))).
Proof.
  exact (proj1 (parseGS1_short_code_padded (fixed_zone 0 0) "12345" eq_refl)).
Defined.

Section Parenthesized.

Variable env : Env.

Lemma paren_not_digits (lo hi : nat) (code : string) :
  JS.includes "(" code = true -> JS.digits_between lo hi code = false.
Proof.
  intros Hp. unfold JS.digits_between.
  destruct (JS.all_chars JS.is_digit code) eqn:Hd; [|reflexivity].
  rewrite (digits_no_paren code Hd) in Hp. discriminate.
Qed.

(** A text with a parenthesis goes to the patterns as it is. *)
Lemma parseGS1_parenthesized (s : string) :
  JS.nonempty s = true ->
  JS.includes "(" (JS.gs_to_pipe (JS.trim s)) = true ->
  parseGS1 env (VStr s)
  = extract env (JS.gs_to_pipe (JS.trim s)) (default_result (VStr s)).
Proof.
  intros Hne Hp. unfold parseGS1. rewrite Hne. cbn [negb].
  rewrite (paren_not_digits 5 21 _ Hp). cbn [andb].
  unfold parse_rest, with_parentheses.
  rewrite (paren_not_digits 5 7 _ Hp), Hp. reflexivity.
Qed.

Lemma gtin_text_plain (d : string) :
  JS.all_chars JS.is_digit d = true ->
  JS.gs_to_pipe (JS.trim ("(01)" ++ d)) = "(01)" ++ d.
Proof.
  intros Hd. apply normalize_plain.
  rewrite all_chars_app, (digits_plain d Hd). reflexivity.
Qed.

Lemma match_gtin_head (d : string) :
  JS.all_chars JS.is_digit d = true ->
  (12 <= String.length d <= 14)%nat ->
  match_gtin ("(01)" ++ d) = Some d.
Proof.
  intros Hd Hlen. unfold match_gtin.
  apply (regex_match_head _ _ _ _ _ d); [reflexivity|].
  unfold JS.capture. rewrite (take_while_all _ d Hd).
  destruct (Nat.leb_spec 12 (String.length d)); [|lia].
  now rewrite str_take_all by lia.
Qed.

(** After ["(01)"] and digits no other field is found. *)
Lemma no_other_field (a b : ascii) (p : ascii -> bool) (lo : nat)
    (hi : option nat) (d : string) :
  JS.all_chars JS.is_digit d = true ->
  Ascii.eqb a "0" = false ->
  JS.regex_match (String "(" (String a (String b ")"))) p lo hi ("(01)" ++ d)
  = None.
Proof.
  intros Hd Ha.
  change ("(01)" ++ d) with (String "(" (String "0" (String "1" (String ")" d)))).
  rewrite regex_match_unfold. unfold JS.match_here at 1.
  cbn [JS.strip_prefix]. change (Ascii.eqb "(" "(") with true. rewrite Ha.
  apply regex_match_absent.
  change (JS.includes "(" (String "0" (String "1" (String ")" d))))
    with (JS.includes "(" d).
  now apply digits_no_paren.
Qed.

(** What [parseGS1] makes of ["(01)"] followed by 12 to 14 digits. *)
Lemma parseGS1_gtin_field (d : string) :
  JS.all_chars JS.is_digit d = true ->
  (12 <= String.length d <= 14)%nat ->
  parseGS1 env (VStr ("(01)" ++ d))
  = Ok (set_gtin (JS.padStart 14 "0" d) (drop_zero (JS.padStart 14 "0" d))
          (default_result (VStr ("(01)" ++ d)))).
Proof.
  intros Hd Hlen.
  rewrite parseGS1_parenthesized; rewrite ?gtin_text_plain by exact Hd;
    try reflexivity.
  unfold extract.
  rewrite (match_gtin_head d Hd Hlen).
  unfold match_expiry, match_batch, match_serial, match_qty.
  rewrite !no_other_field by (exact Hd || reflexivity).
  reflexivity.
Qed.

(** What [parseGS1] makes of a bare code of 14 digits. *)
Lemma parseGS1_bare_14 (g : string) :
  JS.all_chars JS.is_digit g = true -> String.length g = 14%nat ->
  parseGS1 env (VStr g)
  = Ok (set_gtin g (JS.substring 0 13 g) (default_result (VStr g))).
Proof.
  intros Hd Hlen. unfold parseGS1.
  replace (JS.nonempty g) with true by (symmetry; apply nonempty_length; lia).
  cbn [negb]. rewrite (normalize_plain g (digits_plain g Hd)).
  unfold JS.digits_between. rewrite Hd, Hlen, (digits_no_paren g Hd).
  cbn [andb negb Nat.leb]. rewrite andb_false_r.
  now rewrite padStart_id by lia.
Qed.

End Parenthesized.

(** C8: for 12 to 14 digits [d] inside AI (01), the decoded [gtin14] is
    [d] padded to 14 digits, and decoding that [gtin14] again, as a bare
    code or inside AI (01), gives the same [gtin14]. *)
Theorem gtin14_decoding_idempotent (env : Env) (d : string)
    (Hd : JS.all_chars JS.is_digit d = true)
    (Hlen : (12 <= String.length d <= 14)%nat) :
  exists r1 r2 r3,
    parseGS1 env (VStr ("(01)" ++ d)) = Ok r1
    /\ gtin14 r1 = JS.padStart 14 "0" d
    /\ parseGS1 env (VStr (gtin14 r1)) = Ok r2
    /\ gtin14 r2 = gtin14 r1
    /\ parseGS1 env (VStr ("(01)" ++ gtin14 r1)) = Ok r3
    /\ gtin14 r3 = gtin14 r1.
Proof.
  pose proof (padStart_digits 14 d Hd) as Hd14.
  assert (Hl14 : String.length (JS.padStart 14 "0" d) = 14%nat)
    by (rewrite length_padStart; lia).
  do 3 eexists.
  split; [apply (parseGS1_gtin_field env d Hd Hlen)|].
  cbn [gtin14 set_gtin].
  split; [reflexivity|].
  split; [apply (parseGS1_bare_14 env _ Hd14 Hl14)|].
  split; [reflexivity|].
  split; [apply (parseGS1_gtin_field env _ Hd14); lia|].
  cbn [gtin14 set_gtin]. apply padStart_id. lia.
Qed.

Lemma gtin14_decoding_idempotent_witness :
  exists r1 r2 r3,
    parseGS1 (fixed_zone 0 0) (VStr "(01)5012345678900") = Ok r1
    /\ gtin14 r1 = "05012345678900"
    /\ parseGS1 (fixed_zone 0 0) (VStr (gtin14 r1)) = Ok r2
    /\ gtin14 r2 = gtin14 r1
    /\ parseGS1 (fixed_zone 0 0) (VStr ("(01)" ++ gtin14 r1)) = Ok r3
    /\ gtin14 r3 = gtin14 r1.
Proof.
  refine (gtin14_decoding_idempotent (fixed_zone 0 0) "5012345678900" _ _).
  - reflexivity.
  - vm_compute. lia.
Defined.

(** * The short-code block of [parseGS1] is never reached *)

Lemma convert_loop_extends (fuel : nat) (code : string) (pos : nat)
    (result r : string) :
  convert_loop fuel code pos result = Some r -> exists t, r = result ++ t.
Proof.
  revert pos result. induction fuel as [|fuel IH]; intros pos result.
  - discriminate.
  - cbn [convert_loop].
    destruct (pos <? String.length code)%nat.
    2:{ intros [= <-]. exists "". now rewrite app_nil_r. }
    destruct (match ai_lookup (JS.substring pos 2 code) with
              | Some l => Some (JS.substring pos 2 code, l)
              | None =>
                  match ai_lookup (JS.substring pos 3 code) with
                  | Some l => Some (JS.substring pos 3 code, l)
                  | None => None
                  end
              end) as [[ai len]|]; [|apply IH].
    destruct (0 <? len).
    + intros H. apply IH in H as [t ->]. rewrite app_assoc. eauto.
    + destruct (var_loop _ code _ "") as [[pos2 value]|]; [|discriminate].
      intros H. apply IH in H as [t ->]. rewrite app_assoc. eauto.
Qed.

Lemma strip_prefix_app (p s : string) : JS.strip_prefix p (p ++ s) = Some s.
Proof.
  induction p as [|c p IH]; [reflexivity|].
  rewrite app_cons; cbn [JS.strip_prefix]. now rewrite Ascii.eqb_refl.
Qed.

Lemma strip_prefix_eq (p s rest : string) :
  JS.strip_prefix p s = Some rest -> s = p ++ rest.
Proof.
  revert s. induction p as [|c p IH]; intros s; cbn [JS.strip_prefix].
  - now intros [= ->].
  - destruct s as [|c' s]; [discriminate|].
    destruct (Ascii.eqb_spec c c') as [<-|]; [|discriminate].
    intros H. apply IH in H. rewrite app_cons. congruence.
Qed.

(** After a text that begins with ["01"] the conversion begins with a
    parenthesis. *)
Lemma convert_after_01 (code r : string) :
  JS.startsWith "01" code = true ->
  convertToParenthesized code = Ok r ->
  JS.includes "(" r = true.
Proof.
  unfold JS.startsWith.
  destruct (JS.strip_prefix "01" code) as [rest|] eqn:Hp; [|discriminate].
  apply strip_prefix_eq in Hp. subst code. intros _.
  unfold convertToParenthesized.
  destruct (convert_loop _ _ 0 "") as [res|] eqn:Hc; [|discriminate].
  cbn [convert_loop] in Hc.
  change (String.length ("01" ++ rest)) with (S (S (String.length rest))) in Hc.
  cbn [Nat.ltb Nat.leb] in Hc.
  change (JS.substring 0 2 ("01" ++ rest)) with "01" in Hc.
  change (ai_lookup "01") with (Some 14) in Hc.
  cbn [Z.ltb Z.compare String.length Nat.add] in Hc.
  apply convert_loop_extends in Hc as [t ->].
  intros [= <-]. reflexivity.
Qed.

(** Deleting the short-code block changes no answer of [parseGS1]: a
    text of 5 to 7 digits is always taken by the block before it. *)
Lemma short_code_unreachable (env : Env) (raw : jsval) :
  parseGS1 env raw = parseGS1_without_short_code env raw.
Proof.
  unfold parseGS1, parseGS1_without_short_code.
  destruct raw as [| | | |s|]; try reflexivity.
  destruct (JS.nonempty s); [|reflexivity]. cbn [negb].
  set (code := JS.gs_to_pipe (JS.trim s)).
  destruct (JS.digits_between 5 21 code && negb (JS.includes "(" code))
    eqn:Hd.
  - destruct (JS.startsWith "01" code) eqn:H01; [|reflexivity].
    destruct (16 <=? String.length code)%nat; [|reflexivity]. cbn [andb].
    destruct (convertToParenthesized code) as [code1| |] eqn:Hc;
      try reflexivity.
    cbn [bind]. unfold parse_rest.
    now rewrite (paren_not_digits 5 7 code1 (convert_after_01 _ _ H01 Hc)).
  - unfold parse_rest.
    destruct (JS.digits_between 5 7 code) eqn:H57; [|reflexivity].
    pose proof (digits_between_weaken 5 7 5 21 code ltac:(lia) ltac:(lia) H57)
      as H21.
    apply digits_between_length in H57 as [Hdig _].
    rewrite H21, (digits_no_paren code Hdig) in Hd. discriminate.
Qed.

(** * Dates *)

Section Dates.

Variable env : Env.
Hypothesis Htz : tz_ok env.

Lemma fixed_zone_ok (clock offset : Z) : tz_ok (fixed_zone clock offset).
Proof.
  intros day. unfold LocalTime, UTC, fixed_zone; cbn.
  replace (day * msPerDay - offset + offset) with (day * msPerDay) by lia.
  apply Z.div_mul. discriminate.
Qed.

Lemma getDate_Date_ymd (year month day : Z) :
  100 <= year ->
  getDate env (Date_ymd env year month day)
  = snd (civil_from_days (MakeDay year month day)).
Proof.
  intros Hy. unfold getDate, Date_ymd.
  destruct (Z.leb_spec year 99); [lia|]. rewrite andb_false_r.
  now rewrite Htz.
Qed.

Lemma day00_last_day (y m : Z) :
  0 <= y <= 99 -> 1 <= m <= 12 ->
  snd (civil_from_days (MakeDay (2000 + y) m 0)) = days_in_month (2000 + y) m.
Proof.
  intros Hy Hm.
  assert (Ht :
    forallb (fun y =>
      forallb (fun m =>
        snd (civil_from_days (MakeDay (2000 + Z.of_nat y) (Z.of_nat m) 0))
        =? days_in_month (2000 + Z.of_nat y) (Z.of_nat m))
        (seq 1 12))
      (seq 0 100) = true) by (vm_compute; reflexivity).
  rewrite forallb_forall in Ht.
  specialize (Ht (Z.to_nat y) ltac:(apply in_seq; lia)).
  rewrite forallb_forall in Ht.
  specialize (Ht (Z.to_nat m) ltac:(apply in_seq; lia)).
  rewrite !Z2Nat.id in Ht by lia. apply Z.eqb_eq in Ht. exact Ht.
Qed.

(** Two digits, their value, and how the value prints. *)
Lemma two_digits_value (a b : ascii) :
  JS.is_digit a = true -> JS.is_digit b = true ->
  let v := digits_value 10 (String a (String b "")) 0 in
  0 <= v <= 99
  /\ parseInt (String a (String b "")) = Fin v
  /\ pad2 v = String a (String b "")
  /\ parseInt (String "2" (String "0" (String a (String b "")))) = Fin (2000 + v)
  /\ String_of_int (2000 + v) = String "2" (String "0" (String a (String b ""))).
Proof.
  intros Ha Hb.
  apply is_digit_cases in Ha, Hb. cbn [In] in Ha, Hb.
  repeat (destruct Ha as [Ha|Ha]; [subst a|]); [..|destruct Ha];
    (repeat (destruct Hb as [Hb|Hb]; [subst b|]); [..|destruct Hb]);
    vm_compute; repeat split; congruence.
Qed.

(** In the years 2000 to 2099, day 0 of the month after [month] is the
    last day of [month]. *)
Lemma day00_getDate (yv month : Z) :
  0 <= yv <= 99 -> 1 <= month <= 12 ->
  getDate env (Date_ymd env (2000 + yv) month 0)
  = days_in_month (2000 + yv) month.
Proof.
  intros Hy Hm. rewrite getDate_Date_ymd by lia. now apply day00_last_day.
Qed.

End Dates.

(** [parseExpiryDate] on six digits: the two strings it builds. *)
Lemma parseExpiryDate_fields (env : Env) (y1 y2 m1 m2 d1 d2 : ascii) :
  JS.is_digit y1 = true -> JS.is_digit y2 = true ->
  JS.is_digit m1 = true -> JS.is_digit m2 = true ->
  JS.is_digit d1 = true -> JS.is_digit d2 = true ->
  let yy := String y1 (String y2 "") in
  let mm := String m1 (String m2 "") in
  let dd := String d1 (String d2 "") in
  let year := 2000 + digits_value 10 yy 0 in
  let month := digits_value 10 mm 0 in
  let day :=
    if digits_value 10 dd 0 =? 0
    then getDate env (Date_ymd env year month 0)
    else digits_value 10 dd 0 in
  exists p,
    parseExpiryDate env (yy ++ mm ++ dd) = Ok p
    /\ formatted p = pad2 day ++ "/" ++ mm ++ "/" ++ "20" ++ yy
    /\ ddmmyy p = pad2 day ++ mm ++ yy.
Proof.
  intros Hy1 Hy2 Hm1 Hm2 Hd1 Hd2 yy mm dd year month day.
  pose proof (two_digits_value y1 y2 Hy1 Hy2) as Ty.
  pose proof (two_digits_value m1 m2 Hm1 Hm2) as Tm.
  pose proof (two_digits_value d1 d2 Hd1 Hd2) as Td.
  cbv zeta in Ty, Tm, Td. fold yy in Ty. fold mm in Tm. fold dd in Td.
  destruct Ty as (_ & _ & _ & Hpy & Hsy).
  destruct Tm as (_ & Hpm & Hsm & _ & _).
  destruct Td as (_ & Hpd & _ & _ & _).
  unfold parseExpiryDate.
  change (JS.substring 0 2 (yy ++ mm ++ dd)) with yy.
  change (JS.substring 2 2 (yy ++ mm ++ dd)) with mm.
  change (JS.substring 4 2 (yy ++ mm ++ dd)) with dd.
  change ("20" ++ yy) with (String "2" (String "0" yy)).
  rewrite Hpy, Hpm, Hpd.
  eexists. split; [reflexivity|]. cbn [formatted ddmmyy].
  rewrite Hsy, Hsm. split; reflexivity.
Qed.

(** C4: a six-digit expiry field YYMMDD is decoded into a display string
    made of the day, the month and the four-digit year 20YY, and a
    compact string made of the day, the month and the two year characters
    of the field as they were; the day is DD, except that day 00 of a
    month from 01 to 12 is replaced by the length of that month in the
    year 20YY. ["(17)250100"] gives the display ["31/01/2025"] and the
    compact ["310125"]. The zone is one that keeps midnights on their
    day. *)
Theorem day_zero_is_last_day_of_month
    (env : Env) (Htz : tz_ok env) (y1 y2 m1 m2 d1 d2 : ascii)
    (Hdigits :
       JS.all_chars JS.is_digit
         (String y1 (String y2 (String m1 (String m2
            (String d1 (String d2 "")))))) = true) :
  let yy := String y1 (String y2 "") in
  let mm := String m1 (String m2 "") in
  let dd := String d1 (String d2 "") in
  let year := 2000 + digits_value 10 yy 0 in
  let month := digits_value 10 mm 0 in
  (exists p day,
     parseExpiryDate env (yy ++ mm ++ dd) = Ok p
     /\ formatted p = pad2 day ++ "/" ++ mm ++ "/" ++ "20" ++ yy
     /\ ddmmyy p = pad2 day ++ mm ++ yy
     /\ (digits_value 10 dd 0 <> 0 -> day = digits_value 10 dd 0)
     /\ (digits_value 10 dd 0 = 0 -> 1 <= month <= 12 ->
         day = days_in_month year month))
  /\ (exists r,
        parseGS1 env (VStr "(17)250100") = Ok r
        /\ expiryFormatted r = "31/01/2025"
        /\ expiryDDMMYY r = "310125").
Proof.
  cbn [JS.all_chars] in Hdigits.
  repeat (apply andb_prop in Hdigits as [? Hdigits]).
  intros yy mm dd year month. split.
  - destruct (parseExpiryDate_fields env y1 y2 m1 m2 d1 d2)
      as (p & Ep & Hf & Hc); try assumption.
    exists p. eexists. split; [exact Ep|]. split; [exact Hf|].
    split; [exact Hc|]. fold yy mm dd year month. split.
    + intros Hnz. destruct (Z.eqb_spec (digits_value 10 dd 0) 0); [lia|].
      reflexivity.
    + intros -> Hm. cbn [Z.eqb].
      pose proof (two_digits_value y1 y2 ltac:(assumption) ltac:(assumption))
        as Ty.
      cbv zeta in Ty. destruct Ty as (Hyr & _).
      apply (day00_getDate env Htz); [exact Hyr|exact Hm].
  - destruct (parseExpiryDate_fields env "2" "5" "0" "1" "0" "0")
      as (p & Ep & Hf & Hc); try reflexivity.
    destruct (extract_fields env "(17)250100"
                (default_result (VStr "(17)250100")))
      as (r & E & _ & _ & _ & He & _).
    change (match_expiry "(17)250100") with (Some "250100") in He.
    destruct He as (p' & Ep' & _ & Hc' & Hf' & _).
    change ("25" ++ "01" ++ "00") with "250100" in Ep.
    rewrite Ep in Ep'. injection Ep' as <-.
    exists r. split.
    + rewrite (parseGS1_parenthesized env "(17)250100" eq_refl eq_refl).
      exact E.
    + rewrite Hf', Hc', Hf, Hc.
      change (digits_value 10 "00" 0 =? 0) with true. cbv iota.
      change (digits_value 10 "01" 0) with 1.
      change (2000 + digits_value 10 "25" 0) with (2000 + 25).
      rewrite (day00_getDate env Htz 25 1) by lia.
      split; reflexivity.
Qed.

Lemma day_zero_is_last_day_of_month_witness :
  exists p,
    parseExpiryDate (fixed_zone 0 10800000) "240200" = Ok p
    /\ formatted p = "29/02/2024"
    /\ ddmmyy p = "290224".
Proof.
  destruct (proj1 (day_zero_is_last_day_of_month (fixed_zone 0 10800000)
                     (fixed_zone_ok 0 10800000) "2" "4" "0" "2" "0" "0"
                     eq_refl))
    as (p & day & E & Hf & Hc & _ & Hlast).
  exists p. split; [exact E|].
  rewrite Hf, Hc, (Hlast eq_refl ltac:(vm_compute; split; discriminate)).
  split; reflexivity.
Defined.

(** * The expiry status *)

Section Status.

Variable env : Env.

Lemma check_from_spec (check : Z -> bool) (n : nat) (lo d : Z) :
  check_from check n lo = true ->
  lo <= d < lo + Z.of_nat n -> check d = true.
Proof.
  revert lo. induction n as [|n IH]; intros lo; cbn [check_from]; [lia|].
  intros [Hlo Hrest]%andb_prop Hd.
  destruct (Z.eq_dec d lo) as [->|Hne]; [exact Hlo|].
  apply (IH (lo + 1) Hrest). lia.
Qed.

(** [new Date] on year, month and day digits joined by hyphens. *)
Lemma Date_parse_parts (ys ms ds : string) :
  String.length ys = 4%nat -> String.length ms = 2%nat ->
  String.length ds = 2%nat ->
  JS.all_chars JS.is_digit ys = true -> JS.all_chars JS.is_digit ms = true ->
  JS.all_chars JS.is_digit ds = true ->
  Date_parse (ys ++ "-" ++ ms ++ "-" ++ ds)
  = let y := digits_value 10 ys 0 in
    let m := digits_value 10 ms 0 in
    let d := digits_value 10 ds 0 in
    if (1 <=? m) && (m <=? 12) && (1 <=? d) && (d <=? 31)
    then Some (days_from_civil y m d * msPerDay)
    else None.
Proof.
  intros Hly Hlm Hld Hy Hm Hd.
  destruct ys as [|a [|b [|c [|e [|x ys]]]]]; try discriminate.
  destruct ms as [|f [|g [|x ms]]]; try discriminate.
  destruct ds as [|h [|i [|x ds]]]; try discriminate.
  unfold Date_parse.
  change (JS.substring 0 4 _) with (String a (String b (String c (String e "")))).
  change (JS.substring 5 2 _) with (String f (String g "")).
  change (JS.substring 8 2 _) with (String h (String i "")).
  change (JS.substring 4 1 _) with "-".
  change (JS.substring 7 1 _) with "-".
  change (String.length _ =? 10)%nat with true.
  rewrite !all_chars_app, Hy, Hm, Hd.
  reflexivity.
Qed.

Lemma digits_print_spec (width : nat) (n : Z) :
  digits_print width n = true ->
  String.length (JS.padStart width "0" (String_of_int n)) = width
  /\ JS.all_chars JS.is_digit (JS.padStart width "0" (String_of_int n)) = true
  /\ digits_value 10 (JS.padStart width "0" (String_of_int n)) 0 = n.
Proof.
  unfold digits_print. intros [[H1 H2]%andb_prop H3]%andb_prop.
  apply Nat.eqb_eq in H1. apply Z.eqb_eq in H3. auto.
Qed.

Lemma days_in_month_le (y m : Z) : days_in_month y m <= 31.
Proof.
  unfold days_in_month.
  destruct (m =? 2); [destruct (is_leap y); lia|].
  destruct (_ || _); lia.
Qed.

(** The ISO date of a day number parses back to the midnight of that
    day, from 1999-11-05 to 2107-09-19. *)
Lemma iso_of_day_parses (d : Z) :
  10900 <= d < 50300 -> Date_parse (iso_of_day d) = Some (d * msPerDay).
Proof.
  intros Hd.
  assert (Ht : check_from civil_roundtrip (Z.to_nat 39400) 10900 = true)
    by (vm_compute; reflexivity).
  assert (Hy4 : check_from (digits_print 4) 109 1999 = true)
    by (vm_compute; reflexivity).
  assert (Hp2 : check_from (digits_print 2) 31 1 = true)
    by (vm_compute; reflexivity).
  pose proof (check_from_spec _ _ _ d Ht) as Hc.
  rewrite Z2Nat.id in Hc by lia. specialize (Hc ltac:(lia)).
  unfold civil_roundtrip in Hc. unfold iso_of_day.
  destruct (civil_from_days d) as [[y m] dd].
  repeat (apply andb_prop in Hc as [Hc ?]).
  repeat match goal with
         | H : (_ <=? _) = true |- _ => apply Z.leb_le in H
         | H : (_ =? _) = true |- _ => apply Z.eqb_eq in H
         end.
  pose proof (days_in_month_le y m) as Hdim.
  destruct (digits_print_spec 4 y (check_from_spec _ _ _ y Hy4 ltac:(lia)))
    as (Ly & Dy & Vy).
  destruct (digits_print_spec 2 m (check_from_spec _ _ _ m Hp2 ltac:(lia)))
    as (Lm & Dm & Vm).
  destruct (digits_print_spec 2 dd (check_from_spec _ _ _ dd Hp2 ltac:(lia)))
    as (Ldd & Ddd & Vdd).
  destruct (Z.leb_spec 0 y); [|lia].
  destruct (Z.leb_spec y 9999); [|lia]. cbn [andb].
  unfold pad2.
  rewrite Date_parse_parts by assumption. cbv zeta.
  rewrite Vy, Vm, Vdd.
  destruct (Z.leb_spec 1 m); [|lia].
  destruct (Z.leb_spec m 12); [|lia].
  destruct (Z.leb_spec 1 dd); [|lia].
  destruct (Z.leb_spec dd 31); [|lia].
  cbn [andb]. congruence.
Qed.

Lemma field_days (y m : Z) :
  0 <= y <= 99 -> 0 <= m <= 99 ->
  10926 <= MakeDay (2000 + y) (m - 1) 1 <= 50097
  /\ 1 <= snd (civil_from_days (MakeDay (2000 + y) m 0)) <= 31.
Proof.
  intros Hy Hm.
  assert (Ht :
    forallb (fun y =>
      forallb (fun m =>
        (10926 <=? MakeDay (2000 + Z.of_nat y) (Z.of_nat m - 1) 1)
        && (MakeDay (2000 + Z.of_nat y) (Z.of_nat m - 1) 1 <=? 50097)
        && (1 <=? snd (civil_from_days
                         (MakeDay (2000 + Z.of_nat y) (Z.of_nat m) 0)))
        && (snd (civil_from_days
                   (MakeDay (2000 + Z.of_nat y) (Z.of_nat m) 0)) <=? 31))
        (seq 0 100))
      (seq 0 100) = true) by (vm_compute; reflexivity).
  rewrite forallb_forall in Ht.
  specialize (Ht (Z.to_nat y) ltac:(apply in_seq; lia)).
  rewrite forallb_forall in Ht.
  specialize (Ht (Z.to_nat m) ltac:(apply in_seq; lia)).
  rewrite !Z2Nat.id in Ht by lia.
  apply andb_prop in Ht as [[[H1 H2]%andb_prop H3]%andb_prop H4].
  apply Z.leb_le in H1, H2, H3, H4. lia.
Qed.

Lemma nonempty_app_r (s t : string) :
  JS.nonempty t = true -> JS.nonempty (s ++ t) = true.
Proof. destruct s; [now rewrite app_nil_l|reflexivity]. Qed.

Lemma iso_of_day_nonempty (d : Z) : JS.nonempty (iso_of_day d) = true.
Proof.
  unfold iso_of_day. destruct (civil_from_days d) as [[y m] dd].
  apply nonempty_app_r. reflexivity.
Qed.

Lemma parseExpiryDate_iso (e : string) (p : ExpiryParts) :
  parseExpiryDate env e = Ok p -> exists t, iso p = toISODate t.
Proof.
  unfold parseExpiryDate.
  destruct (parseInt _) as [|year|]; try discriminate.
  destruct (parseInt _) as [|month|]; try discriminate.
  destruct (parseInt _) as [|day|]; try discriminate.
  intros [= <-]. cbn [iso]. eauto.
Qed.

Lemma status_not_missing (i : string) :
  JS.nonempty i = true -> calculateExpiryStatus env (Some i) <> missing.
Proof.
  intros Hne. unfold calculateExpiryStatus. rewrite Hne. cbn [negb].
  destruct (expiry_midnight env i); [|discriminate].
  destruct (_ <? 0); [discriminate|].
  destruct (_ <=? EXPIRY_SOON_DAYS); discriminate.
Qed.

End Status.

(** * The examples of the specification, evaluated *)

Lemma epoch_day :
  days_from_civil 1970 1 1 = 0 /\ civil_from_days 0 = (1970, 1, 1)
  /\ Date_parse "2025-01-31" = Some 1738281600000.
Proof. repeat split; reflexivity. Qed.

(** A plain 13-digit EAN: [gtin13] is the input, [gtin14] the input with
    one zero in front. *)
Lemma plain_ean13_example :
  parseGS1 (fixed_zone 0 0) (VStr "5012345678900")
  = Ok (set_gtin "05012345678900" "5012345678900"
          (default_result (VStr "5012345678900"))).
Proof. vm_compute. reflexivity. Qed.

(** A raw scan without parentheses that begins with AI 01. *)
Lemma headerless_scan_example :
  exists r,
    parseGS1 (fixed_zone 0 0) (VStr "010501234567890017250228") = Ok r
    /\ gtin14 r = "05012345678900"
    /\ expiryFormatted r = "28/02/2025" /\ expiryDDMMYY r = "280225".
Proof. eexists. split; [vm_compute; reflexivity|]. repeat split. Qed.

(** Fourteen digits that the catalog does not know: [NONE]. *)
Lemma unknown_code_example :
  matchProduct (buildMasterIndex paracetamol_catalog)
    (VStr "09999999999999") (VStr "9999999999999")
  = Ok {| name := ""; type := NONE |}.
Proof. vm_compute. reflexivity. Qed.

(** Updating a known key of the catalog keeps its place. *)
Lemma masterData_set_keeps_order :
  masterData_set "a" "3" (masterData_set "b" "2" (masterData_set "a" "1" []))
  = [("a", "3"); ("b", "2")].
Proof. reflexivity. Qed.

(** * The exact table of a built index *)

Lemma index_entry_exact (acc : MasterIndex) (b nm k : string) :
  exact (index_entry acc (b, nm)) !! k
  = if decide (k ∈ exact_keys b) then Some nm else exact acc !! k.
Proof.
  unfold index_entry, exact_keys.
  destruct (JS.nonempty (JS.digits_only b)); cbn [negb].
  2:{ rewrite decide_False by apply not_elem_of_nil. reflexivity. }
  set (digits := JS.digits_only b).
  destruct (gtin_length (String.length digits));
    [|destruct (8 <=? String.length digits)%nat];
    destruct (JS.nonempty (JS.strip_zeros digits)
              && negb (String.eqb (JS.strip_zeros digits) digits));
    cbn [exact app];
    rewrite ?lookup_insert;
    repeat case_decide; subst; try reflexivity;
    exfalso;
    repeat match goal with
           | H : context [_ ∈ _] |- _ =>
               progress
                 rewrite ?elem_of_app, ?elem_of_cons, ?elem_of_nil in H
           end;
    intuition congruence.
Qed.

Lemma fold_exact (md : list (string * string)) (acc : MasterIndex)
    (k : string) :
  exact (fold_left index_entry md acc) !! k
  = fold_left
      (fun o (kv : string * string) =>
         if decide (k ∈ exact_keys (fst kv)) then Some (snd kv) else o)
      md (exact acc !! k).
Proof.
  revert acc. induction md as [|[b nm] md IH]; intros acc; [reflexivity|].
  cbn [fold_left fst snd]. now rewrite IH, index_entry_exact.
Qed.

Lemma last_writer_fold (md : list (string * string)) (k : string)
    (o : option string) :
  fold_left
    (fun o (kv : string * string) =>
       if decide (k ∈ exact_keys (fst kv)) then Some (snd kv) else o)
    md o
  = match last_writer md k with Some nm => Some nm | None => o end.
Proof.
  unfold last_writer. revert o.
  induction md as [|kv md IH]; intros o; [reflexivity|].
  cbn [fold_left]. rewrite IH, (IH (if decide _ then _ else None)).
  destruct (fold_left _ md None); [reflexivity|].
  destruct (decide _); reflexivity.
Qed.

Lemma last_writer_some (md : list (string * string)) (k nm : string) :
  last_writer md k = Some nm ->
  exists b, In (b, nm) md /\ k ∈ exact_keys b.
Proof.
  induction md as [|[b n] md IH] using rev_ind; [discriminate|].
  unfold last_writer. rewrite fold_left_app. cbn [fold_left fst snd].
  destruct (decide (k ∈ exact_keys b)) as [Hk|Hk].
  - intros [= <-]. exists b. split; [apply in_or_app; right; now left|exact Hk].
  - intros H. destruct (IH H) as (b' & Hin & Hk').
    exists b'. split; [apply in_or_app; now left|exact Hk'].
Qed.

Lemma last_writer_in (md : list (string * string)) (b nm k : string) :
  In (b, nm) md -> k ∈ exact_keys b -> is_Some (last_writer md k).
Proof.
  induction md as [|[b' n'] md IH] using rev_ind; [intros []|].
  intros Hin Hk. unfold last_writer. rewrite fold_left_app.
  cbn [fold_left fst snd].
  destruct (decide (k ∈ exact_keys b')) as [|Hk']; [eauto|].
  apply in_app_or in Hin as [Hin|[[= -> ->]|[]]]; [now apply IH|].
  contradiction.
Qed.

Lemma exact_table_keys (md : list (string * string)) (k : string) :
  exact (buildMasterIndex md) !! k = last_writer md k
  /\ (is_Some (exact (buildMasterIndex md) !! k)
      <-> exists b nm, In (b, nm) md /\ k ∈ exact_keys b).
Proof.
  assert (H : exact (buildMasterIndex md) !! k = last_writer md k).
  { unfold buildMasterIndex. rewrite fold_exact, last_writer_fold.
    unfold empty_index; cbn [exact]. rewrite lookup_empty.
    destruct (last_writer md k); reflexivity. }
  split; [apply H|]. rewrite H. split.
  - intros [nm Hnm]. destruct (last_writer_some _ _ _ Hnm) as (b & ? & ?).
    eauto.
  - intros (b & nm & Hin & Hk). eapply last_writer_in; eassumption.
Qed.

(** X1: the exact table of a built index answers a key with the name of
    the last catalog entry, in iteration order, that files under that
    key ([exact_keys]: the digits of its identifier, the identifier as
    stored, the fourteen, thirteen and twelve digit forms when it has 8,
    12, 13 or 14 digits, and its digits without leading zeros); a key is
    present exactly when some entry files under it, and an entry added
    at the end of the catalog takes every one of its keys. *)
Theorem exact_table_last_write_wins
    (masterData : list (string * string)) (k : string) :
  exact (buildMasterIndex masterData) !! k = last_writer masterData k
  /\ (is_Some (exact (buildMasterIndex masterData) !! k)
      <-> exists b nm, In (b, nm) masterData /\ k ∈ exact_keys b)
  /\ (forall b nm,
        k ∈ exact_keys b ->
        exact (buildMasterIndex (masterData ++ [(b, nm)])) !! k = Some nm).
Proof.
  assert (H : forall md, exact (buildMasterIndex md) !! k = last_writer md k).
  { intros md. unfold buildMasterIndex. rewrite fold_exact, last_writer_fold.
    unfold empty_index; cbn [exact]. rewrite lookup_empty.
    destruct (last_writer md k); reflexivity. }
  split; [apply H|]. split.
  - rewrite H. split.
    + intros [nm Hnm]. destruct (last_writer_some _ _ _ Hnm) as (b & ? & ?).
      eauto.
    + intros (b & nm & Hin & Hk). eapply last_writer_in; eassumption.
  - intros b nm Hk. rewrite H. unfold last_writer.
    rewrite fold_left_app. cbn [fold_left fst snd].
    now rewrite decide_True.
Qed.

(** * Strings of digits and leading zeros *)

Lemma all_digits_only (s : string) :
  JS.all_chars JS.is_digit (JS.digits_only s) = true.
Proof.
  induction s as [|c s IH]; [reflexivity|].
  unfold JS.digits_only in *. cbn [JS.str_filter].
  destruct (JS.is_digit c) eqn:Hc; [cbn; now rewrite Hc|exact IH].
Qed.

Lemma digits_only_id (s : string) :
  JS.all_chars JS.is_digit s = true -> JS.digits_only s = s.
Proof.
  induction s as [|c s IH]; [reflexivity|].
  cbn [JS.all_chars]. intros [Hc Hs]%andb_true_iff.
  unfold JS.digits_only in *. cbn [JS.str_filter]. rewrite Hc.
  now rewrite IH.
Qed.

Lemma strip_zeros_repeat (n : nat) (s : string) :
  JS.strip_zeros (JS.str_repeat "0" n ++ s) = JS.strip_zeros s.
Proof.
  induction n as [|n IH]; cbn [JS.str_repeat].
  - now rewrite app_nil_l.
  - rewrite app_cons. exact IH.
Qed.

Lemma strip_zeros_padStart (n : nat) (s : string) :
  JS.strip_zeros (JS.padStart n "0" s) = JS.strip_zeros s.
Proof. apply strip_zeros_repeat. Qed.

Lemma strip_zeros_drop_zero (s : string) :
  JS.strip_zeros (drop_zero s) = JS.strip_zeros s.
Proof.
  unfold drop_zero, JS.startsWith.
  destruct s as [|c s]; [reflexivity|].
  cbn [JS.strip_prefix].
  destruct (Ascii.eqb "0" c) eqn:Hc; [|reflexivity].
  apply Ascii.eqb_eq in Hc as <-. reflexivity.
Qed.

Lemma strip_zeros_idem (s : string) :
  JS.strip_zeros (JS.strip_zeros s) = JS.strip_zeros s.
Proof.
  induction s as [|c s IH]; [reflexivity|].
  unfold JS.strip_zeros in *. cbn [JS.drop_while].
  destruct (Ascii.eqb c "0") eqn:Hc; [exact IH|].
  cbn [JS.drop_while]. now rewrite Hc.
Qed.

Lemma str_drop_app (a s : string) (m : nat) :
  JS.str_drop (String.length a + m) (a ++ s) = JS.str_drop m s.
Proof.
  induction a as [|c a IH]; [now rewrite app_nil_l|].
  rewrite app_cons. exact IH.
Qed.

Lemma slice_last_padStart (n w : nat) (s : string) :
  (n <= String.length s)%nat ->
  JS.slice_last n (JS.padStart w "0" s) = JS.slice_last n s.
Proof.
  intros Hn. unfold JS.slice_last, JS.padStart.
  rewrite length_app.
  replace (String.length (JS.str_repeat "0" (w - String.length s))
           + String.length s - n)%nat
    with (String.length (JS.str_repeat "0" (w - String.length s))
          + (String.length s - n))%nat by lia.
  apply str_drop_app.
Qed.

Lemma all_chars_str_drop (p : ascii -> bool) (n : nat) (s : string) :
  JS.all_chars p s = true -> JS.all_chars p (JS.str_drop n s) = true.
Proof.
  revert s. induction n as [|n IH]; intros [|c s]; cbn; auto.
  intros [_ Hs]%andb_true_iff. now apply IH.
Qed.

Lemma gtin_length_ge (n : nat) : gtin_length n = true -> (8 <= n)%nat.
Proof.
  unfold gtin_length.
  rewrite !orb_true_iff, !Nat.eqb_eq. lia.
Qed.

(** An entry goes into the bucket of the last eight of its digits, when
    it has that many. *)
Lemma last8_key_spec (digits k : string) :
  last8_key digits = Some k
  <-> (8 <= String.length digits)%nat /\ k = JS.slice_last 8 digits.
Proof.
  unfold last8_key.
  destruct (gtin_length (String.length digits)) eqn:Hg.
  - apply gtin_length_ge in Hg.
    rewrite slice_last_padStart by exact Hg.
    split; [intros [= <-]; auto | intros [_ ->]; reflexivity].
  - destruct (8 <=? String.length digits)%nat eqn:Hl.
    + apply Nat.leb_le in Hl.
      split; [intros [= <-]; auto | intros [_ ->]; reflexivity].
    + apply Nat.leb_gt in Hl.
      split; [discriminate | intros [? _]; lia].
Qed.

Lemma length_slice_last (n : nat) (s : string) :
  (n <= String.length s)%nat -> String.length (JS.slice_last n s) = n.
Proof. intros H. unfold JS.slice_last. rewrite length_str_drop. lia. Qed.

(** * The keys of an entry agree with its digits up to leading zeros *)

Lemma exact_keys_digits (b k : string) :
  k ∈ exact_keys b ->
  JS.nonempty (JS.digits_only b) = true
  /\ (JS.all_chars JS.is_digit k = true ->
      JS.strip_zeros k = JS.strip_zeros (JS.digits_only b)).
Proof.
  unfold exact_keys.
  destruct (JS.nonempty (JS.digits_only b)); cbn [negb];
    [|intros H; now apply not_elem_of_nil in H].
  intros H. split; [reflexivity|]. intros Hk.
  rewrite !elem_of_app, !elem_of_cons in H.
  destruct H as [[->|[->|H]]|[H|H]].
  - reflexivity.
  - now rewrite digits_only_id.
  - now apply not_elem_of_nil in H.
  - destruct (gtin_length _); [|now apply not_elem_of_nil in H].
    rewrite !elem_of_cons in H.
    destruct H as [->|[->|[->|H]]]; [| | |now apply not_elem_of_nil in H];
      rewrite ?strip_zeros_drop_zero; apply strip_zeros_padStart.
  - destruct (_ && _); [|now apply not_elem_of_nil in H].
    apply elem_of_cons in H as [->|H]; [apply strip_zeros_idem|].
    now apply not_elem_of_nil in H.
Qed.

Lemma digits_in_exact_keys (b : string) :
  JS.nonempty (JS.digits_only b) = true -> JS.digits_only b ∈ exact_keys b.
Proof.
  intros H. unfold exact_keys. rewrite H; cbn [negb].
  apply elem_of_app. left. apply elem_of_cons. now left.
Qed.

(** * What the answers of the matcher say about the catalog *)

Lemma arg_digits_all_digits (v : jsval) (d : string) :
  arg_digits v = Ok d -> JS.all_chars JS.is_digit d = true.
Proof.
  unfold arg_digits. destruct (truthy v).
  - destruct v; try discriminate. intros [= <-]. apply all_digits_only.
  - intros [= <-]. reflexivity.
Qed.

Lemma matchProduct_inv (idx : MasterIndex) (g14 g13 : jsval)
    (r : MatchResult) :
  matchProduct idx g14 g13 = Ok r ->
  exists d14 d13,
    arg_digits g14 = Ok d14 /\ arg_digits g13 = Ok d13
    /\ r = match_digits idx d14 d13.
Proof.
  unfold matchProduct.
  destruct (arg_digits g14) as [d14| |]; cbn; try discriminate.
  destruct (arg_digits g13) as [d13| |]; cbn; try discriminate.
  intros [= <-]. eauto.
Qed.

Lemma pad_loop_key (idx : MasterIndex) (d14 : string) (n pad : nat)
    (r : MatchResult) :
  pad_loop idx d14 n pad = Some r ->
  exists w, exact idx !! JS.padStart w "0" d14 = Some (name r).
Proof.
  revert pad. induction n as [|n IH]; intros pad; cbn; [discriminate|].
  destruct (exact idx !! JS.padStart pad "0" d14) eqn:E.
  - intros [= <-]. eauto.
  - apply IH.
Qed.

Lemma match_digits_exact (idx : MasterIndex) (d14 d13 : string) :
  type (match_digits idx d14 d13) = EXACT ->
  exists k, lookup_key d14 d13 k
            /\ exact idx !! k = Some (name (match_digits idx d14 d13)).
Proof.
  unfold match_digits, exact_nonempty, lookup_key.
  destruct (JS.nonempty d14) eqn:N14;
    [destruct (exact idx !! d14) eqn:E1|].
  { intros _. exists d14. split; [left; split; [reflexivity|]|exact E1].
    now apply nonempty_neq. }
  all: destruct (JS.nonempty d13) eqn:N13;
    [destruct (exact idx !! d13) eqn:E2|].
  all: try (intros _; exists d13;
            split; [right; left; split; [reflexivity|]|exact E2];
            now apply nonempty_neq).
  all: destruct (exact idx !! JS.padStart 14 "0" d14) eqn:E3;
    try (intros _; exists (JS.padStart 14 "0" d14);
         split; [right; right; right; eauto|exact E3]).
  all: destruct (JS.nonempty (JS.strip_zeros d14)) eqn:N4;
    [destruct (exact idx !! JS.strip_zeros d14) eqn:E4|].
  all: try (intros _; exists (JS.strip_zeros d14);
            split; [right; right; left; reflexivity|exact E4]).
  all: destruct (last8_step idx d14) as [r|] eqn:E5;
    try (intros Ht; apply last8_step_type in E5 as [E5|E5];
         rewrite E5 in Ht; discriminate).
  all: destruct (pad_step idx d14) as [r|] eqn:E6;
    try (cbn; discriminate).
  all: intros _; unfold pad_step in E6;
    destruct (_ && _) in E6; [|discriminate];
    apply pad_loop_key in E6 as [w E6];
    exists (JS.padStart w "0" d14); split; [|exact E6];
    right; right; right; eauto.
Qed.

Lemma lookup_key_digits (d14 d13 k : string) :
  JS.all_chars JS.is_digit d14 = true ->
  JS.all_chars JS.is_digit d13 = true ->
  lookup_key d14 d13 k ->
  JS.all_chars JS.is_digit k = true
  /\ (JS.strip_zeros k = JS.strip_zeros d14
      \/ JS.strip_zeros k = JS.strip_zeros d13).
Proof.
  intros H14 H13 [[-> _]|[[-> _]|[->|[w ->]]]].
  - auto.
  - auto.
  - split; [|left; apply strip_zeros_idem].
    unfold JS.strip_zeros.
    clear H13. induction d14 as [|c s IH]; [reflexivity|].
    cbn [JS.drop_while]. cbn [JS.all_chars] in H14.
    apply andb_true_iff in H14 as [Hc Hs].
    destruct (Ascii.eqb c "0"); [now apply IH|].
    cbn [JS.all_chars]. now rewrite Hc, Hs.
  - split; [now apply padStart_digits|left; apply strip_zeros_padStart].
Qed.

Lemma last8_key_same (b d14 : string) :
  last8_key (JS.digits_only b) = Some (JS.slice_last 8 d14)
  <-> same_last8 b d14.
Proof.
  rewrite last8_key_spec. unfold same_last8.
  split; intros [H1 H2]; split; auto.
Qed.

Lemma elem_of_bucket_of (md : list (string * string)) (k : string)
    (e : Entry.t) :
  e ∈ bucket_of md k
  <-> exists b nm, In (b, nm) md
                   /\ last8_key (JS.digits_only b) = Some k
                   /\ e = Entry.mk (JS.digits_only b) nm.
Proof.
  unfold bucket_of. rewrite list_elem_of_omap. split.
  - intros ([b nm] & Hin & Hf). cbn [fst snd] in Hf.
    destruct (decide _) as [Hk|]; [|discriminate].
    injection Hf as <-. exists b, nm.
    split; [now apply list_elem_of_In|auto].
  - intros (b & nm & Hin & Hk & ->). exists (b, nm).
    split; [now apply list_elem_of_In|]. cbn [fst snd].
    now rewrite decide_True.
Qed.

Lemma bucket_of_first (md : list (string * string)) (k : string)
    (e : Entry.t) (tl : list Entry.t) :
  bucket_of md k = e :: tl ->
  exists pre b nm post,
    md = (pre ++ (b, nm) :: post)%list
    /\ (forall kv, In kv pre -> last8_key (JS.digits_only (fst kv)) <> Some k)
    /\ last8_key (JS.digits_only b) = Some k
    /\ e = Entry.mk (JS.digits_only b) nm
    /\ tl = bucket_of post k.
Proof.
  induction md as [|[b nm] md IH]; [discriminate|].
  rewrite bucket_of_cons. unfold bucket_of at 1; cbn [omap list_omap fst snd].
  destruct (decide (last8_key (JS.digits_only b) = Some k)) as [Hk|Hk].
  - cbn [app]. intros [= <- <-]. exists [], b, nm, md. cbn [app].
    repeat split; auto.
  - cbn [app]. intros H. destruct (IH H) as (pre & b' & nm' & post & -> & Hpre & ?).
    exists ((b, nm) :: pre), b', nm', post.
    split; [reflexivity|]. split; [|assumption].
    intros kv [<-|Hin]; [exact Hk|now apply Hpre].
Qed.

Lemma bucket_of_nil (md : list (string * string)) (k : string) :
  bucket_of md k = [] <->
  forall kv, In kv md -> last8_key (JS.digits_only (fst kv)) <> Some k.
Proof.
  split; [|apply bucket_of_none].
  intros H [b nm] Hin Hk.
  assert (He : Entry.mk (JS.digits_only b) nm ∈ bucket_of md k)
    by (apply elem_of_bucket_of; eauto).
  rewrite H in He. now apply not_elem_of_nil in He.
Qed.

Lemma built_bucket (md : list (string * string)) (k : string) :
  last8 (buildMasterIndex md) !! k
  = match bucket_of md k with [] => None | l => Some l end.
Proof.
  rewrite buildMasterIndex_bucket.
  destruct (bucket_of md k); reflexivity.
Qed.

(** X2: every bucket of the last-8 table of a built index is non-empty
    and filed under a key of eight characters; each of its members is
    the digit string of a catalog entry with that entry's name, has at
    least eight digits, and ends with the key. *)
Theorem last8_buckets_wellformed
    (masterData : list (string * string)) (k : string)
    (bucket : list Entry.t) :
  last8 (buildMasterIndex masterData) !! k = Some bucket ->
  bucket <> []
  /\ String.length k = 8%nat
  /\ forall e, In e bucket ->
       JS.all_chars JS.is_digit (Entry.barcode e) = true
       /\ (8 <= String.length (Entry.barcode e))%nat
       /\ JS.slice_last 8 (Entry.barcode e) = k
       /\ exists b, In (b, Entry.name e) masterData
                    /\ JS.digits_only b = Entry.barcode e.
Proof.
  rewrite built_bucket.
  destruct (bucket_of masterData k) as [|e0 tl] eqn:Hb; [discriminate|].
  intros [= <-]. split; [discriminate|].
  assert (Hall : forall e, In e (e0 :: tl) ->
            exists b, In (b, Entry.name e) masterData
                      /\ JS.digits_only b = Entry.barcode e
                      /\ (8 <= String.length (JS.digits_only b))%nat
                      /\ k = JS.slice_last 8 (JS.digits_only b)).
  { intros e He. rewrite <- Hb in He. apply list_elem_of_In in He.
    apply elem_of_bucket_of in He as (b & nm & Hin & Hk & ->).
    apply last8_key_spec in Hk as [Hl Hk]. exists b. cbn. auto. }
  split.
  - destruct (Hall e0 (or_introl eq_refl)) as (b & _ & _ & Hl & ->).
    now apply length_slice_last.
  - intros e He. destruct (Hall e He) as (b & Hin & Hd & Hl & Hk).
    rewrite <- Hd. split; [apply all_digits_only|].
    split; [exact Hl|]. split; [now symmetry|]. eauto.
Qed.

Lemma last8_buckets_wellformed_witness :
  let bucket := [Entry.mk "5012345678900" "Paracetamol 500mg"] in
  bucket <> []
  /\ String.length "45678900" = 8%nat
  /\ forall e, In e bucket ->
       JS.all_chars JS.is_digit (Entry.barcode e) = true
       /\ (8 <= String.length (Entry.barcode e))%nat
       /\ JS.slice_last 8 (Entry.barcode e) = "45678900"
       /\ exists b, In (b, Entry.name e) paracetamol_catalog
                    /\ JS.digits_only b = Entry.barcode e.
Proof.
  apply (last8_buckets_wellformed paracetamol_catalog "45678900").
  vm_compute. reflexivity.
Defined.

(** X3: an [EXACT] answer on a built index names a catalog entry: one
    whose identifier has digits, and whose digits without leading zeros
    are those of the queried [gtin14] or of the queried [gtin13]. *)
Theorem exact_answer_sound
    (masterData : list (string * string)) (gtin14 gtin13 : jsval)
    (r : MatchResult) :
  matchProduct (buildMasterIndex masterData) gtin14 gtin13 = Ok r ->
  type r = EXACT ->
  exists d14 d13 b,
    arg_digits gtin14 = Ok d14 /\ arg_digits gtin13 = Ok d13
    /\ In (b, name r) masterData
    /\ JS.digits_only b <> ""
    /\ (JS.strip_zeros (JS.digits_only b) = JS.strip_zeros d14
        \/ JS.strip_zeros (JS.digits_only b) = JS.strip_zeros d13).
Proof.
  intros Hm Ht.
  destruct (matchProduct_inv _ _ _ _ Hm) as (d14 & d13 & H14 & H13 & ->).
  destruct (match_digits_exact _ _ _ Ht) as (k & Hk & Hx).
  set (r := match_digits _ _ _) in *. clearbody r.
  destruct (exact_table_keys masterData k) as [Hlw _].
  rewrite Hlw in Hx.
  destruct (last_writer_some _ _ _ Hx) as (b & Hin & Hkb).
  destruct (exact_keys_digits _ _ Hkb) as [Hne Hz].
  destruct (lookup_key_digits d14 d13 k) as [Hd Hs];
    eauto using arg_digits_all_digits.
  exists d14, d13, b. repeat split; auto.
  - now apply nonempty_neq.
  - rewrite <- (Hz Hd). exact Hs.
Qed.

Lemma exact_answer_sound_witness :
  exists d14 d13 b,
    arg_digits (VStr "05012345678900") = Ok d14
    /\ arg_digits (VStr "5012345678900") = Ok d13
    /\ In (b, "Paracetamol 500mg") paracetamol_catalog
    /\ JS.digits_only b <> ""
    /\ (JS.strip_zeros (JS.digits_only b) = JS.strip_zeros d14
        \/ JS.strip_zeros (JS.digits_only b) = JS.strip_zeros d13).
Proof.
  apply (exact_answer_sound paracetamol_catalog
           (VStr "05012345678900") (VStr "5012345678900")
           {| name := "Paracetamol 500mg"; type := EXACT |});
    vm_compute; reflexivity.
Defined.

Lemma match_digits_inexact (idx : MasterIndex) (d14 d13 : string) :
  type (match_digits idx d14 d13) <> EXACT ->
  match_digits idx d14 d13
  = match last8_step idx d14 with
    | Some r => r
    | None => {| name := ""; type := NONE |}
    end.
Proof.
  unfold match_digits.
  destruct (exact_nonempty idx d14); [now intros []|].
  destruct (exact_nonempty idx d13); [now intros []|].
  destruct (exact idx !! JS.padStart 14 "0" d14); [now intros []|].
  destruct (exact_nonempty idx (JS.strip_zeros d14)); [now intros []|].
  destruct (last8_step idx d14); [reflexivity|].
  destruct (pad_step idx d14) as [r|] eqn:E; [|reflexivity].
  intros H. now apply pad_step_type in E.
Qed.

Lemma built_last8_step (md : list (string * string)) (d14 : string) :
  (8 <= String.length d14)%nat ->
  last8_step (buildMasterIndex md) d14
  = match bucket_of md (JS.slice_last 8 d14) with
    | [] => None
    | [m] => Some {| name := Entry.name m; type := LAST8 |}
    | m :: _ :: _ => Some {| name := Entry.name m; type := AMBIG |}
    end.
Proof.
  intros Hl. unfold last8_step.
  apply Nat.leb_le in Hl. rewrite Hl, built_bucket.
  destruct (bucket_of md (JS.slice_last 8 d14)) as [|m [|m' l]]; reflexivity.
Qed.

(** X4: on a built index and for a queried [gtin14] of at least eight
    digits, [LAST8] names the only catalog entry that shares its last
    eight digits, [AMBIG] names the first of at least two of them in
    catalog order, and [NONE] means that no entry shares them. *)
Theorem inexact_answer_counts
    (masterData : list (string * string)) (gtin14 gtin13 : jsval)
    (d14 : string) (r : MatchResult) :
  arg_digits gtin14 = Ok d14 ->
  (8 <= String.length d14)%nat ->
  matchProduct (buildMasterIndex masterData) gtin14 gtin13 = Ok r ->
  (type r = LAST8 ->
   exists pre b post,
     masterData = (pre ++ (b, name r) :: post)%list
     /\ same_last8 b d14
     /\ forall kv, In kv (pre ++ post)%list -> ~ same_last8 (fst kv) d14)
  /\ (type r = AMBIG ->
      exists pre b post,
        masterData = (pre ++ (b, name r) :: post)%list
        /\ same_last8 b d14
        /\ (forall kv, In kv pre -> ~ same_last8 (fst kv) d14)
        /\ exists kv, In kv post /\ same_last8 (fst kv) d14)
  /\ (type r = NONE ->
      forall kv, In kv masterData -> ~ same_last8 (fst kv) d14).
Proof.
  intros H14 Hl Hm.
  destruct (matchProduct_inv _ _ _ _ Hm) as (d14' & d13 & H14' & H13 & Hr).
  rewrite H14 in H14'. injection H14' as <-.
  assert (Hin : type r <> EXACT ->
            r = match bucket_of masterData (JS.slice_last 8 d14) with
                | [] => {| name := ""; type := NONE |}
                | [m] => {| name := Entry.name m; type := LAST8 |}
                | m :: _ :: _ => {| name := Entry.name m; type := AMBIG |}
                end).
  { intros Hne. rewrite Hr in Hne |- *.
    rewrite (match_digits_inexact _ _ _ Hne), built_last8_step by exact Hl.
    destruct (bucket_of _ _) as [|m [|m' l]]; reflexivity. }
  clear Hm Hr.
  destruct (bucket_of masterData (JS.slice_last 8 d14)) as [|m tl] eqn:Hb.
  - assert (Hno : forall kv, In kv masterData -> ~ same_last8 (fst kv) d14).
    { intros kv Hkv Hs. apply last8_key_same in Hs.
      revert Hkv Hs. now apply bucket_of_nil. }
    repeat split; intros Ht; try exact Hno;
      specialize (Hin ltac:(rewrite Ht; discriminate)); subst r;
      discriminate.
  - destruct (bucket_of_first _ _ _ _ Hb)
      as (pre & b & nm & post & -> & Hpre & Hk & -> & ->).
    apply last8_key_same in Hk.
    assert (Hpre' : forall kv, In kv pre -> ~ same_last8 (fst kv) d14).
    { intros kv Hkv Hs. apply last8_key_same in Hs. now apply (Hpre kv). }
    destruct (bucket_of post (JS.slice_last 8 d14)) as [|m' l] eqn:Hpost.
    + repeat split; intros Ht;
        specialize (Hin ltac:(rewrite Ht; discriminate)); subst r;
        try discriminate.
      exists pre, b, post. cbn [name Entry.name]. repeat split; auto; [apply Hk..|].
      intros kv [Hkv|Hkv]%in_app_or; [now apply Hpre'|].
      intros Hs. apply last8_key_same in Hs.
      revert Hkv Hs. now apply bucket_of_nil.
    + repeat split; intros Ht;
        specialize (Hin ltac:(rewrite Ht; discriminate)); subst r;
        try discriminate.
      exists pre, b, post. cbn [name Entry.name].
      split; [reflexivity|]. split; [exact Hk|]. split; [exact Hpre'|].
      assert (He : m' ∈ bucket_of post (JS.slice_last 8 d14))
        by (rewrite Hpost; apply elem_of_cons; now left).
      apply elem_of_bucket_of in He as (b' & nm' & Hin' & Hk' & _).
      exists (b', nm'). split; [exact Hin'|]. now apply last8_key_same.
Qed.

Lemma inexact_answer_counts_witness :
  let r := {| name := "Paracetamol 500mg"; type := LAST8 |} in
  let d14 := "99999945678900" in
  (type r = LAST8 ->
   exists pre b post,
     paracetamol_catalog = (pre ++ (b, name r) :: post)%list
     /\ same_last8 b d14
     /\ forall kv, In kv (pre ++ post)%list -> ~ same_last8 (fst kv) d14)
  /\ (type r = AMBIG ->
      exists pre b post,
        paracetamol_catalog = (pre ++ (b, name r) :: post)%list
        /\ same_last8 b d14
        /\ (forall kv, In kv pre -> ~ same_last8 (fst kv) d14)
        /\ exists kv, In kv post /\ same_last8 (fst kv) d14)
  /\ (type r = NONE ->
      forall kv, In kv paracetamol_catalog -> ~ same_last8 (fst kv) d14).
Proof.
  apply (inexact_answer_counts paracetamol_catalog
           (VStr "99999945678900") VNull).
  - reflexivity.
  - vm_compute. lia.
  - vm_compute. reflexivity.
Defined.

Lemma strip_zeros_nonempty (s : string) :
  JS.strip_zeros s <> "" -> s <> "".
Proof. now intros H ->. Qed.

Lemma stripped_in_exact_keys (b : string) :
  JS.strip_zeros (JS.digits_only b) <> "" ->
  JS.strip_zeros (JS.digits_only b) ∈ exact_keys b.
Proof.
  intros Hs. pose proof (strip_zeros_nonempty _ Hs) as Hd.
  apply nonempty_neq in Hs, Hd.
  unfold exact_keys. rewrite Hd, Hs; cbn [negb andb].
  destruct (String.eqb _ _) eqn:E; cbn [negb].
  - apply String.eqb_eq in E. rewrite E.
    apply elem_of_app. left. apply elem_of_cons. now left.
  - rewrite !elem_of_app. right. right. apply elem_of_cons. now left.
Qed.

(** X5: when the catalog holds an entry whose digits, leading zeros
    apart, are those of the queried [gtin14], and these are not all
    zeros, the answer of the matcher on the built index is [EXACT]. *)
Theorem exact_answer_complete
    (masterData : list (string * string)) (gtin14 gtin13 : jsval)
    (d14 b nm : string) :
  In (b, nm) masterData ->
  arg_digits gtin14 = Ok d14 ->
  string_or_falsy gtin13 ->
  JS.strip_zeros (JS.digits_only b) = JS.strip_zeros d14 ->
  JS.strip_zeros d14 <> "" ->
  exists n,
    matchProduct (buildMasterIndex masterData) gtin14 gtin13
    = Ok {| name := n; type := EXACT |}.
Proof.
  intros Hin H14 H13 Hz Hne.
  destruct (arg_digits_ok _ H13) as [d13 E13].
  rewrite (matchProduct_digits _ _ _ _ _ H14 E13).
  assert (Hx : is_Some (exact (buildMasterIndex masterData)
                          !! JS.strip_zeros d14)).
  { apply exact_table_keys. exists b, nm. split; [exact Hin|].
    rewrite <- Hz. apply stripped_in_exact_keys. now rewrite Hz. }
  destruct Hx as [n0 Hx].
  unfold match_digits.
  destruct (exact_nonempty _ d14); [eauto|].
  destruct (exact_nonempty _ d13); [eauto|].
  destruct (exact _ !! JS.padStart 14 "0" d14); [eauto|].
  unfold exact_nonempty.
  apply nonempty_neq in Hne. rewrite Hne, Hx. eauto.
Qed.

Lemma exact_answer_complete_witness :
  exists n,
    matchProduct (buildMasterIndex paracetamol_catalog)
      (VStr "0005012345678900") VUndefined
    = Ok {| name := n; type := EXACT |}.
Proof.
  apply (exact_answer_complete paracetamol_catalog
           (VStr "0005012345678900") VUndefined
           "0005012345678900" "5012345678900" "Paracetamol 500mg").
  - vm_compute. now left.
  - reflexivity.
  - right. reflexivity.
  - reflexivity.
  - discriminate.
Defined.

(** * Bare codes and scans without parentheses *)

Lemma normalized_nonempty (raw : string) :
  (0 < String.length (JS.gs_to_pipe (JS.trim raw)))%nat ->
  JS.nonempty raw = true.
Proof. destruct raw; [cbn; lia|reflexivity]. Qed.

Lemma parseGS1_bare_prim (env : Env) (rawText : string) :
  JS.digits_between 5 21 (JS.gs_to_pipe (JS.trim rawText)) = true ->
  JS.startsWith "01" (JS.gs_to_pipe (JS.trim rawText))
  && (16 <=? String.length (JS.gs_to_pipe (JS.trim rawText)))%nat = false ->
  parseGS1 env (VStr rawText)
  = Ok (set_gtin (JS.padStart 14 "0" (JS.gs_to_pipe (JS.trim rawText)))
          (JS.str_take 13 (JS.gs_to_pipe (JS.trim rawText)))
          (default_result (VStr rawText))).
Proof.
  set (code := JS.gs_to_pipe (JS.trim rawText)).
  intros Hd Hh.
  pose proof (digits_between_length _ _ _ Hd) as [Hdig Hlen].
  unfold parseGS1.
  rewrite normalized_nonempty by (fold code; lia). cbn [negb].
  fold code. rewrite Hd, (digits_no_paren code Hdig), Hh. cbn [negb andb].
  destruct (Nat.leb_spec (String.length code) 13) as [Hle|_].
  - now rewrite str_take_all by exact Hle.
  - reflexivity.
Qed.

(** X6: a text that, once trimmed, is 5 to 21 digits and is not a
    ["01"]-headed string of 16 digits or more is decoded as a bare code:
    [gtin14] is the digits padded with zeros to fourteen, so it has more
    than fourteen digits when the code has, [gtin13] is the first
    thirteen digits, and no other field is set. *)
Theorem parseGS1_bare_code (env : Env) (rawText : string) :
  let code := JS.gs_to_pipe (JS.trim rawText) in
  JS.digits_between 5 21 code = true ->
  JS.startsWith "01" code && (16 <=? String.length code)%nat = false ->
  parseGS1 env (VStr rawText)
  = Ok (set_gtin (JS.padStart 14 "0" code) (JS.str_take 13 code)
          (default_result (VStr rawText)))
  /\ String.length (JS.padStart 14 "0" code)
     = Nat.max 14 (String.length code)
  /\ JS.strip_zeros (JS.padStart 14 "0" code) = JS.strip_zeros code.
Proof.
  intros code Hd Hh.
  pose proof (digits_between_length _ _ _ Hd) as [Hdig Hlen].
  split; [|split].
  - apply (parseGS1_bare_prim env rawText Hd Hh).
  - rewrite length_padStart. lia.
  - apply strip_zeros_padStart.
Qed.

Lemma parseGS1_bare_code_witness :
  parseGS1 (fixed_zone 0 0) (VStr " 123456789012345 ")
  = Ok (set_gtin "123456789012345" "1234567890123"
          (default_result (VStr " 123456789012345 "))).
Proof.
  exact (proj1 (parseGS1_bare_code (fixed_zone 0 0) " 123456789012345 "
                  eq_refl eq_refl)).
Defined.

Lemma str_take_app (a s : string) :
  JS.str_take (String.length a) (a ++ s) = a.
Proof.
  induction a as [|c a IH]; [now destruct s|].
  rewrite app_cons. cbn [String.length JS.str_take]. now rewrite IH.
Qed.

Lemma take_while_app (p : ascii -> bool) (a s : string) :
  JS.all_chars p a = true ->
  JS.take_while p (a ++ s) = a ++ JS.take_while p s.
Proof.
  induction a as [|c a IH]; [now rewrite !app_nil_l|].
  cbn [JS.all_chars]. intros [Hc Ha]%andb_prop.
  rewrite !app_cons. cbn [JS.take_while]. now rewrite Hc, IH.
Qed.

Lemma includes_app (c : ascii) (a s : string) :
  JS.includes c (a ++ s) = JS.includes c a || JS.includes c s.
Proof.
  induction a as [|c' a IH]; [now rewrite app_nil_l|].
  rewrite app_cons. cbn [JS.includes]. now rewrite IH, orb_assoc.
Qed.

(** The conversion of a text that begins with ["01"] and fourteen more
    characters begins with ["(01)"] and those characters. *)
Lemma convert_01_head (g rest : string) :
  String.length g = 14%nat ->
  exists t, convertToParenthesized ("01" ++ g ++ rest)
            = Ok ("(01)" ++ g ++ t).
Proof.
  intros Hg. unfold convertToParenthesized.
  destruct (convert_loop_some (S (String.length ("01" ++ g ++ rest)))
              ("01" ++ g ++ rest) 0 "") as [res Hc]; [lia|].
  rewrite Hc. cbn [convert_loop] in Hc.
  change (String.length ("01" ++ g ++ rest))
    with (S (S (String.length (g ++ rest)))) in Hc.
  cbn [Nat.ltb Nat.leb] in Hc.
  change (JS.substring 0 2 ("01" ++ g ++ rest)) with "01" in Hc.
  change (ai_lookup "01") with (Some 14) in Hc.
  cbn [Z.ltb Z.compare String.length Nat.add] in Hc.
  change (JS.substring 2 (Z.to_nat 14) ("01" ++ g ++ rest))
    with (JS.str_take 14 (g ++ rest)) in Hc.
  rewrite <- Hg, str_take_app in Hc.
  apply convert_loop_extends in Hc as [t ->].
  exists t. rewrite !app_assoc. reflexivity.
Qed.

Lemma match_gtin_01 (g t : string) :
  JS.all_chars JS.is_digit g = true -> String.length g = 14%nat ->
  match_gtin ("(01)" ++ g ++ t) = Some g.
Proof.
  intros Hd Hg. unfold match_gtin.
  apply (regex_match_head _ _ _ _ _ (g ++ t)); [reflexivity|].
  unfold JS.capture. rewrite (take_while_app _ _ _ Hd), length_app.
  destruct (Nat.leb_spec 12 (String.length g
                             + String.length (JS.take_while JS.is_digit t)));
    [|lia].
  now rewrite <- Hg, str_take_app.
Qed.

(** X7: a scan without parentheses that begins with ["01"] and
    fourteen digits is decoded with those fourteen digits as [gtin14],
    whatever follows them, and [gtin13] is [gtin14] less one leading
    zero. *)
Theorem parseGS1_headerless_gtin (env : Env) (rawText g rest : string) :
  JS.gs_to_pipe (JS.trim rawText) = "01" ++ g ++ rest ->
  JS.all_chars JS.is_digit g = true ->
  String.length g = 14%nat ->
  JS.includes "(" rest = false ->
  exists r,
    parseGS1 env (VStr rawText) = Ok r
    /\ valid r = true /\ gtin14 r = g /\ gtin13 r = drop_zero g.
Proof.
  intros Hcode Hd Hg Hrest.
  destruct (convert_01_head g rest Hg) as [t Hconv].
  assert (Hp : JS.includes "(" ("(01)" ++ g ++ t) = true) by reflexivity.
  assert (Hnp : JS.includes "(" ("01" ++ g ++ rest) = false).
  { change ("01" ++ g ++ rest) with (String "0" (String "1" (g ++ rest))).
    cbn [JS.includes]. cbn [Ascii.eqb Bool.eqb orb].
    rewrite includes_app, Hrest, (digits_no_paren g Hd). reflexivity. }
  assert (Hx : forall result,
            exists r, extract env ("(01)" ++ g ++ t) result = Ok r
                      /\ valid r = true /\ gtin14 r = g
                      /\ gtin13 r = drop_zero g).
  { intros result.
    destruct (extract_fields env ("(01)" ++ g ++ t) result)
      as (r & E & _ & _ & Hgt & _).
    rewrite (match_gtin_01 g t Hd Hg) in Hgt.
    rewrite padStart_id in Hgt by lia.
    exists r. tauto. }
  assert (Hrest' : forall result,
            parse_rest env ("(01)" ++ g ++ t) result
            = extract env ("(01)" ++ g ++ t) result).
  { intros result. unfold parse_rest, with_parentheses.
    rewrite (paren_not_digits 5 7 _ Hp), Hp. reflexivity. }
  assert (Hlen : (16 <= String.length ("01" ++ g ++ rest))%nat).
  { change (String.length ("01" ++ g ++ rest))
      with (S (S (String.length (g ++ rest)))).
    rewrite length_app. lia. }
  unfold parseGS1.
  rewrite normalized_nonempty by (rewrite Hcode; lia). cbn [negb].
  rewrite Hcode, Hnp. cbn [negb]. rewrite andb_true_r.
  destruct (JS.digits_between 5 21 ("01" ++ g ++ rest)).
  - replace (JS.startsWith "01" ("01" ++ g ++ rest)) with true by reflexivity.
    destruct (Nat.leb_spec 16 (String.length ("01" ++ g ++ rest))); [|lia].
    cbn [andb]. rewrite Hconv. cbn [bind]. rewrite Hrest'. apply Hx.
  - unfold parse_rest.
    replace (JS.digits_between 5 7 ("01" ++ g ++ rest)) with false.
    2:{ symmetry. unfold JS.digits_between.
        destruct (Nat.leb_spec (String.length ("01" ++ g ++ rest)) 7);
          [lia|]. apply andb_false_r. }
    unfold with_parentheses. rewrite Hnp.
    replace (JS.two_digits_first ("01" ++ g ++ rest)) with true
      by reflexivity.
    cbn [negb andb]. rewrite Hconv. cbn [bind]. apply Hx.
Qed.

Lemma parseGS1_headerless_gtin_witness :
  exists r,
    parseGS1 (fixed_zone 0 0) (VStr "010501234567890017250228") = Ok r
    /\ valid r = true /\ gtin14 r = "05012345678900"
    /\ gtin13 r = drop_zero "05012345678900".
Proof.
  apply (parseGS1_headerless_gtin (fixed_zone 0 0)
           "010501234567890017250228" "05012345678900" "17250228");
    reflexivity.
Defined.

(** * Trimming *)

Lemma take_drop_while (p : ascii -> bool) (s : string) :
  s = JS.take_while p s ++ JS.drop_while p s.
Proof.
  induction s as [|c s IH]; [reflexivity|].
  cbn [JS.take_while JS.drop_while].
  destruct (p c); [|now rewrite app_nil_l].
  now rewrite app_cons, <- IH.
Qed.

Lemma length_drop_while (p : ascii -> bool) (s : string) :
  (String.length (JS.drop_while p s) <= String.length s)%nat.
Proof.
  induction s as [|c s IH]; cbn [JS.drop_while]; [lia|].
  destruct (p c); cbn [String.length]; lia.
Qed.

Lemma drop_while_idem (p : ascii -> bool) (s : string) :
  JS.drop_while p (JS.drop_while p s) = JS.drop_while p s.
Proof.
  induction s as [|c s IH]; [reflexivity|].
  cbn [JS.drop_while]. destruct (p c) eqn:Hc; [exact IH|].
  cbn [JS.drop_while]. now rewrite Hc.
Qed.

Lemma drop_while_prefix (p : ascii -> bool) (a b : string) :
  JS.drop_while p (a ++ b) = a ++ b -> JS.drop_while p a = a.
Proof.
  destruct a as [|c a]; [reflexivity|].
  rewrite app_cons. cbn [JS.drop_while].
  destruct (p c); [|reflexivity].
  intros H. pose proof (length_drop_while p (a ++ b)) as Hl.
  rewrite H in Hl. cbn [String.length] in Hl. lia.
Qed.

Lemma all_chars_drop_while (p q : ascii -> bool) (s : string) :
  JS.all_chars p s = true -> JS.all_chars p (JS.drop_while q s) = true.
Proof.
  induction s as [|c s IH]; [reflexivity|].
  cbn [JS.all_chars JS.drop_while]. intros [Hc Hs]%andb_prop.
  destruct (q c); [now apply IH|]. cbn [JS.all_chars]. now rewrite Hc, Hs.
Qed.

Lemma all_chars_filter (p q : ascii -> bool) (s : string) :
  JS.all_chars p s = true -> JS.all_chars p (JS.str_filter q s) = true.
Proof.
  induction s as [|c s IH]; [reflexivity|].
  cbn [JS.all_chars JS.str_filter]. intros [Hc Hs]%andb_prop.
  destruct (q c); [|now apply IH]. cbn [JS.all_chars]. now rewrite Hc, IH.
Qed.

Lemma all_chars_trim (p : ascii -> bool) (s : string) :
  JS.all_chars p s = true -> JS.all_chars p (JS.trim s) = true.
Proof.
  intros H. unfold JS.trim.
  rewrite all_chars_rev. apply all_chars_drop_while.
  rewrite all_chars_rev. now apply all_chars_drop_while.
Qed.

(** A trimmed text has no white space in front. *)
Lemma trim_no_leading_space (s : string) :
  JS.drop_while JS.is_space (JS.trim s) = JS.trim s.
Proof.
  unfold JS.trim.
  set (t := JS.drop_while JS.is_space s).
  pose proof (take_drop_while JS.is_space (JS.str_rev t)) as Hsplit.
  apply (f_equal JS.str_rev) in Hsplit.
  rewrite str_rev_involutive, str_rev_app in Hsplit.
  apply (drop_while_prefix _ _
           (JS.str_rev (JS.take_while JS.is_space (JS.str_rev t)))).
  rewrite <- Hsplit. apply drop_while_idem.
Qed.

Lemma trim_idem (s : string) : JS.trim (JS.trim s) = JS.trim s.
Proof.
  unfold JS.trim at 1. rewrite trim_no_leading_space.
  unfold JS.trim. now rewrite str_rev_involutive, drop_while_idem.
Qed.

(** * Invariants of the decoder *)

(** What holds of the default record and is kept by the assignments of
    [parseGS1] holds of every record it returns. *)
Lemma parseGS1_invariant (env : Env) (P : ParsedCode -> Prop) :
  (forall v, P (default_result v)) ->
  (forall g14 g13 r, P r -> P (set_gtin g14 g13 r)) ->
  (forall code r r', P r -> extract env code r = Ok r' -> P r') ->
  forall v r, parseGS1 env v = Ok r -> P r.
Proof.
  intros Hdef Hset Hext.
  assert (Hrest : forall code r r',
            P r -> parse_rest env code r = Ok r' -> P r').
  { intros code r r' Hr. unfold parse_rest.
    destruct (JS.digits_between 5 7 code); [intros [= <-]; now apply Hset|].
    destruct (with_parentheses code) as [c1| |]; cbn [bind]; try discriminate.
    now apply Hext. }
  intros v r. unfold parseGS1.
  destruct v as [| | | |s|]; try (intros [= <-]; apply Hdef).
  destruct (JS.nonempty s); cbn [negb]; [|intros [= <-]; apply Hdef].
  destruct (_ && negb _); [|apply Hrest, Hdef].
  destruct (_ && _).
  - destruct (convertToParenthesized _) as [c1| |]; cbn [bind];
      try discriminate.
    apply Hrest, Hset, Hdef.
  - intros [= <-]. apply Hset, Hdef.
Qed.

Lemma clean_field_empty : clean_field "".
Proof. split; reflexivity. Qed.

Lemma clean_field_captured (p : string) (code b : string) :
  JS.regex_match p field_char 1 None code = Some b ->
  clean_field (JS.trim (JS.drop_pipes b)).
Proof.
  intros H. apply regex_match_sound in H as [Hb _].
  split; [|apply trim_idem].
  apply all_chars_trim. unfold JS.drop_pipes. now apply all_chars_filter.
Qed.

(** X8: the batch and the serial number of every decoded record hold
    none of the characters ['('], ['|'] and GS and no white space at
    either end. *)
Theorem parseGS1_text_fields_clean (env : Env) (raw : jsval)
    (r : ParsedCode) :
  parseGS1 env raw = Ok r ->
  clean_field (batch r) /\ clean_field (serial r)
  /\ JS.includes "(" (batch r) = false
  /\ JS.includes "(" (serial r) = false.
Proof.
  intros H.
  assert (Hc : clean_field (batch r) /\ clean_field (serial r)).
  { revert raw r H.
    apply (parseGS1_invariant env
             (fun r => clean_field (batch r) /\ clean_field (serial r))).
    - intros v. split; apply clean_field_empty.
    - intros g14 g13 r Hr. exact Hr.
    - intros code r r' [Hb Hs] E.
      destruct (extract_fields env code r)
        as (r0 & E0 & _ & _ & _ & _ & Hb0 & Hs0 & _).
      rewrite E in E0. injection E0 as <-.
      rewrite Hb0, Hs0. split.
      + destruct (match_batch code) as [b|] eqn:Eb; [|exact Hb].
        eapply clean_field_captured. exact Eb.
      + destruct (match_serial code) as [sn|] eqn:Es; [|exact Hs].
        eapply clean_field_captured. exact Es. }
  destruct Hc as [Hb Hs]. repeat split; try apply Hb; try apply Hs.
  - apply includes_none. destruct Hb as [Hb _]. revert Hb.
    apply all_chars_impl. intros c. unfold field_char.
    destruct (Ascii.eqb c "("); [discriminate|reflexivity].
  - apply includes_none. destruct Hs as [Hs _]. revert Hs.
    apply all_chars_impl. intros c. unfold field_char.
    destruct (Ascii.eqb c "("); [discriminate|reflexivity].
Qed.

Lemma parseGS1_text_fields_clean_witness :
  let r := set_serial "S 9"
             (set_batch "AB12"
                (set_gtin "05012345678900" "5012345678900"
                   (default_result (VStr "(01)05012345678900(10) AB12 |(21)S 9")))) in
  clean_field (batch r) /\ clean_field (serial r)
  /\ JS.includes "(" (batch r) = false
  /\ JS.includes "(" (serial r) = false.
Proof.
  apply (parseGS1_text_fields_clean (fixed_zone 0 0)
           (VStr "(01)05012345678900(10) AB12 |(21)S 9")).
  vm_compute. reflexivity.
Defined.

(** * From a scan to the catalog *)

Lemma arg_digits_digits (s : string) :
  JS.all_chars JS.is_digit s = true -> arg_digits (VStr s) = Ok s.
Proof.
  intros H. unfold arg_digits. cbn [truthy].
  destruct s as [|c s]; [reflexivity|]. cbn [JS.nonempty].
  now rewrite digits_only_id.
Qed.



(** * Expiry dates away from UTC *)

Lemma days_from_civil_day (y m d : Z) :
  days_from_civil y m d = days_from_civil y m 1 + d - 1.
Proof. unfold days_from_civil. cbv zeta. lia. Qed.

Lemma MakeDay_civil (y m d : Z) :
  1 <= m <= 12 -> MakeDay y (m - 1) d = days_from_civil y m d.
Proof.
  intros Hm. unfold MakeDay.
  rewrite (Z.div_small (m - 1) 12), (Z.mod_small (m - 1) 12) by lia.
  rewrite (days_from_civil_day y m d).
  replace (y + 0) with y by lia. replace (m - 1 + 1) with m by lia.
  reflexivity.
Qed.

Lemma div_day_shift (n off : Z) :
  - msPerDay < off < msPerDay ->
  (n * msPerDay - off) / msPerDay = n - (if 0 <? off then 1 else 0)
  /\ (n * msPerDay + off) / msPerDay = n - (if off <? 0 then 1 else 0).
Proof.
  intros Hoff. unfold msPerDay in *. split.
  - destruct (Z.ltb_spec 0 off); symmetry.
    + apply (Z.div_unique _ _ _ (86400000 - off)); lia.
    + apply (Z.div_unique _ _ _ (- off)); lia.
  - destruct (Z.ltb_spec off 0); symmetry.
    + apply (Z.div_unique _ _ _ (86400000 + off)); lia.
    + apply (Z.div_unique _ _ _ off); lia.
Qed.

(** The ISO date that [parseExpiryDate] stores for a date of the
    calendar, in a zone with one offset. *)
Lemma parseExpiryDate_fixed_zone (clock off : Z)
    (y1 y2 m1 m2 d1 d2 : ascii) :
  JS.is_digit y1 = true -> JS.is_digit y2 = true ->
  JS.is_digit m1 = true -> JS.is_digit m2 = true ->
  JS.is_digit d1 = true -> JS.is_digit d2 = true ->
  let yy := String y1 (String y2 "") in
  let mm := String m1 (String m2 "") in
  let dd := String d1 (String d2 "") in
  let year := 2000 + digits_value 10 yy 0 in
  let month := digits_value 10 mm 0 in
  let day := digits_value 10 dd 0 in
  1 <= month <= 12 -> 1 <= day <= days_in_month year month ->
  - msPerDay < off < msPerDay ->
  exists p,
    parseExpiryDate (fixed_zone clock off) (yy ++ mm ++ dd) = Ok p
    /\ iso p = iso_of_day (days_from_civil year month day
                           - (if 0 <? off then 1 else 0))
    /\ 10926 <= days_from_civil year month day <= 50200.
Proof.
  intros Hy1 Hy2 Hm1 Hm2 Hd1 Hd2 yy mm dd year month day Hm Hday Hoff.
  pose proof (two_digits_value y1 y2 Hy1 Hy2) as Ty.
  pose proof (two_digits_value m1 m2 Hm1 Hm2) as Tm.
  pose proof (two_digits_value d1 d2 Hd1 Hd2) as Td.
  cbv zeta in Ty, Tm, Td. fold yy in Ty. fold mm in Tm. fold dd in Td.
  destruct Ty as (Hyr & _ & _ & Hpy & _).
  destruct Tm as (Hmr & Hpm & _ & _ & _).
  destruct Td as (Hdr & Hpd & _ & _ & _).
  unfold parseExpiryDate.
  change (JS.substring 0 2 (yy ++ mm ++ dd)) with yy.
  change (JS.substring 2 2 (yy ++ mm ++ dd)) with mm.
  change (JS.substring 4 2 (yy ++ mm ++ dd)) with dd.
  change ("20" ++ yy) with (String "2" (String "0" yy)).
  rewrite Hpy, Hpm, Hpd.
  fold year. fold month. fold day.
  eexists. split; [reflexivity|]. cbn [iso].
  destruct (Z.eqb_spec day 0) as [E|_]; [lia|].
  unfold toISODate, Date_ymd.
  destruct (Z.leb_spec year 99); [unfold year in *; lia|].
  rewrite andb_false_r.
  rewrite (MakeDay_civil year month day Hm).
  unfold UTC, fixed_zone; cbn [tzaOfLocal].
  rewrite (proj1 (div_day_shift _ off Hoff)).
  split; [reflexivity|].
  pose proof (days_in_month_le year month).
  destruct (field_days (digits_value 10 yy 0) month Hyr ltac:(lia))
    as [Hfirst _].
  fold year in Hfirst.
  rewrite (MakeDay_civil year month 1 Hm) in Hfirst.
  rewrite (days_from_civil_day year month day). lia.
Qed.

(** X10: in a zone with one offset from UTC, less than a day either
    way, the expiry field YYMMDD of a date of the calendar is displayed
    as that date, and the ISO date stored in [iso] is that date when the
    offset is zero or negative and the day before it when the offset is
    positive (east of Greenwich): [parseExpiryDate] takes the UTC date
    of the local midnight. *)
Theorem expiry_iso_day_in_fixed_zone (clock off : Z)
    (y1 y2 m1 m2 d1 d2 : ascii) :
  JS.is_digit y1 = true -> JS.is_digit y2 = true ->
  JS.is_digit m1 = true -> JS.is_digit m2 = true ->
  JS.is_digit d1 = true -> JS.is_digit d2 = true ->
  let yy := String y1 (String y2 "") in
  let mm := String m1 (String m2 "") in
  let dd := String d1 (String d2 "") in
  let year := 2000 + digits_value 10 yy 0 in
  let month := digits_value 10 mm 0 in
  let day := digits_value 10 dd 0 in
  1 <= month <= 12 -> 1 <= day <= days_in_month year month ->
  - msPerDay < off < msPerDay ->
  exists p,
    parseExpiryDate (fixed_zone clock off) (yy ++ mm ++ dd) = Ok p
    /\ formatted p = dd ++ "/" ++ mm ++ "/" ++ "20" ++ yy
    /\ Date_parse (iso p)
       = Some ((days_from_civil year month day
                - (if 0 <? off then 1 else 0)) * msPerDay).
Proof.
  intros Hy1 Hy2 Hm1 Hm2 Hd1 Hd2 yy mm dd year month day Hm Hday Hoff.
  destruct (parseExpiryDate_fixed_zone clock off y1 y2 m1 m2 d1 d2
              Hy1 Hy2 Hm1 Hm2 Hd1 Hd2 Hm Hday Hoff) as (p & Hp & Hiso & Hr).
  fold yy mm dd year month day in Hp, Hiso, Hr.
  destruct (parseExpiryDate_fields (fixed_zone clock off) y1 y2 m1 m2 d1 d2
              Hy1 Hy2 Hm1 Hm2 Hd1 Hd2) as (p' & Hp' & Hf & _).
  fold yy mm dd year month day in Hp', Hf.
  rewrite Hp in Hp'. injection Hp' as <-.
  exists p. split; [exact Hp|]. split.
  - rewrite Hf. destruct (Z.eqb_spec day 0); [lia|].
    pose proof (two_digits_value d1 d2 Hd1 Hd2) as Td.
    cbv zeta in Td. destruct Td as (_ & _ & Hpad & _).
    fold dd in Hpad. fold day in Hpad. now rewrite Hpad.
  - rewrite Hiso. apply iso_of_day_parses.
    destruct (0 <? off); lia.
Qed.

Lemma expiry_iso_day_in_fixed_zone_witness :
  exists p,
    parseExpiryDate (fixed_zone 0 3600000) "250228" = Ok p
    /\ formatted p = "28/02/2025"
    /\ Date_parse (iso p)
       = Some ((days_from_civil 2025 2 28 - 1) * msPerDay).
Proof.
  apply (expiry_iso_day_in_fixed_zone 0 3600000 "2" "5" "0" "2" "2" "8");
    try reflexivity; vm_compute; split; congruence.
Defined.

(** X11: in a zone with one offset from UTC, less than a day either
    way, the status of a decoded expiry date is decided by the number of
    days from the local day of the clock to the date of the field, less
    one day unless the offset is zero: below 0 [expired], up to 90
    [soon], beyond [ok]. *)
Theorem expiry_status_in_fixed_zone (clock off : Z)
    (y1 y2 m1 m2 d1 d2 : ascii) :
  JS.is_digit y1 = true -> JS.is_digit y2 = true ->
  JS.is_digit m1 = true -> JS.is_digit m2 = true ->
  JS.is_digit d1 = true -> JS.is_digit d2 = true ->
  let yy := String y1 (String y2 "") in
  let mm := String m1 (String m2 "") in
  let dd := String d1 (String d2 "") in
  let year := 2000 + digits_value 10 yy 0 in
  let month := digits_value 10 mm 0 in
  let day := digits_value 10 dd 0 in
  1 <= month <= 12 -> 1 <= day <= days_in_month year month ->
  - msPerDay < off < msPerDay ->
  let today := (clock + off) / msPerDay in
  let diffDays :=
    days_from_civil year month day - today
    - (if off =? 0 then 0 else 1) in
  exists p,
    parseExpiryDate (fixed_zone clock off) (yy ++ mm ++ dd) = Ok p
    /\ calculateExpiryStatus (fixed_zone clock off) (Some (iso p))
       = (if diffDays <? 0 then expired
          else if diffDays <=? 90 then soon
          else ok).
Proof.
  intros Hy1 Hy2 Hm1 Hm2 Hd1 Hd2 yy mm dd year month day Hm Hday Hoff
    today diffDays.
  destruct (parseExpiryDate_fixed_zone clock off y1 y2 m1 m2 d1 d2
              Hy1 Hy2 Hm1 Hm2 Hd1 Hd2 Hm Hday Hoff) as (p & Hp & Hiso & Hr).
  fold yy mm dd year month day in Hp, Hiso, Hr.
  exists p. split; [exact Hp|].
  set (D := days_from_civil year month day) in *.
  set (s := if 0 <? off then 1 else 0) in *.
  assert (Hparse : Date_parse (iso p) = Some ((D - s) * msPerDay)).
  { rewrite Hiso. apply iso_of_day_parses. unfold s. destruct (0 <? off); lia. }
  unfold calculateExpiryStatus.
  rewrite Hiso, iso_of_day_nonempty, <- Hiso. cbn [negb].
  unfold expiry_midnight. rewrite Hparse.
  unfold today_midnight, setHours0, LocalTime, UTC, fixed_zone;
    cbn [now tzaOfUtc tzaOfLocal].
  rewrite (proj2 (div_day_shift (D - s) off Hoff)).
  fold today.
  assert (Hdiff :
    ceil_div ((D - s - (if off <? 0 then 1 else 0)) * msPerDay - off
              - (today * msPerDay - off)) msPerDay = diffDays).
  { unfold ceil_div.
    replace (- ((D - s - (if off <? 0 then 1 else 0)) * msPerDay - off
                - (today * msPerDay - off)))
      with ((today - (D - s - (if off <? 0 then 1 else 0))) * msPerDay)
      by lia.
    rewrite Z.div_mul by discriminate.
    unfold diffDays, s.
    destruct (Z.ltb_spec 0 off), (Z.ltb_spec off 0), (Z.eqb_spec off 0);
      lia. }
  rewrite Hdiff. reflexivity.
Qed.

Lemma expiry_status_in_fixed_zone_witness :
  exists p,
    parseExpiryDate (fixed_zone 1740744000000 (-3600000)) "250228" = Ok p
    /\ calculateExpiryStatus (fixed_zone 1740744000000 (-3600000))
         (Some (iso p))
       = expired.
Proof.
  refine (expiry_status_in_fixed_zone 1740744000000 (-3600000)
            "2" "5" "0" "2" "2" "8"
            eq_refl eq_refl eq_refl eq_refl eq_refl eq_refl _ _ _);
    vm_compute; split; congruence.
Defined.

(** * Lines of a catalog file *)

Lemma not_quote_app (s t : string) :
  JS.includes JStr.DQ (s ++ t) = false <->
  JS.includes JStr.DQ s = false /\ JS.includes JStr.DQ t = false.
Proof. rewrite includes_app. apply orb_false_iff. Qed.

Lemma includes_all_chars (c : ascii) (s : string) :
  JS.includes c s = false
  <-> JS.all_chars (fun c' => negb (Ascii.eqb c' c)) s = true.
Proof.
  induction s as [|a s IH]; [now split|].
  cbn [JS.includes JS.all_chars].
  rewrite orb_false_iff, andb_true_iff, negb_true_iff, IH. reflexivity.
Qed.

Lemma includes_rev (c : ascii) (s : string) :
  JS.includes c (JS.str_rev s) = JS.includes c s.
Proof.
  induction s as [|a s IH]; [reflexivity|].
  rewrite str_rev_cons, includes_app, IH. cbn [JS.includes].
  rewrite orb_false_r. apply orb_comm.
Qed.

Lemma includes_trim (c : ascii) (s : string) :
  JS.includes c s = false -> JS.includes c (JS.trim s) = false.
Proof. rewrite !includes_all_chars. apply all_chars_trim. Qed.

Lemma strip_edge_quotes_id (s : string) :
  JS.includes JStr.DQ s = false -> JStr.strip_edge_quotes s = s.
Proof.
  intros H. unfold JStr.strip_edge_quotes.
  assert (Hs1 : match s with
                | String c t => if Ascii.eqb c JStr.DQ then t else s
                | EmptyString => s
                end = s).
  { destruct s as [|c t]; [reflexivity|].
    cbn [JS.includes] in H. apply orb_false_iff in H as [-> _].
    reflexivity. }
  rewrite Hs1.
  rewrite <- includes_rev in H.
  destruct (JS.str_rev s) as [|c t]; [reflexivity|].
  cbn [JS.includes] in H. apply orb_false_iff in H as [-> _]. reflexivity.
Qed.

(** A field is trimmed text without a double quote, once the text read
    has none. *)
Lemma csv_field_clean (current : string) :
  JS.includes JStr.DQ current = false ->
  csv_field current = JS.trim current
  /\ JS.includes JStr.DQ (csv_field current) = false
  /\ JS.trim (csv_field current) = csv_field current.
Proof.
  intros H. unfold csv_field.
  rewrite strip_edge_quotes_id by now apply includes_trim.
  split; [reflexivity|]. split; [now apply includes_trim|apply trim_idem].
Qed.

Lemma snoc_no_quote (current : string) (c : ascii) :
  JS.includes JStr.DQ current = false -> Ascii.eqb c JStr.DQ = false ->
  JS.includes JStr.DQ (JStr.snoc current c) = false.
Proof.
  intros H Hc. unfold JStr.snoc. apply not_quote_app. split; [exact H|].
  cbn [JS.includes]. now rewrite Hc.
Qed.

Lemma csv_loop_fields (d : ascii) (line current : string) (q : bool) :
  JS.includes JStr.DQ current = false ->
  Forall (fun f => JS.includes JStr.DQ f = false /\ JS.trim f = f)
    (csv_loop d line current q).
Proof.
  revert current q. induction line as [|c line IH]; intros current q H.
  - cbn [csv_loop]. constructor; [|constructor].
    apply (csv_field_clean current H).
  - cbn [csv_loop]. destruct (Ascii.eqb c JStr.DQ) eqn:Hc; [now apply IH|].
    destruct (Ascii.eqb c d && negb q).
    + constructor; [apply (csv_field_clean current H)|now apply IH].
    + apply IH. now apply snoc_no_quote.
Qed.

Lemma csv_loop_nonempty (d : ascii) (line current : string) (q : bool) :
  csv_loop d line current q <> [].
Proof.
  revert current q. induction line as [|c line IH]; intros current q;
    cbn [csv_loop]; [discriminate|].
  destruct (Ascii.eqb c JStr.DQ); [apply IH|].
  destruct (_ && _); [discriminate|apply IH].
Qed.

(** X12: [parseCSVLine] returns at least one field, and no field holds
    a double quote or white space at either end; the removal of a quote
    at the ends of a field therefore never changes it. *)
Theorem parseCSVLine_fields_clean (line : string) (delimiter : ascii) :
  parseCSVLine line delimiter <> []
  /\ Forall (fun f => JS.includes JStr.DQ f = false
                      /\ JS.trim f = f
                      /\ JStr.strip_edge_quotes f = f)
       (parseCSVLine line delimiter).
Proof.
  split; [apply csv_loop_nonempty|].
  unfold parseCSVLine.
  eapply Forall_impl; [apply csv_loop_fields; reflexivity|].
  intros f [Hq Ht]. cbn beta. repeat split; auto.
  now apply strip_edge_quotes_id.
Qed.

(** * A row written by [exportCSV] and read by [parseCSVLine] *)

Lemma delete_quotes_no_quote (s : string) :
  JS.includes JStr.DQ (JStr.delete_quotes s) = false.
Proof.
  induction s as [|c s IH]; [reflexivity|].
  unfold JStr.delete_quotes in *. cbn [JS.str_filter].
  destruct (Ascii.eqb c JStr.DQ) eqn:Hc; cbn [negb]; [exact IH|].
  cbn [JS.includes]. now rewrite Hc, IH.
Qed.

Lemma delete_quotes_id (s : string) :
  JS.includes JStr.DQ s = false -> JStr.delete_quotes s = s.
Proof.
  induction s as [|c s IH]; [reflexivity|].
  cbn [JS.includes]. intros [Hc Hs]%orb_false_iff.
  unfold JStr.delete_quotes in *. cbn [JS.str_filter]. rewrite Hc.
  cbn [negb]. now rewrite IH.
Qed.

Lemma csv_loop_quoted (d : ascii) (cell rest current : string) :
  csv_loop d (JStr.double_quotes cell ++ String JStr.DQ rest) current true
  = csv_loop d rest (current ++ JStr.delete_quotes cell) false.
Proof.
  revert current. induction cell as [|c cell IH]; intros current.
  - cbn [JStr.double_quotes]. rewrite app_nil_l. cbn [csv_loop].
    rewrite Ascii.eqb_refl. cbn [negb].
    unfold JStr.delete_quotes; cbn [JS.str_filter]. now rewrite app_nil_r.
  - cbn [JStr.double_quotes]. unfold JStr.delete_quotes in *.
    cbn [JS.str_filter].
    destruct (Ascii.eqb c JStr.DQ) eqn:Hc; cbn [negb].
    + rewrite !app_cons. cbn [csv_loop]. rewrite !Ascii.eqb_refl.
      cbn [negb]. apply IH.
    + rewrite app_cons. cbn [csv_loop]. rewrite Hc.
      cbn [negb]. rewrite andb_false_r.
      rewrite IH. unfold JStr.snoc. now rewrite app_assoc, app_cons, app_nil_l.
Qed.

Lemma csv_loop_cell (d : ascii) (cell rest : string) :
  csv_loop d (csv_cell cell ++ rest) "" false
  = csv_loop d rest (JStr.delete_quotes cell) false.
Proof.
  unfold csv_cell. rewrite app_cons, app_assoc, app_cons, app_nil_l.
  cbn [csv_loop]. rewrite Ascii.eqb_refl. cbn [negb].
  now rewrite csv_loop_quoted, app_nil_l.
Qed.

Lemma csv_field_unquoted (cell : string) :
  csv_field (JStr.delete_quotes cell) = JS.trim (JStr.delete_quotes cell).
Proof. apply csv_field_clean, delete_quotes_no_quote. Qed.

(** X13: the row [exportCSV] writes for a non-empty list of cells is
    read by [parseCSVLine] with a comma as that many fields, each the
    cell without its double quotes, trimmed; cells without double quotes
    and without white space at their ends are read back as they
    were, commas inside them included. *)
Theorem exported_row_reads_back (cells : list string) :
  cells <> [] ->
  parseCSVLine (csv_row cells) ","
  = map (fun cell => JS.trim (JStr.delete_quotes cell)) cells
  /\ (Forall (fun cell => JS.includes JStr.DQ cell = false
                          /\ JS.trim cell = cell) cells ->
      parseCSVLine (csv_row cells) "," = cells).
Proof.
  intros Hne.
  assert (H : parseCSVLine (csv_row cells) ","
              = map (fun cell => JS.trim (JStr.delete_quotes cell)) cells).
  { unfold parseCSVLine, csv_row.
    induction cells as [|c cells IH]; [contradiction|].
    destruct cells as [|c' cells].
    - cbn [map JStr.join].
      rewrite <- (app_nil_r (csv_cell c)), csv_loop_cell. cbn [csv_loop].
      now rewrite csv_field_unquoted.
    - change (JStr.join "," (map csv_cell (c :: c' :: cells)))
        with (csv_cell c ++ "," ++ JStr.join "," (map csv_cell (c' :: cells))).
      rewrite csv_loop_cell.
      change ("," ++ JStr.join "," (map csv_cell (c' :: cells)))
        with (String "," (JStr.join "," (map csv_cell (c' :: cells)))).
      cbn [csv_loop].
      change (Ascii.eqb "," JStr.DQ) with false.
      change (Ascii.eqb "," ",") with true. cbn [andb negb].
      rewrite csv_field_unquoted, IH by discriminate. reflexivity. }
  split; [exact H|].
  intros Hclean. rewrite H. clear H Hne.
  induction Hclean as [|c cells [Hq Ht] _ IH]; [reflexivity|].
  cbn [map]. now rewrite delete_quotes_id, Ht, IH.
Qed.

Lemma exported_row_reads_back_witness :
  parseCSVLine (csv_row ["a,b"; " x "; String JStr.DQ "q"]) ","
  = ["a,b"; "x"; "q"].
Proof.
  exact (proj1 (exported_row_reads_back
                  ["a,b"; " x "; String JStr.DQ "q"] ltac:(discriminate))).
Defined.

(** * Reading a catalog file *)

Lemma product_of_row_sound (d : ascii) (b n : nat) (line : string)
    (p : Product.t) :
  product_of_row d b n line = Some p ->
  JS.all_chars JS.is_digit (Product.gtin p) = true
  /\ (8 <= String.length (Product.gtin p))%nat
  /\ Product.name p <> ""
  /\ JS.trim (Product.name p) = Product.name p.
Proof.
  unfold product_of_row.
  destruct (_ <=? _)%nat; [discriminate|].
  destruct (Nat.leb_spec 8 (String.length
              (JS.digits_only (nth b (parseCSVLine line d) ""))));
    [|discriminate].
  destruct (JS.nonempty _) eqn:Hn; [|discriminate].
  intros [= <-]. cbn [Product.gtin Product.name].
  split; [apply all_digits_only|]. split; [assumption|].
  split; [now apply nonempty_neq|apply trim_idem].
Qed.

(** The products returned are those of the rows that give one. *)
Lemma parseMasterFile_rows
    (content filename : string) (products : list Product.t) :
  parseMasterFile content filename = Returns products ->
  exists delimiter barcodeCol nameCol rows,
    products = omap (product_of_row delimiter barcodeCol nameCol) rows.
Proof.
  unfold parseMasterFile.
  destruct (List.filter _ _) as [|firstLine rows]; [discriminate|].
  destruct (JStr.findIndex (header_has barcode_words) _) as [b|];
    [|discriminate].
  destruct (JStr.findIndex (header_has name_words) _) as [n|];
    [|discriminate].
  destruct (omap _ rows) as [|p ps] eqn:E; [discriminate|].
  intros [= <-]. eauto.
Qed.

(** X14: the list [parseMasterFile] returns is never empty, and each
    of its products has an identifier of at least eight characters, all
    digits, and a name that is not empty and has no white space at
    either end. *)
Theorem parseMasterFile_products_wellformed
    (content filename : string) (products : list Product.t) :
  parseMasterFile content filename = Returns products ->
  products <> []
  /\ Forall (fun p =>
               JS.all_chars JS.is_digit (Product.gtin p) = true
               /\ (8 <= String.length (Product.gtin p))%nat
               /\ Product.name p <> ""
               /\ JS.trim (Product.name p) = Product.name p)
       products.
Proof.
  intros H. split.
  - revert H. unfold parseMasterFile.
    destruct (List.filter _ _) as [|firstLine rows]; [discriminate|].
    destruct (JStr.findIndex (header_has barcode_words) _) as [b|];
      [|discriminate].
    destruct (JStr.findIndex (header_has name_words) _) as [n|];
      [|discriminate].
    destruct (omap _ rows) as [|p ps]; [discriminate|].
    intros [= <-]. discriminate.
  - destruct (parseMasterFile_rows _ _ _ H) as (d & b & n & rows & ->).
    apply Forall_forall. intros p Hin.
    apply list_elem_of_omap in Hin as (line & _ & Hp).
    eapply product_of_row_sound. exact Hp.
Qed.

Lemma trim_blank (s : string) :
  JS.all_chars JS.is_space s = true -> JS.trim s = "".
Proof.
  intros H. unfold JS.trim.
  replace (JS.drop_while JS.is_space s) with "".
  - reflexivity.
  - induction s as [|c s IH]; [reflexivity|].
    cbn [JS.all_chars] in H. apply andb_prop in H as [Hc Hs].
    cbn [JS.drop_while]. rewrite Hc. now apply IH.
Qed.

Lemma drop_while_empty (p : ascii -> bool) (s : string) :
  JS.drop_while p s = "" -> JS.all_chars p s = true.
Proof.
  induction s as [|c s IH]; [reflexivity|].
  cbn [JS.drop_while JS.all_chars].
  destruct (p c); [exact IH|discriminate].
Qed.

Lemma str_rev_empty (s : string) : JS.str_rev s = "" -> s = "".
Proof.
  intros H. apply (f_equal JS.str_rev) in H.
  now rewrite str_rev_involutive in H.
Qed.

Lemma trim_empty_blank (s : string) :
  JS.trim s = "" -> JS.all_chars JS.is_space s = true.
Proof.
  unfold JS.trim. intros H.
  apply str_rev_empty, drop_while_empty in H.
  rewrite all_chars_rev in H.
  rewrite (take_drop_while JS.is_space s), all_chars_app, H.
  now rewrite take_while_sat.
Qed.

Lemma snoc_blank (s : string) (c : ascii) :
  JS.all_chars JS.is_space (JStr.snoc s c)
  = JS.all_chars JS.is_space s && JS.is_space c.
Proof.
  unfold JStr.snoc. rewrite all_chars_app. cbn [JS.all_chars].
  now rewrite andb_true_r.
Qed.

(** The lines of a text are all blank exactly when the text is. *)
Lemma split_lines_blank (s current : string) :
  forallb (fun l => JS.all_chars JS.is_space l)
    (JStr.split_lines_go s current)
  = JS.all_chars JS.is_space current && JS.all_chars JS.is_space s.
Proof.
  remember (String.length s) as n eqn:Hn.
  revert s current Hn.
  induction n as [n IH] using lt_wf_ind. intros s current ->.
  destruct s as [|a s]; cbn [JStr.split_lines_go].
  - cbn. now rewrite !andb_true_r.
  - cbn [JS.all_chars].
    destruct (Ascii.eqb a JStr.LF) eqn:Ha.
    { apply Ascii.eqb_eq in Ha as ->. cbn [forallb].
      rewrite (IH (String.length s)) by (cbn; lia || reflexivity).
      reflexivity. }
    destruct (Ascii.eqb a JStr.CR) eqn:Hc.
    + apply Ascii.eqb_eq in Hc as ->.
      destruct s as [|b s].
      * cbn [JStr.split_lines_go forallb]. rewrite snoc_blank.
        cbn. now rewrite !andb_true_r.
      * destruct (Ascii.eqb b JStr.LF) eqn:Hb.
        -- apply Ascii.eqb_eq in Hb as ->. cbn [forallb].
           rewrite (IH (String.length s)) by (cbn; lia || reflexivity).
           reflexivity.
        -- rewrite (IH (String.length (String b s)))
             by (cbn; lia || reflexivity).
           rewrite snoc_blank. cbn [JS.all_chars].
           change (JS.is_space JStr.CR) with true.
           now rewrite andb_true_r.
    + rewrite (IH (String.length s)) by (cbn; lia || reflexivity).
      rewrite snoc_blank. now rewrite andb_assoc.
Qed.

Lemma filter_nil_forallb {A : Type} (p : A -> bool) (l : list A) :
  List.filter p l = [] <-> forallb (fun x => negb (p x)) l = true.
Proof.
  induction l as [|x l IH]; [now split|].
  cbn [List.filter forallb]. destruct (p x); cbn [negb andb].
  - split; discriminate.
  - exact IH.
Qed.

(** X15: [parseMasterFile] throws ['File is empty'] exactly for a
    content of white space only (the empty content included). *)
Theorem parseMasterFile_empty_iff_blank (content filename : string) :
  parseMasterFile content filename = Throws "File is empty"
  <-> JS.all_chars JS.is_space content = true.
Proof.
  assert (Hl : List.filter (fun l => JS.nonempty (JS.trim l))
                 (JStr.split_lines content) = []
               <-> JS.all_chars JS.is_space content = true).
  { rewrite filter_nil_forallb. unfold JStr.split_lines.
    rewrite <- (andb_true_l (JS.all_chars JS.is_space content)).
    change true with (JS.all_chars JS.is_space "") at 2.
    rewrite <- split_lines_blank.
    rewrite !forallb_forall.
    split; intros H l Hin; specialize (H l Hin).
    - apply negb_true_iff in H.
      apply trim_empty_blank.
      destruct (JS.trim l); [reflexivity|discriminate].
    - now rewrite (trim_blank l H). }
  rewrite <- Hl. unfold parseMasterFile.
  destruct (List.filter _ _) as [|firstLine rows]; [tauto|].
  split; [|discriminate].
  destruct (JStr.findIndex (header_has barcode_words) _) as [b|];
    [|discriminate].
  destruct (JStr.findIndex (header_has name_words) _) as [n|];
    [|discriminate].
  destruct (omap _ rows); discriminate.
Qed.

Lemma parseMasterFile_products_wellformed_witness :
  let products := [Product.mk "5012345678900" "Paracetamol 500mg"] in
  products <> []
  /\ Forall (fun p =>
               JS.all_chars JS.is_digit (Product.gtin p) = true
               /\ (8 <= String.length (Product.gtin p))%nat
               /\ Product.name p <> ""
               /\ JS.trim (Product.name p) = Product.name p)
       products.
Proof.
  apply (parseMasterFile_products_wellformed
           ("Barcode;Product name"
            ++ String JStr.CR (String JStr.LF
                 "501-2345-678900; Paracetamol 500mg "))
           "catalog.csv").
  vm_compute. reflexivity.
Defined.

(** * From a catalog file to the matcher *)

Lemma masterData_set_keeps (k v k' v' : string)
    (m : list (string * string)) :
  In (k', v') m -> exists v'', In (k', v'') (masterData_set k v m).
Proof.
  induction m as [|[a b] m IH]; [intros []|].
  cbn [masterData_set].
  destruct (String.eqb_spec a k) as [->|Hne].
  - intros [E|Hin]; [injection E as <- _; exists v; now left|].
    exists v'. now right.
  - intros [E|Hin]; [exists v'; now left|].
    destruct (IH Hin) as [v'' Hv]. exists v''. now right.
Qed.

Lemma masterData_set_has (k v : string) (m : list (string * string)) :
  In (k, v) (masterData_set k v m).
Proof.
  induction m as [|[a b] m IH]; [now left|].
  cbn [masterData_set].
  destruct (String.eqb_spec a k) as [->|Hne]; [now left|now right].
Qed.

Lemma masterData_set_new (k v : string) (m : list (string * string)) :
  (forall v', ~ In (k, v') m) -> masterData_set k v m = (m ++ [(k, v)])%list.
Proof.
  induction m as [|[a b] m IH]; intros H; [reflexivity|].
  cbn [masterData_set].
  destruct (String.eqb_spec a k) as [->|Hne].
  - exfalso. apply (H b). now left.
  - rewrite IH; [reflexivity|]. intros v' Hin. apply (H v'). now right.
Qed.

Lemma saveMasterData_has (products : list Product.t) (append : bool)
    (md : list (string * string)) (p : Product.t) :
  In p products ->
  exists nm, In (Product.gtin p, nm) (saveMasterData products append md).
Proof.
  unfold saveMasterData.
  generalize (if append then md else []). clear md.
  induction products as [|q products IH] using rev_ind; [intros _ []|].
  intros m Hin. rewrite fold_left_app. cbn [fold_left].
  apply in_app_or in Hin as [Hin|[<-|[]]].
  - destruct (IH m Hin) as [nm Hnm].
    eapply masterData_set_keeps. exact Hnm.
  - eexists. apply masterData_set_has.
Qed.

(** An identifier of digits that the catalog holds is found by the first
    lookup of the matcher. *)
Lemma catalogued_digits_exact (md : list (string * string))
    (g nm : string) (gtin13 : jsval) :
  In (g, nm) md ->
  JS.all_chars JS.is_digit g = true -> g <> "" ->
  string_or_falsy gtin13 ->
  exists n b,
    matchProduct (buildMasterIndex md) (VStr g) gtin13
    = Ok {| name := n; type := EXACT |}
    /\ In (b, n) md /\ g ∈ exact_keys b.
Proof.
  intros Hin Hd Hne H13.
  destruct (arg_digits_ok _ H13) as [d13 E13].
  rewrite (matchProduct_digits _ _ _ _ _ (arg_digits_digits g Hd) E13).
  assert (Hk : g ∈ exact_keys g).
  { rewrite <- (digits_only_id g Hd) at 1. apply digits_in_exact_keys.
    rewrite digits_only_id by exact Hd. now apply nonempty_neq. }
  destruct (exact_table_keys md g) as [Hlw Hsome].
  destruct (proj2 Hsome (ex_intro _ g (ex_intro _ nm (conj Hin Hk))))
    as [n Hn].
  unfold match_digits, exact_nonempty.
  apply nonempty_neq in Hne. rewrite Hne, Hn.
  rewrite Hlw in Hn. destruct (last_writer_some _ _ _ Hn) as (b & ? & ?).
  exists n, b. auto.
Qed.

(** X16: after [saveMasterData] has stored the products of a catalog
    file, replacing or extending the catalog, and the index is rebuilt,
    the identifier of each of these products is matched as [EXACT],
    under the name of a catalog entry whose digits agree with it leading
    zeros apart. *)
Theorem imported_products_match_exactly
    (content filename : string) (products : list Product.t)
    (append : bool) (masterData : list (string * string))
    (p : Product.t) (gtin13 : jsval) :
  parseMasterFile content filename = Returns products ->
  In p products ->
  string_or_falsy gtin13 ->
  exists n b,
    matchProduct
      (buildMasterIndex (saveMasterData products append masterData))
      (VStr (Product.gtin p)) gtin13
    = Ok {| name := n; type := EXACT |}
    /\ In (b, n) (saveMasterData products append masterData)
    /\ JS.strip_zeros (JS.digits_only b) = JS.strip_zeros (Product.gtin p).
Proof.
  intros Hparse Hin H13.
  assert (Hwf : JS.all_chars JS.is_digit (Product.gtin p) = true
               /\ (8 <= String.length (Product.gtin p))%nat).
  { destruct (parseMasterFile_rows _ _ _ Hparse) as (d & b0 & n0 & rows & E).
    pose proof Hin as Hin'. rewrite E in Hin'.
    apply list_elem_of_In, list_elem_of_omap in Hin' as (line & _ & Hp).
    destruct (product_of_row_sound _ _ _ _ _ Hp) as (? & ? & _). auto. }
  destruct Hwf as (Hd & Hlen).
  destruct (saveMasterData_has products append masterData p Hin)
    as [nm Hnm].
  destruct (catalogued_digits_exact _ _ _ gtin13 Hnm Hd) as (n & b & Hm & Hb & Hk);
    [apply length_neq_empty; lia|exact H13|].
  exists n, b. split; [exact Hm|]. split; [exact Hb|].
  symmetry. now apply (exact_keys_digits b).
Qed.

Lemma imported_products_match_exactly_witness :
  exists n b,
    matchProduct
      (buildMasterIndex
         (saveMasterData [Product.mk "5012345678900" "Paracetamol 500mg"]
            false []))
      (VStr "5012345678900") VNull
    = Ok {| name := n; type := EXACT |}
    /\ In (b, n)
         (saveMasterData [Product.mk "5012345678900" "Paracetamol 500mg"]
            false [])
    /\ JS.strip_zeros (JS.digits_only b) = JS.strip_zeros "5012345678900".
Proof.
  apply (imported_products_match_exactly
           ("Barcode;Product name"
            ++ String JStr.CR (String JStr.LF
                 "501-2345-678900; Paracetamol 500mg "))
           "catalog.csv"
           [Product.mk "5012345678900" "Paracetamol 500mg"] false []
           (Product.mk "5012345678900" "Paracetamol 500mg") VNull).
  - vm_compute. reflexivity.
  - now left.
  - right. reflexivity.
Defined.

(** * A name learnt after a miss *)

Lemma exact_after_append (md : list (string * string)) (b nm k : string) :
  k ∈ exact_keys b ->
  exact (buildMasterIndex (md ++ [(b, nm)])) !! k = Some nm.
Proof.
  intros Hk. rewrite (proj1 (exact_table_keys _ k)). unfold last_writer.
  rewrite fold_left_app. cbn [fold_left fst snd]. now rewrite decide_True.
Qed.

(** X17: when the matcher answers [NONE] for a [gtin14] of digits,
    storing a name under that [gtin14] with [Map.set] adds an entry at
    the end of the catalog, and on the rebuilt index the same [gtin14]
    is matched as [EXACT] under that name. *)
Theorem learnt_name_is_matched
    (masterData : list (string * string)) (gtin14 nm x : string)
    (gtin13 gtin13' : jsval) :
  JS.all_chars JS.is_digit gtin14 = true -> gtin14 <> "" ->
  string_or_falsy gtin13' ->
  matchProduct (buildMasterIndex masterData) (VStr gtin14) gtin13
  = Ok {| name := x; type := NONE |} ->
  masterData_set gtin14 nm masterData = (masterData ++ [(gtin14, nm)])%list
  /\ matchProduct (buildMasterIndex (masterData_set gtin14 nm masterData))
       (VStr gtin14) gtin13'
     = Ok {| name := nm; type := EXACT |}.
Proof.
  intros Hd Hne H13' Hnone.
  assert (Hk : gtin14 ∈ exact_keys gtin14).
  { rewrite <- (digits_only_id gtin14 Hd) at 1. apply digits_in_exact_keys.
    rewrite digits_only_id by exact Hd. now apply nonempty_neq. }
  assert (Hmiss : exact (buildMasterIndex masterData) !! gtin14 = None).
  { destruct (matchProduct_inv _ _ _ _ Hnone) as (d14 & d13 & H14 & _ & Hr).
    rewrite (arg_digits_digits gtin14 Hd) in H14. injection H14 as <-.
    revert Hr. unfold match_digits, exact_nonempty.
    apply nonempty_neq in Hne. rewrite Hne.
    destruct (exact _ !! gtin14); [discriminate|reflexivity]. }
  assert (Hnew : forall v', ~ In (gtin14, v') masterData).
  { intros v' Hin.
    assert (Hs : is_Some (exact (buildMasterIndex masterData) !! gtin14))
      by (apply exact_table_keys; eauto).
    rewrite Hmiss in Hs. now destruct Hs. }
  rewrite (masterData_set_new _ nm _ Hnew). split; [reflexivity|].
  destruct (arg_digits_ok _ H13') as [d13 E13].
  rewrite (matchProduct_digits _ _ _ _ _ (arg_digits_digits gtin14 Hd) E13).
  unfold match_digits, exact_nonempty.
  apply nonempty_neq in Hne. rewrite Hne.
  now rewrite (exact_after_append masterData gtin14 nm gtin14 Hk).
Qed.

Lemma learnt_name_is_matched_witness :
  masterData_set "09999999999999" "Ibuprofen" paracetamol_catalog
  = (paracetamol_catalog ++ [("09999999999999", "Ibuprofen")])%list
  /\ matchProduct
       (buildMasterIndex
          (masterData_set "09999999999999" "Ibuprofen" paracetamol_catalog))
       (VStr "09999999999999") (VStr "9999999999999")
     = Ok {| name := "Ibuprofen"; type := EXACT |}.
Proof.
  apply (learnt_name_is_matched paracetamol_catalog "09999999999999"
           "Ibuprofen" "" (VStr "9999999999999") (VStr "9999999999999")).
  - reflexivity.
  - discriminate.
  - left. eauto.
  - vm_compute. reflexivity.
Defined.

(** * Drug codes *)

Lemma length_cases (n : nat) :
  (n < 10 \/ n = 10 \/ n = 11 \/ 11 < n)%nat.
Proof. lia. Qed.

(** X18: [formatNDC] only inserts dashes: without its dashes the
    result is the argument without its dashes, and it is two characters
    longer than the argument when that has 10 or 11 characters, of the
    same length otherwise. *)
Theorem formatNDC_only_adds_dashes (ndc11 : string) :
  without_dashes (formatNDC ndc11) = without_dashes ndc11
  /\ String.length (formatNDC ndc11)
     = (String.length ndc11
        + (if (String.length ndc11 =? 10)%nat
              || (String.length ndc11 =? 11)%nat then 2 else 0))%nat.
Proof.
  unfold formatNDC.
  destruct (length_cases (String.length ndc11)) as [H|[H|[H|H]]].
  - destruct (Nat.ltb_spec (String.length ndc11) 10); [|lia].
    rewrite orb_true_r.
    destruct (Nat.eqb_spec (String.length ndc11) 10); [lia|].
    destruct (Nat.eqb_spec (String.length ndc11) 11); [lia|].
    cbn [orb]. split; [reflexivity|lia].
  - do 11 (destruct ndc11 as [|? ndc11]; try discriminate).
    vm_compute. split; reflexivity.
  - do 12 (destruct ndc11 as [|? ndc11]; try discriminate).
    vm_compute. split; reflexivity.
  - destruct (Nat.ltb_spec (String.length ndc11) 10); [lia|].
    destruct (Nat.eqb_spec (String.length ndc11) 10); [lia|].
    destruct (Nat.eqb_spec (String.length ndc11) 11); [lia|].
    replace (JS.nonempty ndc11) with true
      by (symmetry; apply nonempty_length; lia).
    cbn [negb orb]. split; [reflexivity|lia].
Qed.

Lemma length_substring (a n : nat) (s : string) :
  (a + n <= String.length s)%nat ->
  String.length (JS.substring a n s) = n.
Proof.
  intros H. unfold JS.substring.
  rewrite length_str_take, length_str_drop. lia.
Qed.

(** X19: for an identifier padded to fourteen characters, as
    [lookupProductAPI] passes it, [extractNDCFromGTIN] never returns
    [null]: it returns the eleven characters after the first two, which
    [formatNDC] writes as thirteen, five, four and two of them between
    two dashes; when the identifier is all digits, the digits of the
    formatted code are the code. *)
Theorem ndc_of_padded_gtin (gtin : string) :
  exists ndc,
    extractNDCFromGTIN (JS.padStart 14 "0" gtin) = Some ndc
    /\ ndc = JS.substring 2 11 (JS.padStart 14 "0" gtin)
    /\ String.length ndc = 11%nat
    /\ formatNDC ndc
       = JS.str_take 5 ndc ++ "-" ++ JS.substring 5 4 ndc ++ "-"
           ++ JS.str_drop 9 ndc
    /\ (JS.all_chars JS.is_digit gtin = true ->
        JS.digits_only (formatNDC ndc) = ndc).
Proof.
  pose proof (length_padStart 14 "0" gtin) as Hl.
  exists (JS.substring 2 11 (JS.padStart 14 "0" gtin)).
  assert (Hlen : String.length
                   (JS.substring 2 11 (JS.padStart 14 "0" gtin)) = 11%nat)
    by (apply length_substring; lia).
  split; [|split; [reflexivity|split; [exact Hlen|]]].
  - unfold extractNDCFromGTIN.
    replace (JS.nonempty (JS.padStart 14 "0" gtin)) with true
      by (symmetry; apply nonempty_length; lia).
    destruct (Nat.ltb_spec (String.length (JS.padStart 14 "0" gtin)) 14);
      [lia|reflexivity].
  - assert (Hn : JS.all_chars JS.is_digit gtin = true ->
                 JS.all_chars JS.is_digit
                   (JS.substring 2 11 (JS.padStart 14 "0" gtin)) = true).
    { intros Hd. unfold JS.substring.
      apply all_chars_str_take, all_chars_str_drop.
      now apply padStart_digits. }
    set (ndc := JS.substring 2 11 (JS.padStart 14 "0" gtin)) in *.
    clearbody ndc.
    do 12 (destruct ndc as [|? ndc]; try discriminate).
    split; [reflexivity|].
    intros Hd. specialize (Hn Hd).
    cbn [JS.all_chars] in Hn.
    repeat (apply andb_prop in Hn as [? Hn]).
    unfold formatNDC.
    cbn [String.length Nat.ltb Nat.leb Nat.eqb JS.nonempty negb orb].
    unfold JS.substring. cbn [JS.str_drop JS.str_take].
    rewrite !app_cons, !app_nil_l.
    unfold JS.digits_only. cbn [JS.str_filter].
    repeat match goal with
           | H : JS.is_digit _ = true |- _ => rewrite H; clear H
           end.
    reflexivity.
Qed.

(** * The PIN lock *)

Section PinLock.

Context {A : Type}.

(** One event: the callbacks it runs are run under a fresh enough
    [lastPinTime] or by an accepting [verifyPin], and [lastPinTime]
    moves only when [verifyPin] accepts, to the reading of the clock. *)
Lemma pin_step_authorized (st : PinState A) (ev : PinEvent A) :
  (snd (pin_step st ev) <> [] ->
   event_time ev - lastPinTime st < 300000 \/ pin_accepts st ev = true)
  /\ (if pin_accepts st ev
      then lastPinTime (fst (pin_step st ev)) = event_time ev
      else lastPinTime (fst (pin_step st ev)) = lastPinTime st).
Proof.
  assert (Hverify : forall now,
    (snd (verifyPin now st) <> [] ->
     now - lastPinTime st < 300000 \/ String.eqb (pinInput st) PIN = true)
    /\ (if String.eqb (pinInput st) PIN
        then lastPinTime (fst (verifyPin now st)) = now
        else lastPinTime (fst (verifyPin now st)) = lastPinTime st)).
  { intros now. unfold verifyPin.
    destruct (String.length (pinInput st) =? 0)%nat eqn:E.
    - apply Nat.eqb_eq in E.
      destruct (pinInput st); [|discriminate].
      cbn. split; [congruence|reflexivity].
    - destruct (String.eqb (pinInput st) PIN); cbn; split; auto;
        congruence. }
  destruct ev as [now callback|now key|now|value|];
    cbn [pin_step pin_accepts event_time].
  - unfold requestPinThen, isPinRequired, PIN_TIMEOUT_MINUTES.
    destruct (Z.leb_spec (5 * 60 * 1000) (now - lastPinTime st));
      cbn [negb fst snd]; (split; [|reflexivity]); [congruence|].
    intros _. left. lia.
  - unfold handlePinKey.
    destruct (String.eqb_spec key "cancel") as [->|_];
      [cbn; split; [congruence|reflexivity]|].
    destruct (String.eqb_spec key "delete") as [->|_];
      [cbn; split; [congruence|reflexivity]|].
    destruct (String.eqb_spec key "enter") as [->|_]; cbn [andb].
    + apply Hverify.
    + destruct (_ <? _)%nat; cbn; split; congruence.
  - apply Hverify.
  - cbn. split; [congruence|reflexivity].
  - cbn. split; [congruence|reflexivity].
Qed.

(** Between two requests: an event that is not a request runs the
    pending callback and leaves none, or runs nothing and leaves the
    pending callback or none. *)
Lemma pin_step_pending (st : PinState A) (ev : PinEvent A) :
  (forall now callback, ev <> Request now callback) ->
  (snd (pin_step st ev) = run_callback (pinCallback st)
   /\ pinCallback (fst (pin_step st ev)) = None)
  \/ (snd (pin_step st ev) = []
      /\ (pinCallback (fst (pin_step st ev)) = pinCallback st
          \/ pinCallback (fst (pin_step st ev)) = None)).
Proof.
  intros Hreq.
  destruct ev as [now callback|now key|now|value|]; cbn [pin_step].
  - now destruct (Hreq now callback).
  - unfold handlePinKey.
    destruct (String.eqb key "cancel"); [right; cbn; auto|].
    destruct (String.eqb key "delete"); [right; cbn; auto|].
    destruct (String.eqb key "enter").
    + unfold verifyPin.
      destruct (_ =? _)%nat; [right; cbn; auto|].
      destruct (String.eqb _ PIN); [left|right]; cbn; auto.
    + destruct (_ <? _)%nat; right; cbn; auto.
  - unfold verifyPin.
    destruct (_ =? _)%nat; [right; cbn; auto|].
    destruct (String.eqb _ PIN); [left|right]; cbn; auto.
  - right; cbn; auto.
  - right; cbn; auto.
Qed.

Lemma pin_run_nothing_pending (st : PinState A) (evs : list (PinEvent A)) :
  no_request evs -> pinCallback st = None -> pin_run st evs = [].
Proof.
  revert st. induction evs as [|ev evs IH]; intros st Hno Hnone;
    [reflexivity|].
  cbn [pin_run].
  assert (Hev : forall now callback, ev <> Request now callback).
  { intros now callback ->. apply (Hno now callback). now left. }
  assert (Hno' : no_request evs).
  { intros now callback Hin. apply (Hno now callback). now right. }
  destruct (pin_step_pending st ev Hev) as [[Hr Hc]|[Hr Hc]];
    destruct (pin_step st ev) as [st' ran]; cbn [fst snd] in *; subst ran.
  - rewrite Hnone. cbn [run_callback map app]. now apply IH.
  - cbn [map app]. apply IH; [exact Hno'|].
    destruct Hc as [Hc | Hc]; rewrite Hc; auto.
Qed.

End PinLock.

(** X20: whatever the sequence of calls to the PIN lock, a callback is
    only run less than five minutes of clock reading after
    [lastPinTime] as it was at the start or after a call of [verifyPin]
    that found the PIN in [pinInput]. *)
Theorem pin_runs_are_authorized {A : Type} (st : PinState A)
    (evs : list (PinEvent A)) (cb : A) (t : Z) :
  In (cb, t) (pin_run st evs) ->
  exists T,
    t - T < PIN_TIMEOUT_MINUTES * 60 * 1000
    /\ (T = lastPinTime st \/ In T (pin_accepted st evs)).
Proof.
  unfold PIN_TIMEOUT_MINUTES.
  revert st. induction evs as [|ev evs IH]; intros st; [intros []|].
  cbn [pin_run pin_accepted].
  destruct (pin_step_authorized st ev) as [Hran Hlast].
  destruct (pin_step st ev) as [st' ran]. cbn [fst snd] in *.
  intros [Hin|Hin]%in_app_or.
  - apply in_map_iff in Hin as (cb' & [= -> <-] & Hcb).
    destruct Hran as [Hfresh|Hacc]; [now intros ->|..].
    + exists (lastPinTime st). split; [exact Hfresh|now left].
    + exists (event_time ev). rewrite Hacc. split; [lia|].
      right. now left.
  - destruct (IH st' Hin) as (T & Ht & [->|HT]).
    + destruct (pin_accepts st ev).
      * exists (event_time ev). rewrite <- Hlast.
        split; [exact Ht|]. right. now left.
      * exists (lastPinTime st). rewrite <- Hlast.
        split; [exact Ht|]. now left.
    + exists T. split; [exact Ht|]. right. apply in_or_app. now right.
Qed.

(** X21: between two calls of [requestPinThen] at most one callback is
    run, it is the pending one, and when none is pending (after a
    cancel, a close or a run) none is run, whatever is typed. *)
Theorem pin_callback_runs_at_most_once {A : Type} (st : PinState A)
    (evs : list (PinEvent A)) :
  no_request evs ->
  (length (pin_run st evs) <= 1)%nat
  /\ (forall cb t, In (cb, t) (pin_run st evs) -> pinCallback st = Some cb)
  /\ (pinCallback st = None -> pin_run st evs = []).
Proof.
  intros Hno. split; [|split]; [| |now apply pin_run_nothing_pending].
  - revert st Hno. induction evs as [|ev evs IH]; intros st Hno;
      [cbn; lia|].
    cbn [pin_run].
    assert (Hev : forall now callback, ev <> Request now callback).
    { intros now callback ->. apply (Hno now callback). now left. }
    assert (Hno' : no_request evs).
    { intros now callback Hin. apply (Hno now callback). now right. }
    destruct (pin_step_pending st ev Hev) as [[Hr Hc]|[Hr Hc]];
      destruct (pin_step st ev) as [st' ran]; cbn [fst snd] in *; subst ran.
    + rewrite (pin_run_nothing_pending st' evs Hno' Hc), List.app_nil_r.
      rewrite length_map. destruct (pinCallback st); cbn; lia.
    + cbn [map app]. now apply IH.
  - revert st Hno. induction evs as [|ev evs IH]; intros st Hno cb t;
      [intros []|].
    cbn [pin_run].
    assert (Hev : forall now callback, ev <> Request now callback).
    { intros now callback ->. apply (Hno now callback). now left. }
    assert (Hno' : no_request evs).
    { intros now callback Hin. apply (Hno now callback). now right. }
    destruct (pin_step_pending st ev Hev) as [[Hr Hc]|[Hr Hc]];
      destruct (pin_step st ev) as [st' ran]; cbn [fst snd] in *; subst ran.
    + rewrite (pin_run_nothing_pending st' evs Hno' Hc), List.app_nil_r.
      destruct (pinCallback st) as [cb0|]; cbn; [|now intros []].
      intros [E|E]; [|destruct E]. injection E as E _. now rewrite E.
    + cbn [map app]. intros Hin.
      destruct Hc as [Hc|Hc].
      * rewrite <- Hc. now apply (IH st' Hno' cb t).
      * rewrite (pin_run_nothing_pending st' evs Hno' Hc) in Hin.
        destruct Hin.
Qed.


Lemma pin_runs_are_authorized_witness :
  exists T,
    1000200 - T < PIN_TIMEOUT_MINUTES * 60 * 1000
    /\ (T = 0 \/ In T [1000200]).
Proof.
  apply (pin_runs_are_authorized (mkPinState "" 0 None)
           [Request 1000000 (Some tt); Key 1000010 "9"; Key 1000020 "6";
            Key 1000030 "3"; Key 1000040 "3"; Timer 1000200]
           tt 1000200).
  vm_compute. now left.
Defined.

Lemma pin_callback_runs_at_most_once_witness :
  let st := mkPinState "9633" 0 (Some tt) in
  let evs := [Timer 1000200; HiddenInput "9633"; Timer 1000500] in
  (length (pin_run st evs) <= 1)%nat
  /\ (forall cb t, In (cb, t) (pin_run st evs) -> pinCallback st = Some cb)
  /\ (pinCallback st = None -> pin_run st evs = []).
Proof.
  apply (pin_callback_runs_at_most_once (mkPinState "9633" 0 (Some tt))
           [Timer 1000200; HiddenInput "9633"; Timer 1000500]).
  intros now callback [H|[H|[H|[]]]]; discriminate.
Defined.

(** * The identifier of a decoded record *)

Lemma all_chars_drop_zero (p : ascii -> bool) (s : string) :
  JS.all_chars p s = true -> JS.all_chars p (drop_zero s) = true.
Proof.
  intros H. unfold drop_zero.
  destruct (JS.startsWith "0" s); [now apply all_chars_str_drop|exact H].
Qed.

Lemma length_drop_zero_le (s : string) :
  (String.length (drop_zero s) <= String.length s)%nat.
Proof.
  unfold drop_zero. destruct (JS.startsWith "0" s); [|lia].
  rewrite length_str_drop. lia.
Qed.

Lemma extract_ident_shape (env : Env) (code : string) (r r' : ParsedCode) :
  ident_shape r -> extract env code r = Ok r' -> ident_shape r'.
Proof.
  intros Hr E.
  destruct (extract_fields env code r) as (r0 & E0 & _ & _ & Hg & _).
  rewrite E in E0. injection E0 as <-.
  destruct (match_gtin code) as [g|] eqn:Eg.
  - unfold ident_shape. destruct Hg as (_ & -> & ->). intros _.
    destruct (regex_match_sound _ _ _ _ _ _ Eg) as (Hd & Hlo & Hhi).
    specialize (Hhi 14%nat eq_refl). cbn in Hlo.
    pose proof (length_padStart 14 "0" g) as Hl.
    pose proof (length_drop_zero (JS.padStart 14 "0" g)) as Hz.
    pose proof (length_drop_zero_le (JS.padStart 14 "0" g)) as Hz'.
    split; split.
    + now apply padStart_digits.
    + lia.
    + now apply all_chars_drop_zero, padStart_digits.
    + lia.
  - unfold ident_shape. destruct Hg as (Hv & -> & ->).
    intros V. apply Hr. congruence.
Qed.

(** X22: the identifier of a decoded record is made of digits: [gtin14]
    has 14 to 21 of them, [gtin13] has 5 to 14. The two assignments of
    the short-code block, which would store 5 to 7 digits in [gtin14],
    are never reached. *)
Theorem parseGS1_identifier_shape (env : Env) (raw : jsval)
    (r : ParsedCode) :
  parseGS1 env raw = Ok r ->
  valid r = true ->
  digits_of_length 14 21 (gtin14 r) /\ digits_of_length 5 14 (gtin13 r).
Proof.
  rewrite short_code_unreachable. unfold parseGS1_without_short_code.
  assert (Hdef : ident_shape (default_result raw)) by (intros V; discriminate).
  destruct raw as [| | | |s|]; try (intros [= <-]; exact Hdef).
  destruct (JS.nonempty s); cbn [negb]; [|intros [= <-]; exact Hdef].
  set (code := JS.gs_to_pipe (JS.trim s)).
  destruct (JS.digits_between 5 21 code && negb (JS.includes "(" code))
    eqn:Hb.
  - apply andb_prop in Hb as [Hd _].
    apply digits_between_length in Hd as [Hd Hlen].
    assert (H1 : ident_shape
              (set_gtin (JS.padStart 14 "0" code)
                 (if (String.length code <=? 13)%nat then code
                  else JS.substring 0 13 code)
                 (default_result (VStr s)))).
    { intros _. cbn [gtin14 gtin13 set_gtin]. split; split.
      - now apply padStart_digits.
      - rewrite length_padStart. lia.
      - destruct (_ <=? _)%nat; [exact Hd|].
        unfold JS.substring. now apply all_chars_str_take.
      - destruct (Nat.leb_spec (String.length code) 13); [lia|].
        unfold JS.substring. cbn [JS.str_drop].
        rewrite length_str_take. lia. }
    destruct (_ && _).
    + destruct (convertToParenthesized code) as [c1| |]; cbn [bind];
        try discriminate.
      destruct (with_parentheses c1) as [c2| |]; cbn [bind];
        try discriminate.
      apply extract_ident_shape, H1.
    + intros [= <-]. exact H1.
  - destruct (with_parentheses code) as [c1| |]; cbn [bind];
      try discriminate.
    apply extract_ident_shape, Hdef.
Qed.

Lemma parseGS1_identifier_shape_witness :
  digits_of_length 14 21 "05012345678900"
  /\ digits_of_length 5 14 "5012345678900".
Proof.
  apply (parseGS1_identifier_shape (fixed_zone 0 0)
           (VStr "(01)5012345678900")
           (set_gtin "05012345678900" "5012345678900"
              (default_result (VStr "(01)5012345678900"))));
    vm_compute; reflexivity.
Defined.

(** * A scan without parentheses: identifier, expiry date and batch *)

Lemma get_app_length (pre : string) (c : ascii) (s : string) :
  String.get (String.length pre) (pre ++ String c s) = Some c.
Proof.
  induction pre as [|a pre IH]; [reflexivity|].
  rewrite app_cons. exact IH.
Qed.

Lemma get_app_end (pre : string) :
  String.get (String.length pre) pre = None.
Proof. induction pre as [|a pre IH]; [reflexivity|exact IH]. Qed.

Lemma substring_app_length (pre s : string) (n : nat) :
  JS.substring (String.length pre) n (pre ++ s) = JS.str_take n s.
Proof.
  unfold JS.substring.
  rewrite <- (Nat.add_0_r (String.length pre)), str_drop_app. reflexivity.
Qed.

Lemma field_char_not_sep (c : ascii) :
  field_char c = true -> is_sep c = false.
Proof.
  unfold field_char, is_sep.
  destruct (Ascii.eqb c "("), (Ascii.eqb c "|"), (Ascii.eqb c JS.GS);
    cbn; congruence.
Qed.

(** The inner loop reads a text without separators and without inner
    identifiers to the end of the code. *)
Lemma var_loop_tail (s pre value : string) (fuel : nat) :
  (String.length s < fuel)%nat ->
  JS.all_chars field_char s = true ->
  no_ai_inside s = true ->
  var_loop fuel (pre ++ s) (String.length pre) value
  = Some (String.length (pre ++ s), value ++ s).
Proof.
  revert pre value fuel.
  induction s as [|c s IH]; intros pre value fuel Hf Hc Hai.
  - destruct fuel as [|fuel]; [cbn in Hf; lia|].
    cbn [var_loop]. rewrite !app_nil_r, get_app_end. reflexivity.
  - destruct fuel as [|fuel]; [cbn in Hf; lia|].
    cbn [var_loop]. rewrite get_app_length.
    cbn [JS.all_chars] in Hc. apply andb_prop in Hc as [Hc Hs].
    rewrite (field_char_not_sep c Hc).
    cbn [no_ai_inside] in Hai. apply andb_prop in Hai as [Hhere Hin].
    rewrite !substring_app_length.
    change (JS.str_take 2 (String c s)) with (JS.substring 0 2 (String c s)).
    change (JS.str_take 3 (String c s)) with (JS.substring 0 3 (String c s)).
    apply negb_true_iff in Hhere. rewrite Hhere. cbn [andb].
    replace (pre ++ String c s) with ((pre ++ String c "") ++ s)
      by (now rewrite app_assoc, app_cons, app_nil_l).
    replace (S (String.length pre)) with (String.length (pre ++ String c ""))
      by (rewrite length_app; cbn; lia).
    rewrite IH; [|cbn in Hf; lia|exact Hs|exact Hin].
    now rewrite (app_assoc value), app_cons, app_nil_l.
Qed.

(** The same from the start of the value, where an identifier may
    begin. *)
Lemma var_loop_value (b pre : string) (fuel : nat) :
  (String.length b < fuel)%nat ->
  plain_value b = true ->
  var_loop fuel (pre ++ b) (String.length pre) ""
  = Some (String.length (pre ++ b), b).
Proof.
  intros Hf Hp. unfold plain_value in Hp. apply andb_prop in Hp as [Hc Hai].
  destruct b as [|c b].
  - destruct fuel as [|fuel]; [cbn in Hf; lia|].
    cbn [var_loop]. rewrite !app_nil_r, get_app_end. reflexivity.
  - destruct fuel as [|fuel]; [cbn in Hf; lia|].
    cbn [var_loop]. rewrite get_app_length.
    cbn [JS.all_chars] in Hc. apply andb_prop in Hc as [Hc Hs].
    rewrite (field_char_not_sep c Hc).
    cbn [JS.nonempty]. rewrite andb_false_r.
    replace (pre ++ String c b) with ((pre ++ String c "") ++ b)
      by (now rewrite app_assoc, app_cons, app_nil_l).
    replace (S (String.length pre)) with (String.length (pre ++ String c ""))
      by (rewrite length_app; cbn; lia).
    rewrite var_loop_tail; [|cbn in Hf; lia|exact Hs|exact Hai].
    now rewrite app_nil_l.
Qed.

(** One turn of the outer loop at an identifier of fixed length. *)
Lemma convert_step_fixed (fuel : nat) (code pre ai v rest result : string)
    (len : Z) :
  code = pre ++ ai ++ v ++ rest ->
  String.length ai = 2%nat -> ai_lookup ai = Some len -> 0 < len ->
  String.length v = Z.to_nat len ->
  convert_loop (S fuel) code (String.length pre) result
  = convert_loop fuel code (String.length (pre ++ ai ++ v))
      (result ++ "(" ++ ai ++ ")" ++ v).
Proof.
  intros -> Hai Hl Hpos Hv.
  assert (Hsub : JS.substring (String.length pre) 2 (pre ++ ai ++ v ++ rest)
                 = ai).
  { rewrite substring_app_length, <- Hai. apply str_take_app. }
  cbn [convert_loop].
  destruct (Nat.ltb_spec (String.length pre)
              (String.length (pre ++ ai ++ v ++ rest))) as [_|Hge].
  2:{ rewrite !length_app in Hge. lia. }
  rewrite !Hsub, Hl.
  apply Z.ltb_lt in Hpos. rewrite Hpos.
  replace (pre ++ ai ++ v ++ rest) with ((pre ++ ai) ++ v ++ rest)
    by now rewrite app_assoc.
  replace (String.length pre + String.length ai)%nat
    with (String.length (pre ++ ai)) by now rewrite length_app.
  rewrite substring_app_length, <- Hv, str_take_app.
  replace (String.length (pre ++ ai) + String.length v)%nat
    with (String.length (pre ++ ai ++ v))
    by (rewrite !length_app; lia).
  reflexivity.
Qed.

(** The last turns of the outer loop: an identifier of variable length
    and a plain value up to the end of the code. *)
Lemma convert_step_var (fuel : nat) (code pre ai b result : string)
    (len : Z) :
  code = pre ++ ai ++ b ->
  String.length ai = 2%nat -> ai_lookup ai = Some len -> len <= 0 ->
  plain_value b = true ->
  convert_loop (S (S fuel)) code (String.length pre) result
  = Some (result ++ "(" ++ ai ++ ")" ++ b).
Proof.
  intros -> Hai Hl Hneg Hb.
  assert (Hsub : JS.substring (String.length pre) 2 (pre ++ ai ++ b) = ai).
  { rewrite substring_app_length, <- Hai. apply str_take_app. }
  cbn [convert_loop].
  destruct (Nat.ltb_spec (String.length pre)
              (String.length (pre ++ ai ++ b))) as [_|Hge].
  2:{ rewrite !length_app in Hge. lia. }
  rewrite !Hsub, Hl.
  destruct (Z.ltb_spec 0 len) as [|_]; [lia|].
  replace (pre ++ ai ++ b) with ((pre ++ ai) ++ b) by now rewrite app_assoc.
  replace (String.length pre + String.length ai)%nat
    with (String.length (pre ++ ai)) by now rewrite length_app.
  rewrite var_loop_value; [|rewrite length_app; lia|exact Hb].
  now rewrite Nat.ltb_irrefl.
Qed.

(** What [convertToParenthesized] makes of identifier, expiry date and
    batch written one after the other. *)
Lemma convert_gtin_expiry_batch (g e b : string) :
  String.length g = 14%nat -> String.length e = 6%nat ->
  plain_value b = true ->
  convertToParenthesized ("01" ++ g ++ "17" ++ e ++ "10" ++ b)
  = Ok ("(01)" ++ g ++ "(17)" ++ e ++ "(10)" ++ b).
Proof.
  intros Hg He Hb. unfold convertToParenthesized.
  set (code := "01" ++ g ++ "17" ++ e ++ "10" ++ b).
  assert (Hlen : String.length code = (26 + String.length b)%nat).
  { unfold code. rewrite !length_app, Hg, He. reflexivity. }
  rewrite Hlen.
  change (S (26 + String.length b)) with (S (S (S (S (23 + String.length b))))).
  change 0%nat with (String.length "") at 1.
  rewrite (convert_step_fixed _ code "" "01" g ("17" ++ e ++ "10" ++ b)
             "" 14); [|reflexivity..|lia|exact Hg].
  rewrite (convert_step_fixed _ code ("" ++ "01" ++ g) "17" e ("10" ++ b)
             _ 6); [|unfold code; now rewrite !app_assoc|reflexivity..|lia|exact He].
  rewrite (convert_step_var _ code (("" ++ "01" ++ g) ++ "17" ++ e) "10" b
             _ (-1)); [|unfold code; now rewrite !app_assoc|reflexivity..|lia|exact Hb].
  rewrite !app_nil_l, !app_assoc. reflexivity.
Qed.

(** * The patterns on a converted scan *)

Section Skipping.

Variables (pfx : string) (p : ascii -> bool) (lo : nat) (hi : option nat).

(** A pattern that begins with a parenthesis skips what has none. *)
Lemma regex_skip (a s : string) :
  JS.includes "(" a = false ->
  JS.regex_match (String "(" pfx) p lo hi (a ++ s)
  = JS.regex_match (String "(" pfx) p lo hi s.
Proof.
  induction a as [|c a IH]; [now rewrite app_nil_l|].
  cbn [JS.includes]. intros [Hc Ha]%orb_false_iff.
  rewrite app_cons, regex_match_unfold. unfold JS.match_here.
  cbn [JS.strip_prefix]. rewrite Ascii.eqb_sym, Hc. now apply IH.
Qed.

(** At a parenthesis that opens another field the search goes on. *)
Lemma regex_other_field (s : string) :
  JS.strip_prefix pfx s = None ->
  JS.regex_match (String "(" pfx) p lo hi (String "(" s)
  = JS.regex_match (String "(" pfx) p lo hi s.
Proof.
  intros H. rewrite regex_match_unfold. unfold JS.match_here.
  cbn [JS.strip_prefix]. change (Ascii.eqb "(" "(") with true.
  now rewrite H.
Qed.

End Skipping.

Lemma strip_prefix_head_ne (x c : ascii) (p' s : string) :
  Ascii.eqb x c = false -> JS.strip_prefix (String x p') (String c s) = None.
Proof. intros H. cbn [JS.strip_prefix]. now rewrite H. Qed.

Lemma no_paren_after (a b c : ascii) (d : string) :
  Ascii.eqb a "(" = false -> Ascii.eqb b "(" = false ->
  Ascii.eqb c "(" = false -> JS.includes "(" d = false ->
  JS.includes "(" (String a (String b (String c d))) = false.
Proof. intros Ha Hb Hc Hd. cbn [JS.includes]. now rewrite Ha, Hb, Hc, Hd. Qed.

Lemma take_while_stop (p : ascii -> bool) (a : string) (c : ascii)
    (s : string) :
  JS.all_chars p a = true -> p c = false ->
  JS.take_while p (a ++ String c s) = a.
Proof.
  intros Ha Hc. rewrite (take_while_app _ _ _ Ha).
  cbn [JS.take_while]. rewrite Hc. apply app_nil_r.
Qed.

Lemma field_chars_no_paren (b : string) :
  JS.all_chars field_char b = true -> JS.includes "(" b = false.
Proof.
  intros H. apply includes_none. revert H. apply all_chars_impl.
  intros c. unfold field_char.
  destruct (Ascii.eqb c "("); [discriminate|reflexivity].
Qed.

Lemma drop_pipes_field (b : string) :
  JS.all_chars field_char b = true -> JS.drop_pipes b = b.
Proof.
  induction b as [|c b IH]; [reflexivity|].
  cbn [JS.all_chars]. intros [Hc Hb]%andb_prop.
  unfold JS.drop_pipes in *. cbn [JS.str_filter].
  replace (Ascii.eqb c "|") with false.
  - cbn [negb]. now rewrite IH.
  - unfold field_char in Hc.
    destruct (Ascii.eqb c "("), (Ascii.eqb c "|"); cbn in Hc; congruence.
Qed.

Section Converted.

Variables g e b : string.
Hypothesis Hg : JS.all_chars JS.is_digit g = true.
Hypothesis Hgl : String.length g = 14%nat.
Hypothesis He : JS.all_chars JS.is_digit e = true.
Hypothesis Hel : String.length e = 6%nat.
Hypothesis Hb : JS.all_chars field_char b = true.

Let converted : string := "(01)" ++ g ++ "(17)" ++ e ++ "(10)" ++ b.

(** The search of a pattern for a field other than (01) passes the
    identifier. *)
Lemma converted_past_gtin (x y : ascii) (p : ascii -> bool) (lo : nat)
    (hi : option nat) :
  Ascii.eqb x "0" = false ->
  JS.regex_match (String "(" (String x (String y ")"))) p lo hi converted
  = JS.regex_match (String "(" (String x (String y ")"))) p lo hi
      ("(17)" ++ e ++ "(10)" ++ b).
Proof.
  intros H0. unfold converted.
  change ("(01)" ++ g ++ "(17)" ++ e ++ "(10)" ++ b)
    with (String "(" (String "0" (String "1" (String ")" g))
                      ++ "(17)" ++ e ++ "(10)" ++ b)).
  rewrite regex_other_field by (apply strip_prefix_head_ne, H0).
  apply regex_skip, no_paren_after; try reflexivity.
  apply digits_no_paren, Hg.
Qed.

(** The search of a pattern for a field other than (17) passes the
    expiry date. *)
Lemma converted_past_expiry (x y : ascii) (p : ascii -> bool) (lo : nat)
    (hi : option nat) :
  Ascii.eqb x "1" && Ascii.eqb y "7" = false ->
  JS.regex_match (String "(" (String x (String y ")"))) p lo hi
    ("(17)" ++ e ++ "(10)" ++ b)
  = JS.regex_match (String "(" (String x (String y ")"))) p lo hi
      ("(10)" ++ b).
Proof.
  intros H1.
  change ("(17)" ++ e ++ "(10)" ++ b)
    with (String "(" (String "1" (String "7" (String ")" e))
                      ++ "(10)" ++ b)).
  rewrite regex_other_field.
  - apply regex_skip, no_paren_after; try reflexivity.
    apply digits_no_paren, He.
  - change (String "1" (String "7" (String ")" e)) ++ "(10)" ++ b)
      with (String "1" (String "7" (String ")" (e ++ "(10)" ++ b)))).
    cbn [JS.strip_prefix].
    destruct (Ascii.eqb x "1"); [|reflexivity].
    cbn [andb] in H1. now rewrite H1.
Qed.

Lemma converted_expiry : match_expiry converted = Some e.
Proof.
  unfold match_expiry. rewrite converted_past_gtin by reflexivity.
  apply (regex_match_head _ _ _ _ _ (e ++ "(10)" ++ b)); [reflexivity|].
  unfold JS.capture.
  change (e ++ "(10)" ++ b) with (e ++ String "(" ("10)" ++ b)).
  rewrite take_while_stop by (exact He || reflexivity).
  rewrite Hel. cbn [Nat.leb]. now rewrite str_take_all by lia.
Qed.

Lemma converted_batch :
  match_batch converted = if JS.nonempty b then Some b else None.
Proof.
  unfold match_batch.
  rewrite converted_past_gtin, converted_past_expiry by reflexivity.
  destruct (JS.nonempty b) eqn:Hn.
  - apply (regex_match_head _ _ _ _ _ b); [reflexivity|].
    unfold JS.capture. rewrite (take_while_all _ b Hb).
    apply nonempty_length in Hn.
    destruct (Nat.leb_spec 1 (String.length b)); [reflexivity|lia].
  - assert (Eb : b = "") by (destruct b; [reflexivity|discriminate]).
    rewrite Eb. reflexivity.
Qed.

(** No field other than those three is found. *)
Lemma converted_no_other (x y : ascii) (p : ascii -> bool) (lo : nat)
    (hi : option nat) :
  Ascii.eqb x "0" = false -> Ascii.eqb x "1" = false ->
  JS.regex_match (String "(" (String x (String y ")"))) p lo hi converted
  = None.
Proof.
  intros H0 H1.
  rewrite converted_past_gtin, converted_past_expiry
    by (exact H0 || now rewrite H1).
  change ("(10)" ++ b) with (String "(" (String "1" (String "0" (String ")" b)))).
  rewrite regex_other_field by (apply strip_prefix_head_ne, H1).
  apply regex_match_absent, no_paren_after; try reflexivity.
  apply field_chars_no_paren, Hb.
Qed.

End Converted.

(** X23: a scan without parentheses made of ["01"] and fourteen digits,
    ["17"] and six digits, ["10"] and a batch text up to the end (a text
    without parenthesis or separator, in which no application
    identifier begins after the first character) is decoded into these
    three fields: the fourteen digits as [gtin14], the expiry fields as
    [parseExpiryDate] gives them for the six digits, and the trimmed
    text as batch; serial number and quantity keep their defaults. *)
Theorem parseGS1_headerless_fields (env : Env) (rawText g e b : string) :
  JS.gs_to_pipe (JS.trim rawText) = "01" ++ g ++ "17" ++ e ++ "10" ++ b ->
  JS.all_chars JS.is_digit g = true -> String.length g = 14%nat ->
  JS.all_chars JS.is_digit e = true -> String.length e = 6%nat ->
  plain_value b = true ->
  exists r p,
    parseGS1 env (VStr rawText) = Ok r
    /\ parseExpiryDate env e = Ok p
    /\ valid r = true /\ gtin14 r = g /\ gtin13 r = drop_zero g
    /\ expiry r = Some (iso p)
    /\ expiryDDMMYY r = ddmmyy p
    /\ expiryFormatted r = formatted p
    /\ expiryStatus r = calculateExpiryStatus env (Some (iso p))
    /\ batch r = JS.trim b
    /\ serial r = "" /\ qty r = Fin 1.
Proof.
  intros Hcode Hg Hgl He Hel Hpv.
  assert (Hb : JS.all_chars field_char b = true).
  { unfold plain_value in Hpv. now apply andb_prop in Hpv as [Hb _]. }
  set (code := "01" ++ g ++ "17" ++ e ++ "10" ++ b) in *.
  assert (Hlen : String.length code = (26 + String.length b)%nat).
  { unfold code. rewrite !length_app, Hgl, Hel. reflexivity. }
  assert (Hnp : JS.includes "(" code = false).
  { unfold code. rewrite !includes_app.
    rewrite (digits_no_paren g Hg), (digits_no_paren e He),
      (field_chars_no_paren b Hb). reflexivity. }
  assert (Hparse : parseGS1 env (VStr rawText)
                   = extract env ("(01)" ++ g ++ "(17)" ++ e ++ "(10)" ++ b)
                       (default_result (VStr rawText))).
  { unfold parseGS1.
    rewrite normalized_nonempty by (rewrite Hcode, Hlen; lia).
    cbn [negb]. rewrite Hcode.
    replace (JS.digits_between 5 21 code) with false.
    2:{ symmetry. unfold JS.digits_between. rewrite Hlen.
        destruct (Nat.leb_spec (26 + String.length b) 21); [lia|].
        apply andb_false_r. }
    cbn [andb]. unfold parse_rest.
    replace (JS.digits_between 5 7 code) with false.
    2:{ symmetry. unfold JS.digits_between. rewrite Hlen.
        destruct (Nat.leb_spec (26 + String.length b) 7); [lia|].
        apply andb_false_r. }
    unfold with_parentheses. rewrite Hnp.
    replace (JS.two_digits_first code) with true by reflexivity.
    cbn [negb andb]. unfold code.
    rewrite (convert_gtin_expiry_batch g e b Hgl Hel Hpv). reflexivity. }
  destruct (extract_fields env ("(01)" ++ g ++ "(17)" ++ e ++ "(10)" ++ b)
              (default_result (VStr rawText)))
    as (r & E & _ & _ & Hgt & Hex & Hba & Hse & Hq).
  rewrite (match_gtin_01 g _ Hg Hgl) in Hgt.
  rewrite padStart_id in Hgt by lia.
  rewrite (converted_expiry g e b Hg Hgl He Hel) in Hex.
  rewrite (converted_batch g e b Hg Hgl He Hel Hb) in Hba.
  unfold match_serial in Hse. unfold match_qty in Hq.
  rewrite (converted_no_other g e b Hg He Hb) in Hse by reflexivity.
  rewrite (converted_no_other g e b Hg He Hb) in Hq by reflexivity.
  destruct Hex as (p & Hp & Hx1 & Hx2 & Hx3 & Hx4).
  destruct Hgt as (V & G14 & G13).
  exists r, p. rewrite Hparse. repeat split; try assumption.
  rewrite Hba. destruct (JS.nonempty b) eqn:Hn.
  - now rewrite drop_pipes_field.
  - destruct b; [reflexivity|discriminate].
Qed.

Lemma parseGS1_headerless_fields_witness :
  exists r p,
    parseGS1 (fixed_zone 0 0) (VStr "01050123456789001725022810LOT7A") = Ok r
    /\ parseExpiryDate (fixed_zone 0 0) "250228" = Ok p
    /\ valid r = true /\ gtin14 r = "05012345678900"
    /\ gtin13 r = drop_zero "05012345678900"
    /\ expiry r = Some (iso p)
    /\ expiryDDMMYY r = ddmmyy p
    /\ expiryFormatted r = formatted p
    /\ expiryStatus r = calculateExpiryStatus (fixed_zone 0 0) (Some (iso p))
    /\ batch r = JS.trim "LOT7A"
    /\ serial r = "" /\ qty r = Fin 1.
Proof.
  apply (parseGS1_headerless_fields (fixed_zone 0 0)
           "01050123456789001725022810LOT7A"
           "05012345678900" "250228" "LOT7A"); reflexivity.
Defined.

(** * The padding loop of the matcher *)

Lemma padding_loop_redundant
    (masterData : list (string * string)) (d14 d13 : string) :
  JS.all_chars JS.is_digit d14 = true ->
  JS.strip_zeros d14 <> "" ->
  match_digits (buildMasterIndex masterData) d14 d13
  = match_digits_without_padding (buildMasterIndex masterData) d14 d13.
Proof.
  intros Hd Hnz.
  unfold match_digits, match_digits_without_padding.
  destruct (exact_nonempty _ d14); [reflexivity|].
  destruct (exact_nonempty _ d13); [reflexivity|].
  destruct (exact _ !! JS.padStart 14 "0" d14); [reflexivity|].
  destruct (exact_nonempty _ (JS.strip_zeros d14)) eqn:E4; [reflexivity|].
  destruct (last8_step _ d14); [reflexivity|].
  destruct (pad_step _ d14) as [r|] eqn:E5; [|reflexivity].
  exfalso. unfold pad_step in E5.
  destruct (_ && _) in E5; [|discriminate].
  apply pad_loop_key in E5 as [w Hw].
  rewrite (proj1 (exact_table_keys _ _)) in Hw.
  apply last_writer_some in Hw as (b & Hin & Hk).
  destruct (exact_keys_digits _ _ Hk) as [_ Hz].
  specialize (Hz (padStart_digits w d14 Hd)).
  rewrite strip_zeros_padStart in Hz.
  assert (Hs : is_Some (exact (buildMasterIndex masterData)
                          !! JS.strip_zeros d14)).
  { apply exact_table_keys. exists b, (name r). split; [exact Hin|].
    rewrite Hz. apply stripped_in_exact_keys. now rewrite <- Hz. }
  unfold exact_nonempty in E4. apply nonempty_neq in Hnz.
  rewrite Hnz in E4. rewrite E4 in Hs. now destruct Hs.
Qed.

(** X24: on a built index the padding loop of [matchProduct] (step 5)
    only ever answers for a [gtin14] whose digits are all zeros: for
    digits with a non-zero one among them, every key the loop could find
    belongs to an entry that also files under the digits without leading
    zeros, which step 3 looks up before, so the answer is the same with
    the loop deleted. *)
Theorem padding_loop_only_for_zeros
    (masterData : list (string * string)) (gtin14 gtin13 : jsval)
    (d14 d13 : string) :
  arg_digits gtin14 = Ok d14 -> arg_digits gtin13 = Ok d13 ->
  JS.strip_zeros d14 <> "" ->
  matchProduct (buildMasterIndex masterData) gtin14 gtin13
  = Ok (match_digits_without_padding (buildMasterIndex masterData) d14 d13).
Proof.
  intros H14 H13 Hnz.
  rewrite (matchProduct_digits _ _ _ _ _ H14 H13).
  unfold match_digits, match_digits_without_padding.
  destruct (exact_nonempty _ d14); [reflexivity|].
  destruct (exact_nonempty _ d13); [reflexivity|].
  destruct (exact _ !! JS.padStart 14 "0" d14); [reflexivity|].
  destruct (exact_nonempty _ (JS.strip_zeros d14)) eqn:E4; [reflexivity|].
  destruct (last8_step _ d14); [reflexivity|].
  destruct (pad_step _ d14) as [r|] eqn:E5; [|reflexivity].
  exfalso. unfold pad_step in E5.
  destruct (_ && _) in E5; [|discriminate].
  apply pad_loop_key in E5 as [w Hw].
  rewrite (proj1 (exact_table_keys _ _)) in Hw.
  apply last_writer_some in Hw as (b & Hin & Hk).
  pose proof (arg_digits_all_digits _ _ H14) as Hd.
  destruct (exact_keys_digits _ _ Hk) as [_ Hz].
  specialize (Hz (padStart_digits w d14 Hd)).
  rewrite strip_zeros_padStart in Hz.
  assert (Hs : is_Some (exact (buildMasterIndex masterData)
                          !! JS.strip_zeros d14)).
  { apply exact_table_keys. exists b, (name r). split; [exact Hin|].
    rewrite Hz. apply stripped_in_exact_keys. now rewrite <- Hz. }
  unfold exact_nonempty in E4. apply nonempty_neq in Hnz.
  rewrite Hnz in E4. rewrite E4 in Hs. now destruct Hs.
Qed.

Lemma padding_loop_only_for_zeros_witness :
  matchProduct (buildMasterIndex paracetamol_catalog)
    (VStr "12345678") VNull
  = Ok (match_digits_without_padding (buildMasterIndex paracetamol_catalog)
          "12345678" "").
Proof.
  apply (padding_loop_only_for_zeros paracetamol_catalog
           (VStr "12345678") VNull "12345678" "");
    [reflexivity|reflexivity|discriminate].
Defined.

(** * The decoder on a trimmed text *)

Lemma with_raw_default (v v' : jsval) :
  with_raw v (default_result v') = default_result v.
Proof. reflexivity. Qed.

Lemma with_raw_set_gtin (v : jsval) (g14 g13 : string) (r : ParsedCode) :
  with_raw v (set_gtin g14 g13 r) = set_gtin g14 g13 (with_raw v r).
Proof. reflexivity. Qed.

Lemma extract_with_raw (env : Env) (v : jsval) (code : string)
    (r : ParsedCode) :
  extract env code (with_raw v r)
  = map_outcome (with_raw v) (extract env code r).
Proof.
  unfold extract.
  destruct (match_gtin code), (match_expiry code) as [e|];
    try (destruct (parseExpiryDate env e) as [p| |]); cbn [bind map_outcome];
    try reflexivity;
    destruct (match_batch code), (match_serial code), (match_qty code);
    reflexivity.
Qed.

Lemma parse_rest_with_raw (env : Env) (v : jsval) (code : string)
    (r : ParsedCode) :
  parse_rest env code (with_raw v r)
  = map_outcome (with_raw v) (parse_rest env code r).
Proof.
  unfold parse_rest.
  destruct (JS.digits_between 5 7 code); [reflexivity|].
  destruct (with_parentheses code) as [c1| |]; cbn [bind]; try reflexivity.
  apply extract_with_raw.
Qed.

(** The decoding of a non-empty text, from its normalised form. *)
Lemma parseGS1_of_code (env : Env) (s : string) :
  JS.nonempty s = true ->
  parseGS1 env (VStr s)
  = map_outcome (with_raw (VStr s))
      (let code := JS.gs_to_pipe (JS.trim s) in
       if JS.digits_between 5 21 code && negb (JS.includes "(" code) then
         let result1 :=
           set_gtin (JS.padStart 14 "0" code)
             (if (String.length code <=? 13)%nat then code
              else JS.substring 0 13 code) (default_result VUndefined) in
         if JS.startsWith "01" code && (16 <=? String.length code)%nat then
           let* code1 := convertToParenthesized code in
           parse_rest env code1 result1
         else Ok result1
       else parse_rest env code (default_result VUndefined)).
Proof.
  intros Hne. unfold parseGS1. rewrite Hne. cbn [negb]. cbv zeta.
  destruct (_ && negb _).
  - destruct (_ && _).
    + destruct (convertToParenthesized _) as [c1| |]; cbn [bind map_outcome];
        try reflexivity.
      rewrite <- parse_rest_with_raw. reflexivity.
    + reflexivity.
  - rewrite <- parse_rest_with_raw. reflexivity.
Qed.

(** X25: decoding a text and decoding the trimmed text, as the paste
    box does, give the same record but for the [raw] field, which holds
    the text as it was passed. *)
Theorem parseGS1_of_trimmed (env : Env) (s : string) :
  parseGS1 env (VStr (JS.trim s))
  = map_outcome (with_raw (VStr (JS.trim s))) (parseGS1 env (VStr s)).
Proof.
  destruct (JS.nonempty s) eqn:Hs.
  2:{ destruct s; [reflexivity|discriminate]. }
  destruct (JS.nonempty (JS.trim s)) eqn:Ht.
  - rewrite (parseGS1_of_code env s Hs), (parseGS1_of_code env _ Ht).
    rewrite trim_idem.
    destruct (if _ && negb _ then _ else _) as [r| |]; reflexivity.
  - assert (E : JS.trim s = "") by (destruct (JS.trim s); [reflexivity|discriminate]).
    rewrite (parseGS1_of_code env s Hs), E. reflexivity.
Qed.

(** * Adding to the catalog *)

Lemma saveMasterData_keeps (products : list Product.t)
    (md : list (string * string)) (b nm : string) :
  In (b, nm) md ->
  exists nm', In (b, nm') (saveMasterData products true md).
Proof.
  unfold saveMasterData. revert md nm.
  induction products as [|p products IH]; intros md nm Hin; [eauto|].
  cbn [fold_left].
  destruct (masterData_set_keeps (Product.gtin p) (Product.name p) b nm md Hin)
    as [nm' Hin'].
  apply (IH _ nm' Hin').
Qed.

(** A key of the exact table stays one when products are added. *)
Lemma exact_key_kept (products : list Product.t)
    (md : list (string * string)) (k : string) :
  is_Some (exact (buildMasterIndex md) !! k) ->
  is_Some (exact (buildMasterIndex (saveMasterData products true md)) !! k).
Proof.
  intros (b & nm & Hin & Hk)%exact_table_keys.
  destruct (saveMasterData_keeps products md b nm Hin) as [nm' Hin'].
  apply exact_table_keys. eauto.
Qed.

(** X27: adding products to the catalog with [saveMasterData] in append
    mode never loses an exact match: a [gtin14] with a non-zero digit
    that is matched as [EXACT] before is matched as [EXACT] on the
    index rebuilt after, possibly under the name an added product gave
    to the same key. *)
Theorem appending_keeps_exact_matches
    (masterData : list (string * string)) (products : list Product.t)
    (gtin14 gtin13 : jsval) (d14 : string) (n : string) :
  arg_digits gtin14 = Ok d14 ->
  JS.strip_zeros d14 <> "" ->
  matchProduct (buildMasterIndex masterData) gtin14 gtin13
  = Ok {| name := n; type := EXACT |} ->
  exists n',
    matchProduct
      (buildMasterIndex (saveMasterData products true masterData))
      gtin14 gtin13
    = Ok {| name := n'; type := EXACT |}.
Proof.
  intros H14 Hnz Hm.
  destruct (matchProduct_inv _ _ _ _ Hm) as (d14' & d13 & H14' & H13 & Hr).
  rewrite H14 in H14'. injection H14' as <-.
  rewrite (matchProduct_digits _ _ _ _ _ H14 H13).
  set (idx := buildMasterIndex masterData) in *.
  set (idx' := buildMasterIndex (saveMasterData products true masterData)).
  assert (Hkept : forall k, is_Some (exact idx !! k) ->
                            is_Some (exact idx' !! k))
    by (intros k; apply exact_key_kept).
  assert (Hne : forall k, is_Some (exact_nonempty idx k) ->
                          is_Some (exact_nonempty idx' k)).
  { intros k. unfold exact_nonempty. destruct (JS.nonempty k); [apply Hkept|].
    intros [? ?]; discriminate. }
  assert (Hfour :
    is_Some (exact_nonempty idx d14) \/ is_Some (exact_nonempty idx d13)
    \/ is_Some (exact idx !! JS.padStart 14 "0" d14)
    \/ is_Some (exact_nonempty idx (JS.strip_zeros d14))).
  { pose proof (padding_loop_redundant masterData d14 d13
                  (arg_digits_all_digits _ _ H14) Hnz) as Hred.
    fold idx in Hred. rewrite Hred in Hr.
    unfold match_digits_without_padding in Hr.
    destruct (exact_nonempty idx d14); [eauto|].
    destruct (exact_nonempty idx d13); [eauto|].
    destruct (exact idx !! JS.padStart 14 "0" d14); [eauto 6|].
    destruct (exact_nonempty idx (JS.strip_zeros d14)); [eauto 6|].
    exfalso. destruct (last8_step idx d14) as [r|] eqn:E.
    - apply last8_step_type in E. rewrite <- Hr in E. cbn in E.
      destruct E; discriminate.
    - discriminate. }
  unfold match_digits.
  destruct (exact_nonempty idx' d14) eqn:E1; [eauto|].
  destruct (exact_nonempty idx' d13) eqn:E2; [eauto|].
  destruct (exact idx' !! JS.padStart 14 "0" d14) eqn:E3; [eauto|].
  destruct (exact_nonempty idx' (JS.strip_zeros d14)) eqn:E4; [eauto|].
  exfalso.
  destruct Hfour as [H|[H|[H|H]]].
  - apply Hne in H. rewrite E1 in H. now destruct H.
  - apply Hne in H. rewrite E2 in H. now destruct H.
  - apply Hkept in H. rewrite E3 in H. now destruct H.
  - apply Hne in H. rewrite E4 in H. now destruct H.
Qed.

Lemma appending_keeps_exact_matches_witness :
  exists n',
    matchProduct
      (buildMasterIndex
         (saveMasterData [Product.mk "05012345678900" "Paracetamol tablets"]
            true paracetamol_catalog))
      (VStr "05012345678900") (VStr "5012345678900")
    = Ok {| name := n'; type := EXACT |}.
Proof.
  apply (appending_keeps_exact_matches paracetamol_catalog
           [Product.mk "05012345678900" "Paracetamol tablets"]
           (VStr "05012345678900") (VStr "5012345678900")
           "05012345678900" "Paracetamol 500mg").
  - reflexivity.
  - discriminate.
  - vm_compute. reflexivity.
Defined.

(** * The matcher against the strategies of the specification *)

Section Strategies.

Variable idx : MasterIndex.







End Strategies.





(** * The matcher at its interface and at its call sites *)






(** * The quantity of a decoded record *)

Lemma quantity_of_match (text q : string) :
  match_qty text = Some q ->
  qty_of q = (if digits_value 10 q 0 =? 0 then Fin 1
              else round_double (digits_value 10 q 0)).
Proof.
  intros Eq.
  destruct (regex_match_sound _ _ _ _ _ _ Eq) as (Hd & Hlo & _).
  apply qty_of_ok; [exact Hd|]. apply nonempty_length. cbn in Hlo. lia.
Qed.

(** The patterns leave in [qty] the quantity of the text they read. *)
Lemma extract_quantity (env : Env) (text : string) (result r : ParsedCode) :
  qty result = Fin 1 ->
  extract env text result = Ok r ->
  qty r = quantity_of_text text.
Proof.
  intros H1 E.
  destruct (extract_fields env text result)
    as (r' & E' & _ & _ & _ & _ & _ & _ & Hq).
  rewrite E in E'. injection E' as <-.
  rewrite Hq. unfold quantity_of_text.
  destruct (match_qty text) as [q|] eqn:Eq; [|exact H1].
  now apply quantity_of_match with (text := text).
Qed.

Lemma starts_01_two_digits (code : string) :
  JS.startsWith "01" code = true -> JS.two_digits_first code = true.
Proof.
  unfold JS.startsWith.
  destruct (JS.strip_prefix "01" code) as [rest|] eqn:Hp; [|discriminate].
  apply strip_prefix_eq in Hp. now subst code.
Qed.

(** C9 (as amended): the quantity of every decoded input is a number
    from 1 on: an integer-valued double, or [+Infinity] when the digits
    after (30) denote a value beyond the largest double. It is the
    quantity of the text in which the decoder looks for its fields: 1
    when no digits follow (30) there, else the number [parseInt] reads
    from them (their value below [2^53], the nearest double above), a
    value of zero giving 1. For an input with a parenthesis that text is
    the input, trimmed; for one without, starting with two digits, it is
    what [convertToParenthesized] makes of it, unless the input is a bare
    code of 5 to 21 digits (not one of 16 or more that starts with 01),
    whose quantity is 1, as it is for every other input. So (30)007
    gives 7, (30)0 gives 1, the scan 01050123456789003012 gives 12 and
    the bare code 5012345678900 gives 1. *)
Theorem quantity_from_one (env : Env) (v : jsval) :
  exists r,
    parseGS1 env v = Ok r
    /\ qty_ok (qty r)
    /\ match v with
       | VStr s =>
           let code := JS.gs_to_pipe (JS.trim s) in
           if JS.includes "(" code then qty r = quantity_of_text code
           else if JS.digits_between 5 21 code
                   && negb (JS.startsWith "01" code
                            && (16 <=? String.length code)%nat)
           then qty r = Fin 1
           else if JS.two_digits_first code
           then exists text,
                  convertToParenthesized code = Ok text
                  /\ qty r = quantity_of_text text
           else qty r = Fin 1
       | _ => qty r = Fin 1
       end
    /\ (exists r7, parseGS1 env (VStr "(30)007") = Ok r7 /\ qty r7 = Fin 7)
    /\ (exists r0, parseGS1 env (VStr "(30)0") = Ok r0 /\ qty r0 = Fin 1)
    /\ (exists r12,
          parseGS1 env (VStr "01050123456789003012") = Ok r12
          /\ qty r12 = Fin 12)
    /\ (exists r1, parseGS1 env (VStr "5012345678900") = Ok r1
                   /\ qty r1 = Fin 1).
Proof.
  destruct (parseGS1_good env v) as (r & E & _ & Hq & _).
  exists r. split; [exact E|]. split; [exact Hq|]. split.
  - rewrite short_code_unreachable in E.
    unfold parseGS1_without_short_code in E.
    destruct v as [| | | |s|]; try (injection E as <-; reflexivity).
    cbv zeta.
    destruct (JS.nonempty s) eqn:Hne; cbn [negb] in E.
    2:{ destruct s; [|discriminate]. injection E as <-. reflexivity. }
    set (code := JS.gs_to_pipe (JS.trim s)) in *.
    destruct (JS.includes "(" code) eqn:Hp.
    + rewrite (paren_not_digits 5 21 code Hp) in E. cbn [andb] in E.
      unfold with_parentheses in E. rewrite Hp in E.
      cbn [negb andb bind] in E.
      now apply (extract_quantity env code _ r) in E.
    + cbn [negb] in E. rewrite andb_true_r in E.
      destruct (JS.digits_between 5 21 code) eqn:Hd; cbn [andb].
      * destruct (JS.startsWith "01" code) eqn:H01; cbn [andb negb] in E |- *;
          [|injection E as <-; reflexivity].
        destruct (16 <=? String.length code)%nat; cbn [negb];
          [|injection E as <-; reflexivity].
        rewrite (starts_01_two_digits code H01).
        destruct (convertToParenthesized code) as [c1| |] eqn:Hc;
          cbn [bind] in E; try discriminate.
        unfold with_parentheses in E.
        rewrite (convert_after_01 code c1 H01 Hc) in E.
        cbn [negb andb bind] in E.
        exists c1. split; [reflexivity|].
        now apply (extract_quantity env c1 _ r) in E.
      * unfold with_parentheses in E. rewrite Hp in E. cbn [negb andb] in E.
        destruct (JS.two_digits_first code).
        -- destruct (convertToParenthesized code) as [c1| |] eqn:Hc;
             cbn [bind] in E; try discriminate.
           exists c1. split; [reflexivity|].
           now apply (extract_quantity env c1 _ r) in E.
        -- cbn [bind] in E.
           apply (extract_quantity env code _ r) in E; [|reflexivity].
           rewrite E. unfold quantity_of_text, match_qty.
           now rewrite (regex_match_absent _ _ _ _ _ code Hp).
  - repeat split; eexists; (split; [vm_compute; reflexivity|reflexivity]).
Qed.

Lemma quantity_from_one_witness :
  exists r,
    parseGS1 (fixed_zone 0 0) (VStr "0105012345678900300480") = Ok r
    /\ qty r = Fin 480.
Proof.
  destruct (quantity_from_one (fixed_zone 0 0)
              (VStr "0105012345678900300480"))
    as (r & E & _ & H & _).
  exists r. split; [exact E|].
  cbv zeta in H.
  change (JS.includes "(" (JS.gs_to_pipe (JS.trim "0105012345678900300480")))
    with false in H.
  change (JS.digits_between 5 21
            (JS.gs_to_pipe (JS.trim "0105012345678900300480"))
          && negb (JS.startsWith "01"
                     (JS.gs_to_pipe (JS.trim "0105012345678900300480"))
                   && (16 <=? String.length
                                (JS.gs_to_pipe
                                   (JS.trim "0105012345678900300480")))%nat))
    with false in H.
  change (JS.two_digits_first
            (JS.gs_to_pipe (JS.trim "0105012345678900300480")))
    with true in H.
  destruct H as (text & Ht & Hr).
  assert (Hc : convertToParenthesized
                 (JS.gs_to_pipe (JS.trim "0105012345678900300480"))
               = Ok "(01)05012345678900(30)0480") by (vm_compute; reflexivity).
  rewrite Hc in Ht. injection Ht as <-. exact Hr.
Defined.

(** C9 as stated fails: after (30) and the digits of [10^309] the
    quantity is [+Infinity], which is no integer. *)
Lemma quantity_not_an_integer :
  exists r,
    parseGS1 (fixed_zone 0 0) (VStr ("(30)" ++ huge_quantity)) = Ok r
    /\ qty r = Inf false
    /\ forall z, qty r <> Fin z.
Proof.
  eexists. split; [vm_compute; reflexivity|].
  split; [reflexivity|]. intros z. discriminate.
Qed.

(** * The status of a decoded expiry date *)

(** The status of the ISO date of a day number, in a zone with one
    offset: the days from the local day of the clock to the local day
    on which that date begins in UTC. *)
Lemma status_of_iso_day (clock off n : Z) :
  - msPerDay < off < msPerDay -> 10900 <= n < 50300 ->
  calculateExpiryStatus (fixed_zone clock off) (Some (iso_of_day n))
  = status_of_days (n - (if off <? 0 then 1 else 0)
                    - (clock + off) / msPerDay).
Proof.
  intros Hoff Hn.
  unfold calculateExpiryStatus.
  rewrite iso_of_day_nonempty. cbn [negb].
  unfold expiry_midnight. rewrite (iso_of_day_parses n Hn).
  unfold today_midnight, setHours0, LocalTime, UTC, fixed_zone;
    cbn [now tzaOfUtc tzaOfLocal].
  rewrite (proj2 (div_day_shift n off Hoff)).
  set (today := (clock + off) / msPerDay).
  set (k := n - (if off <? 0 then 1 else 0)).
  assert (Hdiff : ceil_div (k * msPerDay - off - (today * msPerDay - off))
                    msPerDay = k - today).
  { unfold ceil_div.
    replace (- (k * msPerDay - off - (today * msPerDay - off)))
      with ((today - k) * msPerDay) by lia.
    rewrite Z.div_mul by discriminate. lia. }
  rewrite Hdiff. reflexivity.
Qed.

Lemma match_expiry_head (e : string) :
  JS.all_chars JS.is_digit e = true -> String.length e = 6%nat ->
  match_expiry ("(17)" ++ e) = Some e.
Proof.
  intros Hd Hlen. unfold match_expiry.
  apply (regex_match_head _ _ _ _ _ e); [reflexivity|].
  unfold JS.capture. rewrite (take_while_all _ e Hd), Hlen.
  cbn [Nat.leb]. now rewrite str_take_all by lia.
Qed.

(** C5 (the code departs from the claim): let [expiry] be the local
    midnight of the date that an expiry field YYMMDD names, [today] the
    local midnight of the clock, and
    [diffDays = ceil((expiry - today) / msPerDay)], in a zone with one
    offset from UTC of less than a day. When the offset is zero the
    status of the decoded field is the one the claim gives: [expired]
    for [diffDays < 0], [soon] up to 90, [ok] beyond. With any other
    offset the code classifies [diffDays - 1]: east of Greenwich it
    stores the day before the date, west of it [new Date] reads the
    stored date as the evening before, so a date that expires today is
    [expired] and one 91 days ahead is [soon]. The display keeps the
    date of the field. A record without a decoded expiry, and no other,
    has the status [missing]. *)
Theorem expiry_status_of_decoded_date (clock off : Z)
    (y1 y2 m1 m2 d1 d2 : ascii) :
  JS.is_digit y1 = true -> JS.is_digit y2 = true ->
  JS.is_digit m1 = true -> JS.is_digit m2 = true ->
  JS.is_digit d1 = true -> JS.is_digit d2 = true ->
  let yy := String y1 (String y2 "") in
  let mm := String m1 (String m2 "") in
  let dd := String d1 (String d2 "") in
  let year := 2000 + digits_value 10 yy 0 in
  let month := digits_value 10 mm 0 in
  let day := digits_value 10 dd 0 in
  1 <= month <= 12 -> 1 <= day <= days_in_month year month ->
  - msPerDay < off < msPerDay ->
  let expiryTime := days_from_civil year month day * msPerDay - off in
  let today := (clock + off) / msPerDay * msPerDay - off in
  let diffDays := ceil_div (expiryTime - today) msPerDay in
  (exists r,
     parseGS1 (fixed_zone clock off) (VStr ("(17)" ++ yy ++ mm ++ dd)) = Ok r
     /\ expiryFormatted r = dd ++ "/" ++ mm ++ "/" ++ "20" ++ yy
     /\ expiry r = Some (iso_of_day (days_from_civil year month day
                                     - (if 0 <? off then 1 else 0)))
     /\ expiryStatus r
        = status_of_days (diffDays - (if off =? 0 then 0 else 1))
     /\ (off = 0 -> expiryStatus r = status_of_days diffDays)
     /\ (off <> 0 -> diffDays = 0 -> expiryStatus r = expired)
     /\ (off <> 0 -> diffDays = 91 -> expiryStatus r = soon))
  /\ diffDays = days_from_civil year month day - (clock + off) / msPerDay
  /\ (forall env,
        calculateExpiryStatus env None = missing
        /\ calculateExpiryStatus env (Some "") = missing)
  /\ (forall env v,
        exists r,
          parseGS1 env v = Ok r
          /\ (expiryStatus r = missing <-> expiry r = None)).
Proof.
  intros Hy1 Hy2 Hm1 Hm2 Hd1 Hd2 yy mm dd year month day Hm Hday Hoff
    expiryTime today diffDays.
  set (D := days_from_civil year month day).
  set (T := (clock + off) / msPerDay).
  assert (Hdiff : diffDays = D - T).
  { unfold diffDays, expiryTime, today, ceil_div. fold D T.
    replace (- (D * msPerDay - off - (T * msPerDay - off)))
      with ((T - D) * msPerDay) by lia.
    rewrite Z.div_mul by discriminate. lia. }
  split; [|split; [exact Hdiff|split]].
  - set (e := yy ++ mm ++ dd).
    assert (He : JS.all_chars JS.is_digit e = true).
    { change e with (String y1 (String y2 (String m1 (String m2
                       (String d1 (String d2 "")))))).
      cbn [JS.all_chars]. now rewrite Hy1, Hy2, Hm1, Hm2, Hd1, Hd2. }
    assert (Hplain : JS.gs_to_pipe (JS.trim ("(17)" ++ e)) = "(17)" ++ e).
    { apply normalize_plain.
      rewrite all_chars_app, (digits_plain e He). reflexivity. }
    destruct (parseExpiryDate_fixed_zone clock off y1 y2 m1 m2 d1 d2
                Hy1 Hy2 Hm1 Hm2 Hd1 Hd2 Hm Hday Hoff)
      as (p & Hp & Hiso & Hr).
    fold yy mm dd year month day in Hp, Hiso, Hr.
    fold e in Hp. fold D in Hiso, Hr.
    destruct (parseExpiryDate_fields (fixed_zone clock off) y1 y2 m1 m2 d1 d2
                Hy1 Hy2 Hm1 Hm2 Hd1 Hd2) as (p' & Hp' & Hf & _).
    fold yy mm dd year month day in Hp', Hf. fold e in Hp'.
    rewrite Hp in Hp'. injection Hp' as <-.
    destruct (extract_fields (fixed_zone clock off) ("(17)" ++ e)
                (default_result (VStr ("(17)" ++ e))))
      as (r & E & _ & _ & _ & Hx & _).
    rewrite (match_expiry_head e He eq_refl) in Hx.
    destruct Hx as (p' & Hp' & Hexp & _ & Hfmt & Hst).
    rewrite Hp in Hp'. injection Hp' as <-.
    assert (Hstatus : expiryStatus r
                      = status_of_days
                          (diffDays - (if off =? 0 then 0 else 1))).
    { rewrite Hst, Hiso, status_of_iso_day; [|exact Hoff|].
      - fold T. rewrite Hdiff. f_equal.
        destruct (Z.ltb_spec 0 off), (Z.ltb_spec off 0), (Z.eqb_spec off 0);
          lia.
      - destruct (0 <? off); lia. }
    exists r. split; [|split; [|split; [|split; [|split; [|split]]]]].
    + rewrite parseGS1_parenthesized; rewrite ?Hplain;
        [exact E|reflexivity|reflexivity].
    + rewrite Hfmt, Hf. destruct (Z.eqb_spec day 0); [lia|].
      pose proof (two_digits_value d1 d2 Hd1 Hd2) as Td.
      cbv zeta in Td. destruct Td as (_ & _ & Hpad & _).
      fold dd in Hpad. fold day in Hpad. now rewrite Hpad.
    + rewrite Hexp, Hiso. reflexivity.
    + exact Hstatus.
    + intros ->. rewrite Hstatus. cbn [Z.eqb]. f_equal. lia.
    + intros Hne H0. rewrite Hstatus, H0.
      destruct (Z.eqb_spec off 0); [contradiction|reflexivity].
    + intros Hne H91. rewrite Hstatus, H91.
      destruct (Z.eqb_spec off 0); [contradiction|reflexivity].
  - intros env. split; reflexivity.
  - intros env v.
    destruct (parseGS1_good env v) as (r & E & _ & _ & Hs & Ho).
    exists r. split; [exact E|].
    destruct (expiry r) as [i|] eqn:Hi;
      [|split; [reflexivity|intros _; exact Hs]].
    split; [|discriminate].
    intros Hmiss. exfalso. rewrite Hs in Hmiss. revert Hmiss.
    destruct (Ho i Hi) as (e & p & _ & _ & Hp & ->).
    apply status_not_missing.
    destruct (parseExpiryDate_iso env e p Hp) as [t ->].
    apply iso_of_day_nonempty.
Qed.

Lemma expiry_status_of_decoded_date_witness :
  exists r,
    parseGS1 (fixed_zone 1736938800000 3600000) (VStr "(17)250115") = Ok r
    /\ expiryFormatted r = "15/01/2025"
    /\ expiry r = Some "2025-01-14"
    /\ expiryStatus r = expired.
Proof.
  destruct (expiry_status_of_decoded_date 1736938800000 3600000
              "2" "5" "0" "1" "1" "5"
              eq_refl eq_refl eq_refl eq_refl eq_refl eq_refl
              ltac:(vm_compute; split; congruence)
              ltac:(vm_compute; split; congruence)
              ltac:(vm_compute; split; reflexivity))
    as ((r & E & Hf & Hx & Hs & _) & _).
  exists r. split; [exact E|]. split; [exact Hf|].
  split; [exact Hx|exact Hs].
Defined.
